(** * Bulk ingestion into D1: statement builder, batcher and import driver

    A shallow embedding of the ingestion scripts
    [scripts/ingest_montreal_opendata.py], [scripts/ingest_digital_assets.py]
    and [scripts/ingest_real_sign_photos.py]:

    - [make_sql_insert], the statement builder;
    - the batching loop of the [ingest_*] functions;
    - [d1_bulk_import], the staged upload protocol (init, upload, ingest,
      poll) against the D1 import endpoint.

    Conventions.  A Python [str] is represented by the byte string of its
    UTF-8 encoding, which is also how a string literal of this file is stored;
    [str.encode('utf-8')] is then the identity, and [str.replace] with an
    ASCII pattern, concatenation, [str.join] and [==] act on the encoding as
    they act on the code points.  Network calls are answered by a [server]
    record, so that the driver is a function of the replies it receives; the
    observable behaviour of a run is its [trace] of requests, sleeps and
    printed messages. *)

From Stdlib Require Import ZArith List String Ascii Bool Lia Arith.
From Stdlib Require Import Numbers.DecimalString.
From Stdlib Require Import Floats.PrimFloat.
Import ListNotations.

Open Scope string_scope.
Open Scope list_scope.

(** ** Python string primitives *)

Module Py.

(** The double quote (code 34) and the single quote (code 39). *)
Definition dquote_char : ascii := ascii_of_nat 34.
Definition quote_char : ascii := ascii_of_nat 39.
Definition dquote : string := String dquote_char EmptyString.
Definition quote : string := String quote_char EmptyString.
Definition newline : string := String (ascii_of_nat 10) EmptyString.

(** [sep.join(parts)]. *)
Fixpoint join (sep : string) (parts : list string) : string :=
  match parts with
  | [] => EmptyString
  | [p] => p
  | p :: rest => p ++ sep ++ join sep rest
  end.

(** [s.replace(old, new)] for a non-empty [old]: the occurrences of [old]
    are replaced from left to right, without overlap.  [skip] counts the
    characters of a matched occurrence that are still to be dropped. *)
Fixpoint replace_from (old new s : string) (skip : nat) : string :=
  match s with
  | EmptyString => EmptyString
  | String c s' =>
      match skip with
      | S k => replace_from old new s' k
      | O =>
          if prefix old s
          then new ++ replace_from old new s' (length old - 1)
          else String c (replace_from old new s' 0)
      end
  end.

Definition replace (old new s : string) : string := replace_from old new s 0.

(** [str(n)] for an [int]. *)
Definition str_int (n : Z) : string := NilEmpty.string_of_int (Z.to_int n).

(** [str(b)] for a [bool]. *)
Definition str_bool (b : bool) : string := if b then "True" else "False".

End Py.

(** ** MD5 ([hashlib.md5(data).hexdigest()], RFC 1321) *)

Module MD5.

Local Open Scope Z_scope.

Definition w32 (x : Z) : Z := x mod 2 ^ 32.

Definition rotl (x c : Z) : Z :=
  w32 (Z.lor (Z.shiftl x c) (Z.shiftr x (32 - c))).

Definition not32 (x : Z) : Z := Z.lxor x 0xffffffff.

Definition shifts : list Z :=
  [ 7; 12; 17; 22; 7; 12; 17; 22; 7; 12; 17; 22; 7; 12; 17; 22;
    5; 9; 14; 20; 5; 9; 14; 20; 5; 9; 14; 20; 5; 9; 14; 20;
    4; 11; 16; 23; 4; 11; 16; 23; 4; 11; 16; 23; 4; 11; 16; 23;
    6; 10; 15; 21; 6; 10; 15; 21; 6; 10; 15; 21; 6; 10; 15; 21 ].

Definition sines : list Z :=
  [ 0xd76aa478; 0xe8c7b756; 0x242070db; 0xc1bdceee;
    0xf57c0faf; 0x4787c62a; 0xa8304613; 0xfd469501;
    0x698098d8; 0x8b44f7af; 0xffff5bb1; 0x895cd7be;
    0x6b901122; 0xfd987193; 0xa679438e; 0x49b40821;
    0xf61e2562; 0xc040b340; 0x265e5a51; 0xe9b6c7aa;
    0xd62f105d; 0x02441453; 0xd8a1e681; 0xe7d3fbc8;
    0x21e1cde6; 0xc33707d6; 0xf4d50d87; 0x455a14ed;
    0xa9e3e905; 0xfcefa3f8; 0x676f02d9; 0x8d2a4c8a;
    0xfffa3942; 0x8771f681; 0x6d9d6122; 0xfde5380c;
    0xa4beea44; 0x4bdecfa9; 0xf6bb4b60; 0xbebfbc70;
    0x289b7ec6; 0xeaa127fa; 0xd4ef3085; 0x04881d05;
    0xd9d4d039; 0xe6db99e5; 0x1fa27cf8; 0xc4ac5665;
    0xf4292244; 0x432aff97; 0xab9423a7; 0xfc93a039;
    0x655b59c3; 0x8f0ccc92; 0xffeff47d; 0x85845dd1;
    0x6fa87e4f; 0xfe2ce6e0; 0xa3014314; 0x4e0811a1;
    0xf7537e82; 0xbd3af235; 0x2ad7d2bb; 0xeb86d391 ].

(** The message followed by the bit 1, zero bytes up to 56 modulo 64, and the
    bit length of the message as a 64-bit little-endian integer. *)
Fixpoint le_bytes (n : nat) (x : Z) : list Z :=
  match n with
  | O => []
  | S n' => (x mod 256) :: le_bytes n' (x / 256)
  end.

Definition pad (msg : list Z) : list Z :=
  let len := Z.of_nat (List.length msg) in
  let zeros := Z.to_nat ((55 - len) mod 64) in
  msg ++ [0x80] ++ List.repeat 0 zeros ++ le_bytes 8 ((8 * len) mod 2 ^ 64).

Fixpoint le_word (bs : list Z) : Z :=
  match bs with
  | [] => 0
  | b :: bs' => b + 256 * le_word bs'
  end.

(** The sixteen little-endian words of a 64-byte block. *)
Fixpoint words (n : nat) (block : list Z) : list Z :=
  match n with
  | O => []
  | S n' => le_word (firstn 4 block) :: words n' (skipn 4 block)
  end.

Record regs := Regs { rA : Z; rB : Z; rC : Z; rD : Z }.

Definition init_regs : regs :=
  Regs 0x67452301 0xefcdab89 0x98badcfe 0x10325476.

Definition step (m : list Z) (r : regs) (i : Z) : regs :=
  let '(Regs a b c d) := r in
  let f :=
    if i <? 16 then Z.lor (Z.land b c) (Z.land (not32 b) d)
    else if i <? 32 then Z.lor (Z.land d b) (Z.land (not32 d) c)
    else if i <? 48 then Z.lxor b (Z.lxor c d)
    else Z.lxor c (Z.lor b (not32 d)) in
  let g :=
    if i <? 16 then i
    else if i <? 32 then (5 * i + 1) mod 16
    else if i <? 48 then (3 * i + 5) mod 16
    else (7 * i) mod 16 in
  let idx := Z.to_nat i in
  let f' := w32 (f + a + nth idx sines 0 + nth (Z.to_nat g) m 0) in
  Regs d (w32 (b + rotl f' (nth idx shifts 0))) b c.

Definition rounds : list Z := List.map Z.of_nat (List.seq 0 64).

Definition compress (r : regs) (block : list Z) : regs :=
  let r' := List.fold_left (step (words 16 block)) rounds r in
  Regs (w32 (rA r + rA r')) (w32 (rB r + rB r'))
       (w32 (rC r + rC r')) (w32 (rD r + rD r')).

Fixpoint blocks (n : nat) (r : regs) (bytes : list Z) : regs :=
  match n with
  | O => r
  | S n' => blocks n' (compress r (firstn 64 bytes)) (skipn 64 bytes)
  end.

Definition digest (msg : list Z) : list Z :=
  let p := pad msg in
  let r := blocks (List.length p / 64) init_regs p in
  le_bytes 4 (rA r) ++ le_bytes 4 (rB r) ++ le_bytes 4 (rC r) ++ le_bytes 4 (rD r).

Definition hex_digit (x : Z) : ascii :=
  nth (Z.to_nat x)
      (list_ascii_of_string "0123456789abcdef") "0"%char.

Fixpoint hex (bs : list Z) : string :=
  match bs with
  | [] => EmptyString
  | b :: bs' => String (hex_digit (b / 16)) (String (hex_digit (b mod 16)) (hex bs'))
  end.

Definition bytes_of_string (s : string) : list Z :=
  List.map (fun c => Z.of_N (N_of_ascii c)) (list_ascii_of_string s).

(** [hashlib.md5(data).hexdigest()]. *)
Definition hexdigest (data : string) : string := hex (digest (bytes_of_string data)).

End MD5.

(** ** Statement builder *)

(** The scalar values a record holds: [None], [str], [int], [float], [bool]. *)
Inductive value : Type :=
| VNone
| VStr (s : string)
| VInt (n : Z)
| VFloat (f : float)
| VBool (b : bool).

(** A record is a [dict]: its items in insertion order. *)
Definition record : Type := list (string * value).

Definition is_none (v : value) : bool :=
  match v with
  | VNone => true
  | _ => false
  end.

Section StatementBuilder.

(** [str(f)] for a [float] is Python's shortest round-trip decimal form; it is
    a built-in of the interpreter and is kept abstract here. *)
Variable float_repr : float -> string.

(** [str(v)]. *)
Definition py_str (v : value) : string :=
  match v with
  | VNone => "None"
  | VStr s => s
  | VInt n => Py.str_int n
  | VFloat f => float_repr f
  | VBool b => Py.str_bool b
  end.

(** The element the list comprehension of [make_sql_insert] builds for [v]. *)
Definition sql_literal (v : value) : string :=
  if negb (is_none v)
  then "'" ++ Py.replace "'" "''" (py_str v) ++ "'"
  else "NULL".

Definition make_sql_insert (table_name : string) (data : record) : string :=
  let columns := Py.join ", " (List.map fst data) in
  let values := Py.join ", " (List.map (fun kv => sql_literal (snd kv)) data) in
  "INSERT INTO " ++ table_name ++ " (" ++ columns ++ ") VALUES (" ++ values ++ ")".

(** What every [ingest_*] function appends to its batch. *)
Definition upsert_statement (table_name : string) (data : record) : string :=
  Py.replace "INSERT INTO" "INSERT OR REPLACE INTO" (make_sql_insert table_name data).

End StatementBuilder.

(** Reading a quoted SQL literal back: the opening quote, then characters up
    to the closing quote, where two quotes in a row stand for one quote.  The
    closing quote has to be the last character. *)
Fixpoint unquote_body (s : string) : option string :=
  match s with
  | EmptyString => None
  | String c s' =>
      if Ascii.eqb c Py.quote_char then
        match s' with
        | EmptyString => Some EmptyString
        | String c' s'' =>
            if Ascii.eqb c' Py.quote_char
            then option_map (String Py.quote_char) (unquote_body s'')
            else None
        end
      else option_map (String c) (unquote_body s')
  end.

Definition parse_literal (s : string) : option string :=
  match s with
  | EmptyString => None
  | String c s' => if Ascii.eqb c Py.quote_char then unquote_body s' else None
  end.

(** ** JSON values and exceptions *)

(** What [response.json()] returns. *)
#[local] Set Warnings "-register-all".
Inductive json : Type :=
| JNull
| JBool (b : bool)
| JNum (n : Z)
| JStr (s : string)
| JList (l : list json)
| JObj (items : list (string * json)).

(** The exceptions the driver tells apart, by the first [except] clause that
    matches: a [requests.exceptions.RequestException] (connection errors,
    timeouts, the [HTTPError] of [raise_for_status], and, from requests 2.27
    on, the decode error of [response.json()]); a [json.JSONDecodeError] that
    is no [RequestException] (older requests); any other [Exception]
    ([KeyError], [TypeError], [NameError], the [Exception] the driver raises
    itself). *)
Inductive exn : Type :=
| RequestException (msg : string)
| JSONDecodeError (msg : string)
| OtherException (msg : string).

(** Truth value of a JSON value in a condition. *)
Definition truthy (j : json) : bool :=
  match j with
  | JNull => false
  | JBool b => b
  | JNum n => negb (Z.eqb n 0)
  | JStr s => negb (String.eqb s EmptyString)
  | JList l => match l with [] => false | _ :: _ => true end
  | JObj items => match items with [] => false | _ :: _ => true end
  end.

Fixpoint lookup (key : string) (items : list (string * json)) : option json :=
  match items with
  | [] => None
  | (k, v) :: rest => if String.eqb k key then Some v else lookup key rest
  end.

(** [j[key]] for a string key: a [KeyError] when a dict lacks the key, a
    [TypeError] when [j] is no dict. *)
Definition getitem (j : json) (key : string) : exn + json :=
  match j with
  | JObj items =>
      match lookup key items with
      | Some v => inr v
      | None => inl (OtherException ("KeyError: '" ++ key ++ "'"))
      end
  | _ => inl (OtherException "TypeError: string key on a value that is not a dict")
  end.

(** [j == s] for a string [s]. *)
Definition json_eq_str (j : json) (s : string) : bool :=
  match j with
  | JStr s' => String.eqb s' s
  | _ => false
  end.

(** ** Responses, the server, and the trace of a run *)

Record response : Type := Response {
  status_code : Z;
  text : string;
  (** the outcome of [.json()] *)
  json_body : exn + json;
  (** the (case-insensitive) header dictionary, as its lookup function *)
  headers : string -> option string
}.

(** [headers.get(key, default)]. *)
Definition headers_get (r : response) (key default : string) : string :=
  match headers r key with
  | Some v => v
  | None => default
  end.

Inductive request : Type :=
| ReqInit (etag : string)
| ReqUpload (upload_url : json) (data : string)
| ReqIngest (etag : string) (filename : json)
| ReqPoll (current_bookmark : json).

(** The answers of the outside world to one import job.  [requests.post] and
    [requests.put] either return a response or raise a [RequestException]
    with the given text; [post_poll k] answers the poll number [k] of the
    job.  [wrangler] is the outcome of looking the database up with
    [wrangler d1 list --json]: an exception, no such database, or its
    uuid. *)
Record server : Type := Server {
  post_init : string -> string + response;
  put_upload : json -> string -> string + response;
  post_ingest : string -> json -> string + response;
  post_poll : nat -> json -> string + response;
  wrangler : exn + option string
}.

(** The three scripts each carry a copy of the driver.  The copies of
    [ingest_montreal_opendata.py] and [ingest_real_sign_photos.py] agree;
    the one of [ingest_digital_assets.py] looks the database up on every
    call, prints the status of every poll, and names an unbound variable in
    its [JSONDecodeError] clause. *)
Inductive script : Type :=
| MontrealOpendata
| RealSignPhotos
| DigitalAssets.

Definition is_digital_assets (sc : script) : bool :=
  match sc with
  | DigitalAssets => true
  | _ => false
  end.

(** The messages printed; a constructor stands for the text of the source
    with the interpolated values as arguments.  The digital-assets script
    prints the messages of the driver without the table name. *)
Inductive message : Type :=
| NoStatements (table_name : string)
| DatabaseNotFound (db_name : string)
| WranglerError (e : exn)
| Starting (count : nat) (table_name : string)
| IngestionInitiated (ingest_data : json)
| PollingStatus (poll_result : json)
| Completed (table_name : string)
| Failed (table_name : string) (error : json)
| NetworkError (table_name : string) (e : exn)
| DecodeError (table_name : string) (response_text : string)
| UnexpectedError (table_name : string) (e : exn)
| RowError (row_number : nat) (e : exn)
| Banner (title : string).

(** [Invoke] marks an entry into [d1_bulk_import] with its arguments; the
    other events are the effects of the run. *)
Inductive event : Type :=
| Invoke (table_name : string) (sql_statements : list string)
| Lookup
| Request (rq : request)
| Sleep (seconds : Z)
| Print (m : message).

(** The state a run threads: the trace so far, the number of import jobs
    started, and the local variable [init_response] of the driver call in
    progress ([None] while unbound). *)
Record state : Type := State {
  trace : list event;
  jobs : nat;
  init_response_var : option response
}.

Definition initial : state := State [] 0 None.

(** ** The monad of the scripts: state, exceptions, and fuel for [while True] *)

Inductive res (A : Type) : Type :=
| Ret (a : A)
| Raise (e : exn)
| OutOfFuel.

Arguments Ret {A} a.
Arguments Raise {A} e.
Arguments OutOfFuel {A}.

Definition M (A : Type) : Type := state -> res A * state.

Definition ret {A : Type} (a : A) : M A := fun st => (Ret a, st).

Definition bind {A B : Type} (c : M A) (k : A -> M B) : M B :=
  fun st =>
    match c st with
    | (Ret a, st') => k a st'
    | (Raise e, st') => (Raise e, st')
    | (OutOfFuel, st') => (OutOfFuel, st')
    end.

Definition raise {A : Type} (e : exn) : M A := fun st => (Raise e, st).

Definition out_of_fuel {A : Type} : M A := fun st => (OutOfFuel, st).

(** [try: body except Exception as e: handler e]. *)
Definition try_except {A : Type} (body : M A) (handler : exn -> M A) : M A :=
  fun st =>
    match body st with
    | (Raise e, st') => handler e st'
    | r => r
    end.

Declare Scope script_scope.
Delimit Scope script_scope with script.
Notation "x <- c ;; k" := (bind c (fun x => k))
  (at level 61, c at next level, right associativity) : script_scope.
Notation "c ;; k" := (bind c (fun _ => k))
  (at level 61, right associativity) : script_scope.
Open Scope script_scope.

Definition emit (ev : event) : M unit :=
  fun st => (Ret tt, State (trace st ++ [ev]) (jobs st) (init_response_var st)).

Definition print (m : message) : M unit := emit (Print m).

Definition lift {A : Type} (r : exn + A) : M A :=
  match r with
  | inl e => raise e
  | inr a => ret a
  end.

(** A call of [requests.post] or [requests.put]. *)
Definition http (rq : request) (reply : string + response) : M response :=
  emit (Request rq) ;;
  match reply with
  | inl msg => raise (RequestException msg)
  | inr r => ret r
  end.

(** [r.raise_for_status()]: an [HTTPError] for the codes 400 to 599. *)
Definition http_error (r : response) : bool :=
  ((400 <=? status_code r) && (status_code r <? 600))%Z.

Definition raise_for_status (r : response) : M unit :=
  if http_error r
  then raise (RequestException ("HTTPError: " ++ Py.str_int (status_code r)))
  else ret tt.

Definition subscript (j : json) (key : string) : M json := lift (getitem j key).

Definition set_init_response (r : response) : M unit :=
  fun st => (Ret tt, State (trace st) (jobs st) (Some r)).

(** Entering the driver: the call is recorded, its locals are unbound. *)
Definition enter (table_name : string) (sql_statements : list string) : M unit :=
  fun st => (Ret tt, State (trace st ++ [Invoke table_name sql_statements]) (jobs st) None).

(** Reading the local [init_response]: an [UnboundLocalError] if unbound. *)
Definition read_init_response : M response :=
  fun st =>
    match init_response_var st with
    | Some r => (Ret r, st)
    | None => (Raise (OtherException "UnboundLocalError: init_response"), st)
    end.

(** ** The bulk import driver *)

Definition DB_NAME : string := "quebec-road-signs".

Definition not_importing : string := "Not currently importing anything.".

(** The statements joined by [;] and a newline, closed by a last [;]. *)
Definition payload (sql_statements : list string) : string :=
  Py.join (";" ++ Py.newline) sql_statements ++ ";".

(** The condition under which the poll loop breaks:
    [success or (not success and error == "Not currently importing anything.")]. *)
Definition poll_done (poll_result : json) : M bool :=
  success <- subscript poll_result "success" ;;
  if truthy success then ret true
  else
    success' <- subscript poll_result "success" ;;
    if negb (truthy success') then
      error <- subscript poll_result "error" ;;
      ret (json_eq_str error not_importing)
    else ret false.

(** [while True:] poll, break on [poll_done], otherwise sleep two seconds.
    [k] numbers the polls of the job; the loop returns the last
    [poll_result]. *)
Fixpoint poll_loop (sc : script) (fuel : nat) (sv : server) (bookmark : json)
    (k : nat) : M json :=
  match fuel with
  | O => out_of_fuel
  | S fuel' =>
      poll_response <- http (ReqPoll bookmark) (post_poll sv k bookmark) ;;
      raise_for_status poll_response ;;
      body <- lift (json_body poll_response) ;;
      poll_result <- subscript body "result" ;;
      (if is_digital_assets sc then print (PollingStatus poll_result) else ret tt) ;;
      done <- poll_done poll_result ;;
      if done then ret poll_result
      else emit (Sleep 2) ;; poll_loop sc fuel' sv bookmark (S k)
  end.

(** The [try] block, in the four steps its comments number. *)

(** 1. Init upload: the upload target and the file name. *)
Definition init_upload (sv : server) (hash_str : string) : M (json * json) :=
  init_response <- http (ReqInit hash_str) (post_init sv hash_str) ;;
  set_init_response init_response ;;
  raise_for_status init_response ;;
  upload_data <- lift (json_body init_response) ;;
  result <- subscript upload_data "result" ;;
  upload_url <- subscript result "upload_url" ;;
  result' <- subscript upload_data "result" ;;
  filename <- subscript result' "filename" ;;
  ret (upload_url, filename).

(** The [ETag] header of the upload response without its double quotes. *)
Definition etag_of (r2_response : response) : string :=
  Py.replace Py.dquote EmptyString (headers_get r2_response "ETag" EmptyString).

Definition etag_mismatch (hash_str r2_etag : string) : exn :=
  OtherException
    ("ETag mismatch during R2 upload. Expected " ++ hash_str ++ ", got " ++ r2_etag).

(** 2. Upload to R2, and the comparison of the tag echoed with the hash. *)
Definition upload_to_r2 (sv : server) (upload_url : json)
    (full_sql_command hash_str : string) : M unit :=
  r2_response <- http (ReqUpload upload_url full_sql_command)
                      (put_upload sv upload_url full_sql_command) ;;
  raise_for_status r2_response ;;
  let r2_etag := etag_of r2_response in
  if negb (String.eqb r2_etag hash_str)
  then raise (etag_mismatch hash_str r2_etag)
  else ret tt.

(** 3. Start ingestion. *)
Definition start_ingestion (sc : script) (sv : server) (hash_str : string)
    (filename : json) : M json :=
  ingest_response <- http (ReqIngest hash_str filename)
                          (post_ingest sv hash_str filename) ;;
  raise_for_status ingest_response ;;
  ingest_data <- lift (json_body ingest_response) ;;
  (if is_digital_assets sc then print (IngestionInitiated ingest_data) else ret tt) ;;
  ret ingest_data.

(** 4. Polling, and the message on the result the loop ended with. *)
Definition polling (sc : script) (fuel : nat) (sv : server) (table_name : string)
    (ingest_data : json) : M unit :=
  result <- subscript ingest_data "result" ;;
  bookmark <- subscript result "at_bookmark" ;;
  poll_result <- poll_loop sc fuel sv bookmark 0 ;;
  success <- subscript poll_result "success" ;;
  if truthy success then print (Completed table_name)
  else
    error <- subscript poll_result "error" ;;
    print (Failed table_name error).

Definition protocol (sc : script) (fuel : nat) (sv : server) (table_name : string)
    (full_sql_command hash_str : string) : M unit :=
  target <- init_upload sv hash_str ;;
  let (upload_url, filename) := target in
  upload_to_r2 sv upload_url full_sql_command hash_str ;;
  ingest_data <- start_ingestion sc sv hash_str filename ;;
  polling sc fuel sv table_name ingest_data.

(** The three [except] clauses, in their order. *)
Definition handlers (sc : script) (table_name : string) (e : exn) : M unit :=
  match e with
  | RequestException _ => print (NetworkError table_name e)
  | JSONDecodeError _ =>
      if is_digital_assets sc
      then raise (OtherException "NameError: name 'response' is not defined")
      else
        init_response <- read_init_response ;;
        print (DecodeError table_name (text init_response))
  | OtherException _ => print (UnexpectedError table_name e)
  end.

(** The lookup of the database id that opens the digital-assets driver;
    [true] when the driver goes on.  The [except] clause prints the error
    and then a hint; a database that is not there is reported in one
    line. *)
Definition wrangler_hint : string :=
  "Please ensure wrangler is installed and configured, and the database exists.".

Definition lookup_database (sv : server) (db_name : string) : M bool :=
  emit Lookup ;;
  match wrangler sv with
  | inl e => print (WranglerError e) ;; print (Banner wrangler_hint) ;; ret false
  | inr None => print (DatabaseNotFound db_name) ;; ret false
  | inr (Some _) => ret true
  end.

(** A [str] is modelled by its UTF-8 encoding, so that
    [full_sql_command.encode('utf-8')] is the identity: the statements of
    the model are the ones that encode.  A [str] with a lone surrogate,
    which [encode] refuses with a [UnicodeEncodeError] before the [try], is
    no value of the model. *)
Definition d1_bulk_import (sc : script) (fuel : nat) (sv : server)
    (table_name : string) (sql_statements : list string) : M value :=
  enter table_name sql_statements ;;
  match sql_statements with
  | [] => print (NoStatements table_name) ;; ret VNone
  | _ :: _ =>
      found <- (if is_digital_assets sc then lookup_database sv DB_NAME else ret true) ;;
      if found then
        let full_sql_command := payload sql_statements in
        let hash_str := MD5.hexdigest full_sql_command in
        print (Starting (List.length sql_statements) table_name) ;;
        try_except (protocol sc fuel sv table_name full_sql_command hash_str)
                   (handlers sc table_name) ;;
        ret VNone
      else ret VNone
  end.

(** ** The batcher *)

(** The next import job takes the next server of the world. *)
Definition next_server (world : nat -> server) : M server :=
  fun st => (Ret (world (jobs st)), State (trace st) (S (jobs st)) (init_response_var st)).

(** The accumulate-and-flush logic of every [ingest_*] loop, with the call
    of the driver replaced by recording the batch: the batches handed over
    inside the loop, and the batch left when the input ends. *)
Fixpoint batcher_loop (batch_size : Z) (statements : list string)
    (sql_statements_batch : list string) : list (list string) * list string :=
  match statements with
  | [] => ([], sql_statements_batch)
  | s :: rest =>
      let batch := sql_statements_batch ++ [s] in
      if (Z.of_nat (List.length batch) >=? batch_size)%Z
      then let (submitted, final) := batcher_loop batch_size rest [] in
           (batch :: submitted, final)
      else batcher_loop batch_size rest batch
  end.

(** A batch of exactly [batch_size] statements. *)
Definition full (batch_size : Z) (b : list string) : Prop :=
  Z.of_nat (List.length b) = batch_size.

(** The loop followed by [if sql_statements_batch: d1_bulk_import(...)]. *)
Definition batcher (batch_size : Z) (statements : list string) : list (list string) :=
  let (submitted, final) := batcher_loop batch_size statements [] in
  match final with
  | [] => submitted
  | _ :: _ => submitted ++ [final]
  end.

(** What [csv.DictReader] gives the [for] statement of a loop: the rows it
    yields, each as the outcome of the body of the loop on it (the exception
    raised while its statement is built, or the statement), and the way the
    iteration ends: [None] at the end of the file, or the exception
    ([UnicodeDecodeError], [csv.Error]) with which the reader stops.  That
    exception is raised by the [for] statement, outside the [try] of the
    body.  An [OSError] of [open] is the reader that stops before its first
    row. *)
Record csv_reader : Type := Reader {
  rows_of : list (exn + string);
  stops_with : option exn
}.

(** The loop of [ingest_poles_data] (and of the other loops of
    [ingest_montreal_opendata.py], which differ in the table only) over the
    rows [rows] of a reader that stops with [stop].  The body of the loop is
    inside [try ... except Exception], the batch is emptied only after the
    driver has returned; the exception of the reader leaves the loop. *)
Fixpoint poles_loop (fuel : nat) (world : nat -> server) (table_name : string)
    (batch_size : Z) (rows : list (exn + string)) (stop : option exn) (i : nat)
    (sql_statements_batch : list string) : M (list string) :=
  match rows with
  | [] =>
      match stop with
      | None => ret sql_statements_batch
      | Some e => raise e
      end
  | inl e :: rest =>
      print (RowError (S i) e) ;;
      poles_loop fuel world table_name batch_size rest stop (S i) sql_statements_batch
  | inr s :: rest =>
      let batch := sql_statements_batch ++ [s] in
      batch' <-
        (if (Z.of_nat (List.length batch) >=? batch_size)%Z then
           try_except
             (sv <- next_server world ;;
              d1_bulk_import MontrealOpendata fuel sv table_name batch ;;
              ret [])
             (fun e => print (RowError (S i) e) ;; ret batch)
         else ret batch) ;;
      poles_loop fuel world table_name batch_size rest stop (S i) batch'
  end.

Definition ingest_poles_data (fuel : nat) (world : nat -> server) (batch_size : Z)
    (reader : csv_reader) : M value :=
  print (Banner "Ingesting Poles Data") ;;
  batch <- poles_loop fuel world "poles" batch_size (rows_of reader) (stops_with reader)
             0 [] ;;
  (match batch with
   | [] => ret VNone
   | _ :: _ =>
       sv <- next_server world ;;
       d1_bulk_import MontrealOpendata fuel sv "poles" batch
   end) ;;
  print (Banner "Finished Ingesting Poles Data") ;;
  ret VNone.

(** The loop of [ingest_digital_assets].  A row raises, is skipped because
    its image could not be uploaded ([None]), or yields its statement; there
    is no [try] around the body. *)
Fixpoint assets_loop (fuel : nat) (world : nat -> server) (table_name : string)
    (batch_size : Z) (rows : list (exn + option string))
    (sql_statements_batch : list string) : M (list string) :=
  match rows with
  | [] => ret sql_statements_batch
  | inl e :: _ => raise e
  | inr None :: rest =>
      assets_loop fuel world table_name batch_size rest sql_statements_batch
  | inr (Some s) :: rest =>
      let batch := sql_statements_batch ++ [s] in
      batch' <-
        (if (Z.of_nat (List.length batch) >=? batch_size)%Z then
           sv <- next_server world ;;
           d1_bulk_import DigitalAssets fuel sv table_name batch ;;
           ret []
         else ret batch) ;;
      assets_loop fuel world table_name batch_size rest batch'
  end.

Definition ingest_digital_assets (fuel : nat) (world : nat -> server) (batch_size : Z)
    (rows : list (exn + option string)) : M value :=
  print (Banner "Starting Ingestion of Digital Assets") ;;
  batch <- assets_loop fuel world "sign_definitions" batch_size rows [] ;;
  (match batch with
   | [] => ret VNone
   | _ :: _ =>
       sv <- next_server world ;;
       d1_bulk_import DigitalAssets fuel sv "sign_definitions" batch
   end) ;;
  print (Banner "Finished Ingestion of Digital Assets") ;;
  ret VNone.

(** ** Reading a trace *)

Definition is_request (ev : event) : bool :=
  match ev with
  | Request _ => true
  | _ => false
  end.

(** The requests of a trace, in order. *)
Fixpoint requests (tr : list event) : list request :=
  match tr with
  | [] => []
  | Request rq :: tr' => rq :: requests tr'
  | _ :: tr' => requests tr'
  end.

(** The batches handed to the driver, in order. *)
Fixpoint invocations (tr : list event) : list (list string) :=
  match tr with
  | [] => []
  | Invoke _ stmts :: tr' => stmts :: invocations tr'
  | _ :: tr' => invocations tr'
  end.

(** The messages printed, in order. *)
Fixpoint printed (tr : list event) : list message :=
  match tr with
  | [] => []
  | Print m :: tr' => m :: printed tr'
  | _ :: tr' => printed tr'
  end.

Definition is_poll (rq : request) : bool :=
  match rq with
  | ReqPoll _ => true
  | _ => false
  end.

Definition is_ingest (rq : request) : bool :=
  match rq with
  | ReqIngest _ _ => true
  | _ => false
  end.

(** The outcome a run reports for its batch, read off the last message of
    the driver. *)
Inductive outcome : Type :=
| SUCCEEDED
| FAILED (cause : message).

Definition outcome_of (m : message) : option outcome :=
  match m with
  | Completed _ => Some SUCCEEDED
  | Failed _ _ | NetworkError _ _ | DecodeError _ _ | UnexpectedError _ _ => Some (FAILED m)
  | _ => None
  end.

(** The outcomes a trace reports, in order. *)
Fixpoint outcomes (tr : list event) : list outcome :=
  match tr with
  | [] => []
  | Print m :: tr' =>
      match outcome_of m with
      | Some o => o :: outcomes tr'
      | None => outcomes tr'
      end
  | _ :: tr' => outcomes tr'
  end.

(** ** Vocabulary for the statements below *)

(** Appending events to the trace of a state. *)
Definition log (evs : list event) (st : state) : state :=
  State (trace st ++ evs) (jobs st) (init_response_var st).

(** [st'] continues [st]: more events, none of them an entry into the driver,
    the same job counter, and [init_response] still bound if it was. *)
Definition extends (st st' : state) : Prop :=
  exists evs,
    trace st' = trace st ++ evs
    /\ invocations evs = []
    /\ jobs st' = jobs st
    /\ (init_response_var st <> None -> init_response_var st' <> None).

Definition steady {A : Type} (c : M A) : Prop :=
  forall st, extends st (snd (c st)).

(** [c] prints no outcome. *)
Definition quiet {A : Type} (c : M A) : Prop :=
  forall st, exists evs, trace (snd (c st)) = trace st ++ evs /\ outcomes evs = [].

(** [c] prints no outcome unless it returns. *)
Definition quiet_unless_returned {A : Type} (c : M A) : Prop :=
  forall st,
    (exists evs, trace (snd (c st)) = trace st ++ evs /\ outcomes evs = [])
    \/ (exists a, fst (c st) = Ret a).

(** [c] does not run out of fuel: its loops end. *)
Definition ends {A : Type} (c : M A) : Prop :=
  forall st, fst (c st) <> OutOfFuel.

(** A call answered by a response that passes [raise_for_status] and whose
    body decodes to [body]. *)
Definition answered (reply : string + response) (body : json) : Prop :=
  exists r, reply = inr r /\ http_error r = false /\ json_body r = inr body.

(** The init request is answered with an upload target and a file name. *)
Definition init_ok (sv : server) (hash_str : string) (upload_url filename : json) : Prop :=
  exists body result,
    answered (post_init sv hash_str) body
    /\ getitem body "result" = inr result
    /\ getitem result "upload_url" = inr upload_url
    /\ getitem result "filename" = inr filename.

(** The upload is answered, and [tag] is the [ETag] header of the answer
    without its double quotes (the empty string when there is no header). *)
Definition upload_tag (sv : server) (upload_url : json) (data tag : string) : Prop :=
  exists r,
    put_upload sv upload_url data = inr r
    /\ http_error r = false
    /\ etag_of r = tag.

(** The ingest request is answered with a bookmark. *)
Definition ingest_ok (sv : server) (hash_str : string) (filename bookmark : json) : Prop :=
  exists body result,
    answered (post_ingest sv hash_str filename) body
    /\ getitem body "result" = inr result
    /\ getitem result "at_bookmark" = inr bookmark.

(** Poll number [k] is answered with the result object [poll_result]. *)
Definition poll_answer (sv : server) (k : nat) (bookmark poll_result : json) : Prop :=
  exists body,
    answered (post_poll sv k bookmark) body
    /\ getitem body "result" = inr poll_result.

(** The three kinds of result object the loop condition tells apart:
    [success] is true; [success] is false and [error] is the sentinel;
    [success] is false and [error] is anything else. *)
Definition succeeded (poll_result : json) : Prop :=
  exists success, getitem poll_result "success" = inr success /\ truthy success = true.

Definition reaped (poll_result : json) : Prop :=
  exists success,
    getitem poll_result "success" = inr success
    /\ truthy success = false
    /\ getitem poll_result "error" = inr (JStr not_importing).

Definition pending (poll_result : json) : Prop :=
  exists success error,
    getitem poll_result "success" = inr success
    /\ truthy success = false
    /\ getitem poll_result "error" = inr error
    /\ json_eq_str error not_importing = false.

(** The loop goes round again after poll number [k]: the poll is answered,
    with a status that is no error, by a body that decodes to a result
    object whose [success] is false and whose [error] is there and is not
    the sentinel.  Any other poll ends the loop, by its condition or by an
    exception. *)
Definition poll_pending (sv : server) (k : nat) (bookmark : json) : bool :=
  match post_poll sv k bookmark with
  | inl _ => false
  | inr r =>
      if http_error r then false
      else
        match json_body r with
        | inl _ => false
        | inr body =>
            match getitem body "result" with
            | inl _ => false
            | inr poll_result =>
                match getitem poll_result "success" with
                | inl _ => false
                | inr success =>
                    if truthy success then false
                    else
                      match getitem poll_result "error" with
                      | inl _ => false
                      | inr error => negb (json_eq_str error not_importing)
                      end
                end
            end
        end
  end.

(** Among the first [fuel] polls of a job on [sv], one is not pending. *)
Definition settles (fuel : nat) (sv : server) : Prop :=
  forall bookmark, exists k, k < fuel /\ poll_pending sv k bookmark = false.

(** An answer whose body, if it does not decode, raises the decode error of
    the requests library and not a bare [json.JSONDecodeError]. *)
Definition decodable (reply : string + response) : Prop :=
  forall r msg, reply = inr r -> json_body r <> inl (JSONDecodeError msg).

Definition decodes (sv : server) : Prop :=
  (forall hash_str, decodable (post_init sv hash_str))
  /\ (forall hash_str filename, decodable (post_ingest sv hash_str filename))
  /\ (forall k bookmark, decodable (post_poll sv k bookmark)).

(** An exception that is no bare [json.JSONDecodeError]. *)
Definition no_decode_error (e : exn) : Prop := forall msg, e <> JSONDecodeError msg.

(** The exceptions [c] raises satisfy [P]. *)
Definition raises_only {A : Type} (P : exn -> Prop) (c : M A) : Prop :=
  forall st e s1, c st = (Raise e, s1) -> P e.

(** [batches] are [statements] cut into batches, as the Batcher is to cut
    them: ceil(N/B) batches for [N] statements, none empty and none longer
    than [B], all but the last of them full, which put end to end in their
    order are the statements. *)
Definition batched (batch_size : Z) (statements : list string)
    (batches : list (list string)) : Prop :=
  let N := Z.of_nat (List.length statements) in
  (Z.of_nat (List.length batches) = (N + batch_size - 1) / batch_size)%Z
  /\ Forall (fun b => (0 < Z.of_nat (List.length b) <= batch_size)%Z) batches
  /\ Forall (full batch_size) (removelast batches)
  /\ List.concat batches = statements.

(** The digital-assets driver finds its database. *)
Definition database_found (sc : script) (sv : server) : Prop :=
  is_digital_assets sc = true -> exists id, wrangler sv = inr (Some id).

(** The events of a driver call up to the [try] block. *)
Definition opening (sc : script) (table_name : string) (sql_statements : list string)
  : list event :=
  Invoke table_name sql_statements
  :: (if is_digital_assets sc then [Lookup] else [])
  ++ [Print (Starting (List.length sql_statements) table_name)].

(** The state in which the [try] block of a driver call starts. *)
Definition job_start (sc : script) (table_name : string) (sql_statements : list string)
    (st : state) : state :=
  State (trace st ++ opening sc table_name sql_statements) (jobs st) None.

(** The events of one poll that is answered with [poll_result]. *)
Definition poll_events (sc : script) (bookmark poll_result : json) : list event :=
  Request (ReqPoll bookmark)
  :: (if is_digital_assets sc then [Print (PollingStatus poll_result)] else []).

(** The message of the [except] clause that catches [e]. *)
Definition failure_message (table_name : string) (e : exn) (init_response : option response)
  : message :=
  match e with
  | RequestException _ => NetworkError table_name e
  | JSONDecodeError _ =>
      DecodeError table_name
        (match init_response with Some r => text r | None => EmptyString end)
  | OtherException _ => UnexpectedError table_name e
  end.

(** The statements a run adds to its batch: the rows that did not raise. *)
Fixpoint added (rows : list (exn + string)) : list string :=
  match rows with
  | [] => []
  | inl _ :: rest => added rest
  | inr s :: rest => s :: added rest
  end.

(** What a loop over a reader ends with: the batch it is left with, or the
    exception of the reader. *)
Definition loop_end (stop : option exn) (final : list string) : res (list string) :=
  match stop with
  | None => Ret final
  | Some e => Raise e
  end.

(** For the digital-assets loop: the rows that were not skipped. *)
Fixpoint added_assets (rows : list (exn + option string)) : list string :=
  match rows with
  | [] => []
  | inr (Some s) :: rest => s :: added_assets rest
  | _ :: rest => added_assets rest
  end.

Fixpoint count_sleeps (tr : list event) : nat :=
  match tr with
  | [] => 0
  | Sleep _ :: tr' => S (count_sleeps tr')
  | _ :: tr' => count_sleeps tr'
  end.

(** ** Servers for the examples *)

Definition json_response (body : json) : response :=
  Response 200 EmptyString (inr body) (fun _ => None).

Definition init_response_example : response :=
  json_response
    (JObj [("result", JObj [("upload_url", JStr "https://r2.example/upload");
                            ("filename", JStr "import.sql")]);
           ("success", JBool true)]).

(** The storage answers an upload with the MD5 of what it received, between
    double quotes, as its [ETag]. *)
Definition echo_response (received : string) : response :=
  Response 200 EmptyString (inl (JSONDecodeError "empty body"))
    (fun key =>
       if String.eqb key "ETag"
       then Some (Py.dquote ++ MD5.hexdigest received ++ Py.dquote)%string
       else None).

Definition ingest_response_example : response :=
  json_response (JObj [("result", JObj [("at_bookmark", JStr "bookmark-0")])]).

Definition poll_success : response :=
  json_response (JObj [("result", JObj [("success", JBool true)])]).

Definition poll_error (error : string) : response :=
  json_response
    (JObj [("result", JObj [("success", JBool false); ("error", JStr error)])]).

(** Imports in [n] polls: [n] times in progress, then success. *)
Definition healthy (n : nat) : server :=
  Server (fun _ => inr init_response_example)
         (fun _ data => inr (echo_response data))
         (fun _ _ => inr ingest_response_example)
         (fun k _ => inr (if (k <? n)%nat then poll_error "Import in progress" else poll_success))
         (inr (Some "0000-0000")).

(** Answers the first poll with the sentinel. *)
Definition reaping : server :=
  Server (fun _ => inr init_response_example)
         (fun _ data => inr (echo_response data))
         (fun _ _ => inr ingest_response_example)
         (fun _ _ => inr (poll_error not_importing))
         (inr (Some "0000-0000")).

(** Never gets out of progress. *)
Definition stuck : server :=
  Server (fun _ => inr init_response_example)
         (fun _ data => inr (echo_response data))
         (fun _ _ => inr ingest_response_example)
         (fun _ _ => inr (poll_error "Import in progress"))
         (inr (Some "0000-0000")).

(** Answers every poll with the status 500. *)
Definition failing : server :=
  Server (fun _ => inr init_response_example)
         (fun _ data => inr (echo_response data))
         (fun _ _ => inr ingest_response_example)
         (fun _ _ => inr (Response 500 "Internal Server Error"
                                   (inr (JObj [("result", JObj [("success", JBool false);
                                                                ("error", JStr "Internal error")])]))
                                   (fun _ => None)))
         (inr (Some "0000-0000")).

(** Answers every poll with a result object that has no [error]. *)
Definition terse : server :=
  Server (fun _ => inr init_response_example)
         (fun _ data => inr (echo_response data))
         (fun _ _ => inr ingest_response_example)
         (fun _ _ => inr (json_response (JObj [("result", JObj [("success", JBool false)])])))
         (inr (Some "0000-0000")).

(** Refuses the connection of the init request. *)
Definition refusing : server :=
  Server (fun _ => inl "Connection refused")
         (fun _ data => inr (echo_response data))
         (fun _ _ => inr ingest_response_example)
         (fun _ _ => inr poll_success)
         (inr (Some "0000-0000")).

(** Stores something else than what was sent. *)
Definition corrupting : server :=
  Server (fun _ => inr init_response_example)
         (fun _ data => inr (echo_response (data ++ " ")%string))
         (fun _ _ => inr ingest_response_example)
         (fun _ _ => inr poll_success)
         (inr (Some "0000-0000")).

(** Answers the ingest request with a body that is no JSON, under a requests
    library whose decode error is no [RequestException]. *)
Definition garbling : server :=
  Server (fun _ => inr init_response_example)
         (fun _ data => inr (echo_response data))
         (fun _ _ => inr (Response 200 "<html>" (inl (JSONDecodeError "Expecting value"))
                                   (fun _ => None)))
         (fun _ _ => inr poll_success)
         (inr (Some "0000-0000")).

(** ** Reading the text of a statement *)

(** [old in s], for a non-empty [old]. *)
Fixpoint contains (old s : string) : bool :=
  match s with
  | EmptyString => false
  | String _ s' => prefix old s || contains old s'
  end.

(** [s[n:]]. *)
Fixpoint drop (n : nat) (s : string) : string :=
  match n, s with
  | S n', String _ s' => drop n' s'
  | _, _ => s
  end.

(** After the opening quote of a literal: the characters up to the closing
    quote, two quotes in a row standing for one, and the text that follows
    the closing quote. *)
Fixpoint read_literal (s : string) : option (string * string) :=
  match s with
  | EmptyString => None
  | String c s' =>
      if Ascii.eqb c Py.quote_char then
        match s' with
        | String c' s'' =>
            if Ascii.eqb c' Py.quote_char
            then option_map (fun br => (String Py.quote_char (fst br), snd br))
                            (read_literal s'')
            else Some (EmptyString, s')
        | EmptyString => Some (EmptyString, EmptyString)
        end
      else option_map (fun br => (String c (fst br), snd br)) (read_literal s')
  end.

(** What ends a literal: the end of the text, or a character that is no
    quote. *)
Definition closes (rest : string) : Prop :=
  match rest with
  | EmptyString => True
  | String c _ => c <> Py.quote_char
  end.

(** One value at the head of [s], a quoted literal or the word [NULL], and
    the text after it. *)
Definition read_value (s : string) : option (option string * string) :=
  match s with
  | EmptyString => None
  | String c s' =>
      if Ascii.eqb c Py.quote_char
      then option_map (fun br => (Some (fst br), snd br)) (read_literal s')
      else if prefix "NULL" s then Some (None, drop 4 s) else None
  end.

(** The values of a list separated by a comma and a space. *)
Fixpoint read_values_from (fuel : nat) (s : string) : option (list (option string)) :=
  match fuel with
  | O => None
  | S fuel' =>
      match read_value s with
      | None => None
      | Some (v, EmptyString) => Some [v]
      | Some (v, rest) =>
          if prefix ", " rest
          then option_map (cons v) (read_values_from fuel' (drop 2 rest))
          else None
      end
  end.

Definition read_values (s : string) : option (list (option string)) :=
  match s with
  | EmptyString => Some []
  | _ => read_values_from (String.length s) s
  end.

(** What a value leaves in its column: nothing for [None], the text of
    [str(v)] otherwise. *)
Definition stored (float_repr : float -> string) (v : value) : option string :=
  if is_none v then None else Some (py_str float_repr v).

(** ** Reading the events of a step *)

(** Whatever its outcome, [c] only adds events to the trace, and the events
    it adds satisfy [P]. *)
Definition adds {A : Type} (P : list event -> Prop) (c : M A) : Prop :=
  forall st, exists evs, trace (snd (c st)) = trace st ++ evs /\ P evs.

(** Events among which there is no request. *)
Definition silent (evs : list event) : Prop := requests evs = [].

(** Events whose requests are polls of the bookmark [b]. *)
Definition polls_only (b : json) (evs : list event) : Prop :=
  exists m, requests evs = List.repeat (ReqPoll b) m.

(** When [c] returns, it has printed one outcome. *)
Definition reports {A : Type} (c : M A) : Prop :=
  forall st a st',
    c st = (Ret a, st') ->
    exists evs o, trace st' = trace st ++ evs /\ outcomes evs = [o].

(** The requests of one import job, in the order of the protocol. *)
Definition job_requests (hash_str data : string) (upload_url filename bookmark : json)
    (polls : nat) : list request :=
  [ReqInit hash_str; ReqUpload upload_url data; ReqIngest hash_str filename]
  ++ List.repeat (ReqPoll bookmark) polls.

(** Events whose requests are those of one job of [sv] on the payload
    [data] with the checksum [hash_str], as far as the job got: none; the
    init request; then the upload of the payload to the target that the
    init answer names; then, once the upload has echoed the checksum, the
    ingest request with the file name of the init answer; then polls of the
    bookmark of the ingest answer. *)
Definition in_protocol_order (sv : server) (hash_str data : string) (evs : list event)
  : Prop :=
  requests evs = []
  \/ requests evs = [ReqInit hash_str]
  \/ exists upload_url filename,
       init_ok sv hash_str upload_url filename
       /\ (requests evs = [ReqInit hash_str; ReqUpload upload_url data]
           \/ (upload_tag sv upload_url data hash_str
               /\ (requests evs
                   = [ReqInit hash_str; ReqUpload upload_url data;
                      ReqIngest hash_str filename]
                   \/ exists bookmark polls,
                        ingest_ok sv hash_str filename bookmark
                        /\ requests evs
                           = job_requests hash_str data upload_url filename bookmark
                                          polls))).

(** The digits of [hexdigest]. *)
Definition is_hex_digit (c : ascii) : bool :=
  existsb (Ascii.eqb c) (list_ascii_of_string "0123456789abcdef").

(** ** The other loops of [ingest_montreal_opendata.py] *)

(** The batches handed to the driver with their tables, in order. *)
Fixpoint invoked (tr : list event) : list (string * list string) :=
  match tr with
  | [] => []
  | Invoke table_name stmts :: tr' => (table_name, stmts) :: invoked tr'
  | _ :: tr' => invoked tr'
  end.

(** [if batch: d1_bulk_import(table_name, batch)], after a loop. *)
Definition flush (fuel : nat) (world : nat -> server) (table_name : string)
    (batch : list string) : M unit :=
  match batch with
  | [] => ret tt
  | _ :: _ =>
      sv <- next_server world ;;
      d1_bulk_import MontrealOpendata fuel sv table_name batch ;;
      ret tt
  end.

(** A CSV file: missing, or what its reader gives. *)
Definition csv_file : Type := option csv_reader.

(** A file that is missing, or is read to its end. *)
Definition read_to_end (file : csv_file) : Prop :=
  match file with
  | None => True
  | Some reader => stops_with reader = None
  end.

(** [for csv_path in csv_paths:] of [ingest_montreal_sign_instances_data].
    A missing file is skipped; the batch is carried from one file to the
    next, and the rows of each file are numbered from 1. *)
Fixpoint files_loop (fuel : nat) (world : nat -> server) (table_name : string)
    (batch_size : Z) (files : list (string * csv_file))
    (sql_statements_batch : list string) : M (list string) :=
  match files with
  | [] => ret sql_statements_batch
  | (name, None) :: rest =>
      print (Banner ("ERROR: " ++ name ++ " not found. Skipping.")) ;;
      files_loop fuel world table_name batch_size rest sql_statements_batch
  | (name, Some reader) :: rest =>
      print (Banner ("Processing " ++ name ++ "...")) ;;
      batch <- poles_loop fuel world table_name batch_size (rows_of reader)
                 (stops_with reader) 0 sql_statements_batch ;;
      files_loop fuel world table_name batch_size rest batch
  end.

Definition ingest_montreal_sign_instances_data (fuel : nat) (world : nat -> server)
    (batch_size : Z) (parking other : csv_file) : M value :=
  print (Banner "Ingesting Montreal Sign Instances Data") ;;
  batch <- files_loop fuel world "montreal_open_data_sign_instances" batch_size
             [("signalisation_stationnement.csv", parking);
              ("signalisation_excluant_stationnement.csv", other)] [] ;;
  flush fuel world "montreal_open_data_sign_instances" batch ;;
  print (Banner "Finished Ingesting Montreal Sign Instances Data") ;;
  ret VNone.

(** [ingest_construction_data].  The file of the impacts is looked for
    twice: [impacts_found] is what the check at the top sees, [impacts] what
    the second check finds. *)
Definition ingest_construction_data (fuel : nat) (world : nat -> server)
    (batch_size : Z) (zones : csv_file) (impacts_found : bool) (impacts : csv_file)
  : M value :=
  print (Banner "Ingesting Construction Data") ;;
  match zones with
  | None =>
      print (Banner "ERROR: entraves-travaux-en-cours.csv not found. Skipping construction zones ingestion.") ;;
      ret VNone
  | Some zone_reader =>
      (if impacts_found then ret tt
       else print (Banner "ERROR: impacts-entraves-travaux-en-cours.csv not found. Skipping construction impacts ingestion.")) ;;
      print (Banner "Processing entraves-travaux-en-cours.csv...") ;;
      sql_statements_zones <-
        poles_loop fuel world "construction_zones" batch_size (rows_of zone_reader)
          (stops_with zone_reader) 0 [] ;;
      flush fuel world "construction_zones" sql_statements_zones ;;
      print (Banner "Finished Ingesting Construction Zones Data") ;;
      match impacts with
      | Some impact_reader =>
          print (Banner "Processing impacts-entraves-travaux-en-cours.csv...") ;;
          sql_statements_impacts <-
            poles_loop fuel world "construction_impact_details" batch_size
              (rows_of impact_reader) (stops_with impact_reader) 0 [] ;;
          flush fuel world "construction_impact_details" sql_statements_impacts
      | None => ret tt
      end ;;
      print (Banner "Finished Ingesting Construction Impact Details Data") ;;
      ret VNone
  end.

(** [ingest_taxi_stands_data] is [ingest_poles_data] on its own file and
    table. *)
Definition ingest_taxi_stands_data (fuel : nat) (world : nat -> server) (batch_size : Z)
    (stands : csv_file) : M value :=
  print (Banner "Ingesting Taxi Stands Data") ;;
  match stands with
  | None =>
      print (Banner "ERROR: postestaxi.csv not found. Skipping taxi stands ingestion.") ;;
      ret VNone
  | Some reader =>
      batch <- poles_loop fuel world "taxi_stands" batch_size (rows_of reader)
                 (stops_with reader) 0 [] ;;
      flush fuel world "taxi_stands" batch ;;
      print (Banner "Finished Ingesting Taxi Stands Data") ;;
      ret VNone
  end.

(** The statements of a file, in order: none for a missing file. *)
Definition statements_of (file : csv_file) : list string :=
  match file with
  | None => []
  | Some reader => added (rows_of reader)
  end.

(** The batches of a table. *)
Definition batches_of (table_name : string) (batch_size : Z) (statements : list string)
  : list (string * list string) :=
  List.map (pair table_name) (batcher batch_size statements).

(** Run from [st], [c] returns a value that satisfies [result], having
    handed [batches] to the driver. *)
Definition hands_over {A : Type} (c : M A) (st : state)
    (batches : list (string * list string)) (result : A -> Prop) : Prop :=
  exists a,
    fst (c st) = Ret a
    /\ result a
    /\ invoked (trace (snd (c st))) = invoked (trace st) ++ batches.

(** ** Looking the database up *)

(** [next((db for db in dbs if db['name'] == db_name), None)] over the
    elements of a list: the first element whose name is [db_name]; an
    element without a name, or that is no dict, raises when the search
    reaches it. *)
Fixpoint first_named (db_name : string) (dbs : list json) : exn + option json :=
  match dbs with
  | [] => inr None
  | db :: rest =>
      match getitem db "name" with
      | inl e => inl e
      | inr name =>
          if json_eq_str name db_name then inr (Some db) else first_named db_name rest
      end
  end.

(** The same over whatever [json.loads] returned.  A list is searched.  A
    dict is iterated by its keys and a string by its characters: they are
    strings, and the subscript ['name'] of the first one raises.  The other
    values cannot be iterated. *)
Definition search (db_name : string) (dbs : json) : exn + option json :=
  match dbs with
  | JList l => first_named db_name l
  | JObj items => first_named db_name (List.map (fun kv => JStr (fst kv)) items)
  | JStr s =>
      if String.eqb s EmptyString then inr None
      else inl (OtherException "TypeError: string indices must be integers")
  | _ => inl (OtherException "TypeError: object is not iterable")
  end.

(** [get_d1_database_id] of [ingest_montreal_opendata.py] and
    [ingest_real_sign_photos.py].  [wrangler_output] is what [json.loads]
    makes of the output of [wrangler d1 list --json]; the function returns
    the [uuid] of the entry found, and [None], here [JNull], otherwise. *)
Definition get_d1_database_id (wrangler_output : exn + json) (db_name : string) : M json :=
  try_except
    (dbs <- lift wrangler_output ;;
     db_info <- lift (search db_name dbs) ;;
     match db_info with
     | Some db =>
         if truthy db then subscript db "uuid"
         else print (DatabaseNotFound db_name) ;; ret JNull
     | None => print (DatabaseNotFound db_name) ;; ret JNull
     end)
    (fun e =>
       print (WranglerError e) ;;
       print (Banner "Please ensure wrangler is installed and configured, and the database exists.") ;;
       ret JNull).

(** [DATABASE_ID = get_d1_database_id(DB_NAME)] followed by
    [if not DATABASE_ID: exit(1)], at the load of the script: the id the
    script goes on with, or [None] when it exits. *)
Definition database_id_at_load (wrangler_output : exn + json) : M (option json) :=
  database_id <- get_d1_database_id wrangler_output DB_NAME ;;
  if truthy database_id then ret (Some database_id) else ret None.

(** An entry of the list that the search passes over: a dict with a name
    other than [db_name]. *)
Definition passed_over (db_name : string) (db : json) : Prop :=
  exists name, getitem db "name" = inr name /\ json_eq_str name db_name = false.

(** ** Uploading an image *)

Inductive upload_message : Type :=
| ImageFileNotFound
| UploadingImage
| ImageUploaded (url : json)
| ImagesApiError (errors : json)
| ImageNetworkError (e : exn)
| ImageDecodeError (response_text : string).

(** What a call of [upload_image_to_cf_images] does: whether it sent the
    image, what it printed, and what it returned ([None] is [JNull]) or
    raised. *)
Record upload_run : Type := UploadRun {
  posted : bool;
  said : list upload_message;
  returned : exn + json
}.

(** The number of bytes of the UTF-8 encoding of a character, from its first
    byte. *)
Definition utf8_width (c : ascii) : nat :=
  let n := nat_of_ascii c in
  if (n <? 128)%nat then 1
  else if (n <? 224)%nat then 2
  else if (n <? 240)%nat then 3
  else 4.

(** [j[0]]. *)
Definition getitem0 (j : json) : exn + json :=
  match j with
  | JList (x :: _) => inr x
  | JList [] => inl (OtherException "IndexError: list index out of range")
  | JStr (String c s) => inr (JStr (substring 0 (utf8_width c) (String c s)))
  | JStr EmptyString => inl (OtherException "IndexError: string index out of range")
  | JObj _ => inl (OtherException "KeyError: 0")
  | _ => inl (OtherException "TypeError: object is not subscriptable")
  end.

(** [result["result"]["variants"][0]]. *)
Definition first_variant (result : json) : exn + json :=
  match getitem result "result" with
  | inl e => inl e
  | inr inner =>
      match getitem inner "variants" with
      | inl e => inl e
      | inr variants => getitem0 variants
      end
  end.

(** The body of the [try] of [upload_image_to_cf_images], once the request
    has been answered by [response]: what is printed, and the value returned
    or the exception raised. *)
Definition upload_answered (sc : script) (response : response)
  : list upload_message * (exn + json) :=
  if http_error response
  then ([], inl (RequestException ("HTTPError: " ++ Py.str_int (status_code response))))
  else
    match json_body response with
    | inl e => ([], inl e)
    | inr result =>
        match getitem result "success" with
        | inl e => ([], inl e)
        | inr success =>
            if truthy success then
              if is_digital_assets sc then
                match first_variant result with
                | inl e => ([], inl e)
                | inr url => ([ImageUploaded url], first_variant result)
                end
              else ([], first_variant result)
            else
              match getitem result "errors" with
              | inl e => ([], inl e)
              | inr errors => ([ImagesApiError errors], inr JNull)
              end
        end
    end.

(** [upload_image_to_cf_images].  [image] is [None] when the path does not
    exist, and otherwise the outcome of opening it; [reply] is the answer to
    the request.  The two [except] clauses catch a [RequestException] and a
    [json.JSONDecodeError]; any other exception leaves the function. *)
Definition upload_image_to_cf_images (sc : script) (image : option (exn + unit))
    (reply : string + response) : upload_run :=
  match image with
  | None => UploadRun false [ImageFileNotFound] (inr JNull)
  | Some (inl e) => UploadRun false [UploadingImage] (inl e)
  | Some (inr _) =>
      match reply with
      | inl msg =>
          UploadRun true [UploadingImage; ImageNetworkError (RequestException msg)]
                    (inr JNull)
      | inr response =>
          match upload_answered sc response with
          | (out, inl (RequestException msg)) =>
              UploadRun true
                (UploadingImage :: out ++ [ImageNetworkError (RequestException msg)])
                (inr JNull)
          | (out, inl (JSONDecodeError _)) =>
              UploadRun true (UploadingImage :: out ++ [ImageDecodeError (text response)])
                        (inr JNull)
          | (out, r) => UploadRun true (UploadingImage :: out) r
          end
      end
  end.

(** Poll number [k] is not answered, or is answered with an error status:
    [e] is the [RequestException] that the request, or [raise_for_status],
    raises. *)
Definition poll_refused (sv : server) (k : nat) (bookmark : json) (e : exn) : Prop :=
  (exists msg, post_poll sv k bookmark = inl msg /\ e = RequestException msg)
  \/ (exists r,
         post_poll sv k bookmark = inr r
         /\ http_error r = true
         /\ e = RequestException ("HTTPError: " ++ Py.str_int (status_code r))).

(** ** The run of [ingest_montreal_opendata.py] *)

(** [ingest_poles_data] with the check of its file in front. *)
Definition ingest_poles_file (fuel : nat) (world : nat -> server) (batch_size : Z)
    (poles : csv_file) : M value :=
  match poles with
  | None =>
      print (Banner "Ingesting Poles Data") ;;
      print (Banner "ERROR: poteaux-de-signalisation.csv not found. Skipping poles ingestion.") ;;
      ret VNone
  | Some reader => ingest_poles_data fuel world batch_size reader
  end.

(** The files of the open-data directory, as the functions find them. *)
Record open_data : Type := OpenData {
  poles_csv : csv_file;
  parking_csv : csv_file;
  other_signs_csv : csv_file;
  zones_csv : csv_file;
  impacts_csv_found : bool;
  impacts_csv : csv_file;
  taxi_csv : csv_file
}.

(** The block under [if __name__ == '__main__':]; the directory of the
    files is taken to exist or to be created without an error. *)
Definition montreal_main (fuel : nat) (world : nat -> server) (batch_size : Z)
    (files : open_data) : M unit :=
  print (Banner "Starting Montreal Open Data Ingestion") ;;
  print (Banner "Please ensure Montreal Open Data CSVs are in the dataset directory") ;;
  ingest_poles_file fuel world batch_size (poles_csv files) ;;
  ingest_montreal_sign_instances_data fuel world batch_size
    (parking_csv files) (other_signs_csv files) ;;
  ingest_construction_data fuel world batch_size
    (zones_csv files) (impacts_csv_found files) (impacts_csv files) ;;
  ingest_taxi_stands_data fuel world batch_size (taxi_csv files) ;;
  print (Banner "Montreal Open Data Ingestion Complete").

(** [not v] for the value of [os.getenv]: unset, or empty. *)
Definition env_set (v : option string) : bool :=
  match v with
  | Some s => negb (String.eqb s EmptyString)
  | None => false
  end.

(** The script from its load: the check of the two credentials, the lookup
    of the database, then the main block.  [false] is [exit(1)]. *)
Definition montreal_script (fuel : nat) (world : nat -> server) (batch_size : Z)
    (account_id api_token : option string) (wrangler_output : exn + json)
    (files : open_data) : M bool :=
  if negb (env_set account_id) || negb (env_set api_token) then
    print (Banner "ERROR: CLOUDFLARE_ACCOUNT_ID and CLOUDFLARE_API_TOKEN environment variables must be set.") ;;
    ret false
  else
    database_id <- database_id_at_load wrangler_output ;;
    match database_id with
    | None => ret false
    | Some _ => montreal_main fuel world batch_size files ;; ret true
    end.

(** Every file that is there is read to its end. *)
Definition all_read_to_end (files : open_data) : Prop :=
  read_to_end (poles_csv files)
  /\ read_to_end (parking_csv files)
  /\ read_to_end (other_signs_csv files)
  /\ read_to_end (zones_csv files)
  /\ read_to_end (impacts_csv files)
  /\ read_to_end (taxi_csv files).

(** The batches of a whole run, table after table. *)
Definition open_data_batches (batch_size : Z) (files : open_data)
  : list (string * list string) :=
  batches_of "poles" batch_size (statements_of (poles_csv files))
  ++ batches_of "montreal_open_data_sign_instances" batch_size
       (statements_of (parking_csv files) ++ statements_of (other_signs_csv files))
  ++ match zones_csv files with
     | None => []
     | Some _ =>
         batches_of "construction_zones" batch_size (statements_of (zones_csv files))
         ++ batches_of "construction_impact_details" batch_size
              (statements_of (impacts_csv files))
     end
  ++ batches_of "taxi_stands" batch_size (statements_of (taxi_csv files)).

(** ** Rows that raise *)

(** The rows reported as failed, with the number printed for each. *)
Fixpoint row_errors (tr : list event) : list (nat * exn) :=
  match tr with
  | [] => []
  | Print (RowError row_number e) :: tr' => (row_number, e) :: row_errors tr'
  | _ :: tr' => row_errors tr'
  end.

(** The rows of a file that raise, each with its position counted from
    [first]. *)
Fixpoint raising_rows (first : nat) (rows : list (exn + string)) : list (nat * exn) :=
  match rows with
  | [] => []
  | inl e :: rest => (first, e) :: raising_rows (S first) rest
  | inr _ :: rest => raising_rows (S first) rest
  end.

(** Events among which no row is reported. *)
Definition no_row_error (evs : list event) : Prop := row_errors evs = [].

(** The rows of a file: none for a missing file. *)
Definition rows_in (file : csv_file) : list (exn + string) :=
  match file with
  | None => []
  | Some reader => rows_of reader
  end.

(** Run from [st], [c] returns having reported the rows [errs], and no
    other. *)
Definition names_rows {A : Type} (c : M A) (st : state) (errs : list (nat * exn)) : Prop :=
  exists a,
    fst (c st) = Ret a
    /\ row_errors (trace (snd (c st))) = (row_errors (trace st) ++ errs)%list.

Example md5_empty : MD5.hexdigest EmptyString = "d41d8cd98f00b204e9800998ecf8427e".
Proof. vm_compute. reflexivity. Qed.

Example md5_abc : MD5.hexdigest "abc" = "900150983cd24fb0d6963f7d28e17f72".
Proof. vm_compute. reflexivity. Qed.

Example md5_message_digest :
  MD5.hexdigest "message digest" = "f96b697d7cb7938d525a2f31aaf161d0".
Proof. vm_compute. reflexivity. Qed.

Example md5_statement :
  MD5.hexdigest "INSERT INTO t (a) VALUES ('1');" = "ff40070722f5cb3b805b77886c238a7f".
Proof. vm_compute. reflexivity. Qed.

Example md5_two_blocks :
  MD5.hexdigest
    "xxxxxxxxxxxxxxxxxxxxxxxxxxxxxxxxxxxxxxxxxxxxxxxxxxxxxxxxxxxxxxxx"
  = "c1bb4f81d892b2d57947682aeb252456".
Proof. vm_compute. reflexivity. Qed.

Example md5_pad_boundary :
  MD5.hexdigest "xxxxxxxxxxxxxxxxxxxxxxxxxxxxxxxxxxxxxxxxxxxxxxxxxxxxxxxx"
  = "668a72d5ba17f08e62dabcafad6db14b".
Proof. vm_compute. reflexivity. Qed.

Example str_int_5 : Py.str_int 5 = "5".
Proof. reflexivity. Qed.

Example str_int_neg : Py.str_int (-42) = "-42".
Proof. reflexivity. Qed.

Example replace_quotes : Py.replace "'" "''" "l'ile d'Orleans" = "l''ile d''Orleans".
Proof. reflexivity. Qed.

Example replace_word :
  Py.replace "INSERT INTO" "INSERT OR REPLACE INTO" "INSERT INTO poles (a) VALUES ('1')"
  = "INSERT OR REPLACE INTO poles (a) VALUES ('1')".
Proof. reflexivity. Qed.

Example replace_overlap : Py.replace "aa" "b" "aaaaa" = "bba".
Proof. reflexivity. Qed.

Example make_sql_insert_example :
  make_sql_insert (fun _ => "45.5") "poles"
    [("pole_id", VStr "P'1"); ("latitude", VFloat 45.5%float);
     ("x_coord", VNone); ("version", VInt 3); ("is_on_street", VBool false)]
  = "INSERT INTO poles (pole_id, latitude, x_coord, version, is_on_street) VALUES ('P''1', '45.5', NULL, '3', 'False')".
Proof. reflexivity. Qed.

Example parse_literal_example : parse_literal "'P''1'" = Some "P'1".
Proof. reflexivity. Qed.

Example parse_literal_stray_quote : parse_literal "'P'1'" = None.
Proof. reflexivity. Qed.


(** * Properties *)

Open Scope string_scope.

(** ** Strings *)

Lemma prefix_empty (s : string) : prefix EmptyString s = true.
Proof. destruct s; reflexivity. Qed.

Lemma append_empty_r (s : string) : s ++ EmptyString = s.
Proof. induction s as [|c s IH]; simpl; [reflexivity | now rewrite IH]. Qed.

Lemma append_assoc (s1 s2 s3 : string) : (s1 ++ s2) ++ s3 = s1 ++ (s2 ++ s3).
Proof. induction s1 as [|c s1 IH]; simpl; [reflexivity | now rewrite IH]. Qed.

Lemma length_append (s1 s2 : string) :
  String.length (s1 ++ s2) = String.length s1 + String.length s2.
Proof. induction s1 as [|c s1 IH]; simpl; [reflexivity | now rewrite IH]. Qed.

(** Replacing a single character: every quote is doubled, every other
    character is kept. *)
Lemma replace_quote_cons (c : ascii) (s : string) :
  Py.replace "'" "''" (String c s)
  = if Ascii.eqb c Py.quote_char
    then String Py.quote_char (String Py.quote_char (Py.replace "'" "''" s))
    else String c (Py.replace "'" "''" s).
Proof.
  unfold Py.replace. cbn [Py.replace_from prefix].
  destruct (ascii_dec "'"%char c) as [<- | Hne].
  - rewrite prefix_empty. reflexivity.
  - destruct (Ascii.eqb_spec c Py.quote_char) as [-> | _].
    + exfalso. apply Hne. reflexivity.
    + reflexivity.
Qed.

Lemma replace_quote_nil : Py.replace "'" "''" EmptyString = EmptyString.
Proof. reflexivity. Qed.

Lemma replace_quote_length (s : string) :
  String.length s <= String.length (Py.replace "'" "''" s).
Proof.
  induction s as [|c s IH]; [apply Nat.le_refl |].
  rewrite replace_quote_cons.
  destruct (Ascii.eqb c Py.quote_char); simpl; lia.
Qed.

(** The body of a rendered literal reads back as the string it renders. *)
Lemma unquote_body_replace (s : string) :
  unquote_body (Py.replace "'" "''" s ++ "'") = Some s.
Proof.
  induction s as [|c s IH]; [reflexivity |].
  rewrite replace_quote_cons.
  destruct (Ascii.eqb_spec c Py.quote_char) as [-> | Hne].
  - cbn [append unquote_body]. rewrite Ascii.eqb_refl.
    rewrite IH. reflexivity.
  - cbn [append unquote_body].
    destruct (Ascii.eqb_spec c Py.quote_char) as [Heq | _]; [contradiction |].
    rewrite IH. reflexivity.
Qed.

Lemma parse_literal_quoted (s : string) :
  parse_literal ("'" ++ Py.replace "'" "''" s ++ "'") = Some s.
Proof. cbn [append parse_literal]. rewrite Ascii.eqb_refl. apply unquote_body_replace. Qed.

(** ** Statement builder *)

Section StatementBuilderFacts.

Variable float_repr : float -> string.

Lemma sql_literal_non_null (v : value) :
  v <> VNone ->
  sql_literal float_repr v = "'" ++ Py.replace "'" "''" (py_str float_repr v) ++ "'".
Proof. destruct v; [contradiction | reflexivity ..]. Qed.

Lemma sql_literal_null_iff (v : value) :
  sql_literal float_repr v = "NULL" <-> v = VNone.
Proof.
  split; [| intros ->; reflexivity].
  destruct v; [reflexivity | discriminate ..].
Qed.

Lemma nth_error_map_literal (data : record) (i : nat) (col : string) (v : value) :
  nth_error data i = Some (col, v) ->
  nth_error (List.map (fun kv => sql_literal float_repr (snd kv)) data) i
  = Some (sql_literal float_repr v).
Proof.
  intros H. rewrite nth_error_map, H. reflexivity.
Qed.

End StatementBuilderFacts.

(** C6: a column whose value is [None] is rendered as the bare word [NULL]:
    the statement is the fixed frame around the column names and the values
    joined by a comma and a space, the value at the position of a null
    column is [NULL], and it is none of the quoted strings ['None'],
    ['null'] or ['NULL']. *)
Theorem null_renders_as_NULL
    (float_repr : float -> string) (table_name : string) (data : record)
    (i : nat) (col : string) :
  nth_error data i = Some (col, VNone) ->
  let values := List.map (fun kv => sql_literal float_repr (snd kv)) data in
  make_sql_insert float_repr table_name data
  = "INSERT INTO " ++ table_name ++ " (" ++ Py.join ", " (List.map fst data)
    ++ ") VALUES (" ++ Py.join ", " values ++ ")"
  /\ nth_error values i = Some "NULL"
  /\ nth_error values i <> Some "'None'"
  /\ nth_error values i <> Some "'null'"
  /\ nth_error values i <> Some "'NULL'".
Proof.
  intros H values.
  assert (Hi : nth_error values i = Some "NULL").
  { unfold values. rewrite (nth_error_map_literal float_repr data i col VNone H).
    reflexivity. }
  split; [reflexivity |].
  rewrite Hi. repeat split; discriminate.
Qed.

Lemma null_renders_as_NULL_witness :
  let data := [("pole_id", VStr "P1"); ("x_coord", VNone); ("version", VInt 2)] in
  let values := List.map (fun kv => sql_literal (fun _ => "0.0") (snd kv)) data in
  make_sql_insert (fun _ => "0.0") "poles" data
  = "INSERT INTO poles (pole_id, x_coord, version) VALUES ('P1', NULL, '2')"
  /\ nth_error values 1 = Some "NULL".
Proof.
  split; [reflexivity |].
  apply (null_renders_as_NULL (fun _ => "0.0") "poles"
           [("pole_id", VStr "P1"); ("x_coord", VNone); ("version", VInt 2)]
           1 "x_coord").
  reflexivity.
Defined.

(** Two strings with the same rendering are the same string. *)
Corollary string_literal_injective (float_repr : float -> string) (s1 s2 : string) :
  sql_literal float_repr (VStr s1) = sql_literal float_repr (VStr s2) -> s1 = s2.
Proof.
  intros H.
  assert (H1 : parse_literal (sql_literal float_repr (VStr s1)) = Some s1)
    by apply parse_literal_quoted.
  assert (H2 : parse_literal (sql_literal float_repr (VStr s2)) = Some s2)
    by apply parse_literal_quoted.
  rewrite H in H1. rewrite H1 in H2. now injection H2.
Qed.


(** ** Batcher *)

Section BatcherFacts.

Local Open Scope Z_scope.

Variable batch_size : Z.
Hypothesis batch_size_pos : 0 < batch_size.

(** The invariant of the loop: whatever is in the batch when an iteration
    starts is shorter than the batch size; the batches handed over are full,
    the rest is shorter than a batch, and nothing is lost or reordered. *)
Lemma batcher_loop_invariant (statements batch : list string) :
  Z.of_nat (List.length batch) < batch_size ->
  let (submitted, final) := batcher_loop batch_size statements batch in
  (List.concat submitted ++ final = batch ++ statements)%list
  /\ Forall (full batch_size) submitted
  /\ Z.of_nat (List.length final) < batch_size
  /\ Z.of_nat (List.length batch + List.length statements)
     = batch_size * Z.of_nat (List.length submitted) + Z.of_nat (List.length final).
Proof.
  revert batch.
  induction statements as [|s rest IH]; intros batch Hlen.
  - cbn [batcher_loop]. rewrite app_nil_r. cbn [List.length List.concat app].
    repeat split; [constructor | assumption | lia].
  - cbn [batcher_loop].
    assert (Hl : List.length (batch ++ [s]) = S (List.length batch)).
    { rewrite length_app. cbn [List.length]. lia. }
    destruct (Z.geb_spec (Z.of_nat (List.length (batch ++ [s]))) batch_size) as [Hge | Hlt].
    + specialize (IH [] ltac:(cbn [List.length]; lia)).
      destruct (batcher_loop batch_size rest []) as [submitted final].
      destruct IH as (Hcat & Hfull & Hfin & Hcount).
      cbn [List.concat List.length app] in *.
      repeat split.
      * rewrite <- !app_assoc. rewrite Hcat. reflexivity.
      * constructor; [unfold full; lia | assumption].
      * assumption.
      * lia.
    + specialize (IH (batch ++ [s])%list ltac:(lia)).
      destruct (batcher_loop batch_size rest (batch ++ [s])) as [submitted final].
      destruct IH as (Hcat & Hfull & Hfin & Hcount).
      repeat split; try assumption.
      * rewrite Hcat, <- app_assoc. reflexivity.
      * rewrite Hl in Hcount. cbn [List.length]. lia.
Qed.

Lemma ceiling_exact (q : Z) : (batch_size * q + batch_size - 1) / batch_size = q.
Proof.
  symmetry. apply (Z.div_unique _ _ q (batch_size - 1)); lia.
Qed.

Lemma ceiling_partial (q r : Z) :
  0 < r < batch_size -> (batch_size * q + r + batch_size - 1) / batch_size = q + 1.
Proof.
  intros Hr. symmetry. apply (Z.div_unique _ _ (q + 1) (r - 1)); lia.
Qed.

End BatcherFacts.

(** With a positive batch size [B], the batcher forms from [N] statements
    ceil(N/B) batches of at least one and at most [B] statements each; the
    batches in their order, put end to end, are the statements; the batches
    formed inside the loop are full, and what is left at the end of the
    input, N mod B statements, is the last batch when it is not empty. *)
Lemma batcher_shape (batch_size : Z) (statements : list string) :
  (0 < batch_size)%Z ->
  let batches := batcher batch_size statements in
  let N := Z.of_nat (List.length statements) in
  (Z.of_nat (List.length batches) = (N + batch_size - 1) / batch_size)%Z
  /\ Forall (fun b => (0 < Z.of_nat (List.length b) <= batch_size)%Z) batches
  /\ List.concat batches = statements
  /\ Forall (full batch_size) (fst (batcher_loop batch_size statements []))
  /\ Z.of_nat (List.length (snd (batcher_loop batch_size statements [])))
     = (N mod batch_size)%Z
  /\ batches
     = (fst (batcher_loop batch_size statements [])
        ++ match snd (batcher_loop batch_size statements []) with
           | [] => []
           | _ :: _ => [snd (batcher_loop batch_size statements [])]
           end)%list.
Proof.
  intros HB batches N.
  pose proof (batcher_loop_invariant batch_size HB statements []
                ltac:(cbn [List.length]; lia)) as Hinv.
  unfold batches, batcher.
  destruct (batcher_loop batch_size statements []) as [submitted final].
  destruct Hinv as (Hcat & Hfull & Hfin & Hcount).
  cbn [fst snd List.length app Nat.add] in *.
  fold N in Hcount.
  assert (Hmod : Z.of_nat (List.length final) = (N mod batch_size)%Z).
  { apply (Z.mod_unique _ _ (Z.of_nat (List.length submitted))); lia. }
  assert (Hsizes : Forall (fun b => (0 < Z.of_nat (List.length b) <= batch_size)%Z)
                          submitted).
  { eapply Forall_impl; [| exact Hfull]. unfold full. intros b Hb. lia. }
  destruct final as [|s final].
  - rewrite app_nil_r in *. cbn [List.length] in *.
    repeat split; try assumption.
    rewrite Hcount, Z.add_0_r. rewrite (ceiling_exact batch_size HB). reflexivity.
  - repeat split; try assumption.
    + rewrite length_app. cbn [List.length] in *.
      rewrite Hcount.
      rewrite (ceiling_partial batch_size); lia.
    + apply Forall_app. split; [assumption |].
      constructor; [| constructor]. cbn [List.length] in *. lia.
    + rewrite concat_app. cbn [List.concat]. rewrite app_nil_r. assumption.
Qed.


(** ** Traces *)

Lemma invocations_app (a b : list event) :
  invocations (a ++ b) = (invocations a ++ invocations b)%list.
Proof.
  induction a as [|ev a IH]; [reflexivity |].
  destruct ev; cbn [app invocations]; rewrite IH; reflexivity.
Qed.

Lemma requests_app (a b : list event) :
  requests (a ++ b) = (requests a ++ requests b)%list.
Proof.
  induction a as [|ev a IH]; [reflexivity |].
  destruct ev; cbn [app requests]; rewrite IH; reflexivity.
Qed.

Lemma printed_app (a b : list event) :
  printed (a ++ b) = (printed a ++ printed b)%list.
Proof.
  induction a as [|ev a IH]; [reflexivity |].
  destruct ev; cbn [app printed]; rewrite IH; reflexivity.
Qed.

Lemma count_sleeps_app (a b : list event) :
  count_sleeps (a ++ b) = count_sleeps a + count_sleeps b.
Proof.
  induction a as [|ev a IH]; [reflexivity |].
  destruct ev; cbn [app count_sleeps]; rewrite IH; reflexivity.
Qed.

Lemma outcomes_app (a b : list event) :
  outcomes (a ++ b) = (outcomes a ++ outcomes b)%list.
Proof.
  induction a as [|ev a IH]; [reflexivity |].
  destruct ev; cbn [app outcomes]; try (rewrite IH; reflexivity).
  destruct (outcome_of m); rewrite IH; reflexivity.
Qed.

Lemma log_log (a b : list event) (st : state) : log b (log a st) = log (a ++ b) st.
Proof. unfold log. cbn [trace jobs init_response_var]. now rewrite app_assoc. Qed.

Lemma log_nil (st : state) : log [] st = st.
Proof. destruct st. unfold log. cbn. now rewrite app_nil_r. Qed.

(** ** The monad *)

Lemma bind_ret {A B : Type} (c : M A) (k : A -> M B) (st st' : state) (a : A) :
  c st = (Ret a, st') -> bind c k st = k a st'.
Proof. intros H. unfold bind. now rewrite H. Qed.

Lemma bind_raise {A B : Type} (c : M A) (k : A -> M B) (st st' : state) (e : exn) :
  c st = (Raise e, st') -> bind c k st = (Raise e, st').
Proof. intros H. unfold bind. now rewrite H. Qed.

Lemma bind_out_of_fuel {A B : Type} (c : M A) (k : A -> M B) (st st' : state) :
  c st = (OutOfFuel, st') -> bind c k st = (OutOfFuel, st').
Proof. intros H. unfold bind. now rewrite H. Qed.

Lemma emit_log (ev : event) (st : state) : emit ev st = (Ret tt, log [ev] st).
Proof. reflexivity. Qed.

Lemma extends_refl (st : state) : extends st st.
Proof.
  exists []. rewrite app_nil_r. repeat split; auto.
Qed.

Lemma extends_trans (st1 st2 st3 : state) :
  extends st1 st2 -> extends st2 st3 -> extends st1 st3.
Proof.
  intros (e1 & Ht1 & Hi1 & Hj1 & Hv1) (e2 & Ht2 & Hi2 & Hj2 & Hv2).
  exists (e1 ++ e2)%list. repeat split.
  - rewrite Ht2, Ht1, app_assoc. reflexivity.
  - rewrite invocations_app, Hi1, Hi2. reflexivity.
  - congruence.
  - auto.
Qed.

Lemma extends_log (evs : list event) (st : state) :
  invocations evs = [] -> extends st (log evs st).
Proof.
  intros H. exists evs. repeat split; auto.
Qed.

Section Steady.

Context {A B : Type}.

Lemma steady_ret (a : A) : steady (ret a).
Proof. intros st. apply extends_refl. Qed.

Lemma steady_raise (e : exn) : steady (@raise A e).
Proof. intros st. apply extends_refl. Qed.

Lemma steady_out_of_fuel : steady (@out_of_fuel A).
Proof. intros st. apply extends_refl. Qed.

Lemma steady_bind (c : M A) (k : A -> M B) :
  steady c -> (forall a, steady (k a)) -> steady (bind c k).
Proof.
  intros Hc Hk st. specialize (Hc st). unfold bind.
  destruct (c st) as [[a | e | ] st']; cbn [snd] in *; try assumption.
  eapply extends_trans; [exact Hc | apply Hk].
Qed.

Lemma steady_try_except (body : M A) (handler : exn -> M A) :
  steady body -> (forall e, steady (handler e)) -> steady (try_except body handler).
Proof.
  intros Hb Hh st. specialize (Hb st). unfold try_except.
  destruct (body st) as [[a | e | ] st']; cbn [snd] in *; try assumption.
  eapply extends_trans; [exact Hb | apply Hh].
Qed.

Lemma steady_lift (r : exn + A) : steady (lift r).
Proof. destruct r; [apply steady_raise | apply steady_ret]. Qed.

Lemma steady_if (b : bool) (c1 c2 : M A) :
  steady c1 -> steady c2 -> steady (if b then c1 else c2).
Proof. destruct b; auto. Qed.

End Steady.

Lemma steady_emit (ev : event) :
  invocations [ev] = [] -> steady (emit ev).
Proof. intros H st. rewrite emit_log. now apply extends_log. Qed.

Lemma steady_print (m : message) : steady (print m).
Proof. apply steady_emit. reflexivity. Qed.

Lemma steady_http (rq : request) (reply : string + response) : steady (http rq reply).
Proof.
  unfold http. apply steady_bind; [apply steady_emit; reflexivity |].
  intros _. destruct reply; [apply steady_raise | apply steady_ret].
Qed.

Lemma steady_raise_for_status (r : response) : steady (raise_for_status r).
Proof. unfold raise_for_status. apply steady_if; [apply steady_raise | apply steady_ret]. Qed.

Lemma steady_subscript (j : json) (key : string) : steady (subscript j key).
Proof. apply steady_lift. Qed.

Lemma steady_set_init_response (r : response) : steady (set_init_response r).
Proof.
  intros st. exists []. cbn. rewrite app_nil_r. repeat split; auto. discriminate.
Qed.

Lemma steady_read_init_response : steady read_init_response.
Proof.
  intros st. unfold read_init_response.
  destruct (init_response_var st); apply extends_refl.
Qed.

Create HintDb steady.

#[local] Hint Resolve steady_ret steady_raise steady_out_of_fuel steady_lift steady_print
  steady_http steady_raise_for_status steady_subscript steady_set_init_response
  steady_read_init_response : steady.

(** Steadiness of a chain of binds, conditionals and basic steps. *)
Ltac steady_step :=
  match goal with
  | |- steady (bind _ _) => apply steady_bind; [| intros ?]
  | |- steady (try_except _ _) => apply steady_try_except; [| intros ?]
  | |- steady (if _ then _ else _) => apply steady_if
  | |- steady (emit _) => apply steady_emit; reflexivity
  | |- steady (match ?x with _ => _ end) => destruct x
  | |- steady _ => solve [auto with steady]
  end.

Ltac steady_chain := cbv zeta; repeat steady_step.

Lemma steady_poll_done (poll_result : json) : steady (poll_done poll_result).
Proof. unfold poll_done. steady_chain. Qed.

Lemma steady_poll_loop (sc : script) (fuel : nat) (sv : server) (bookmark : json) (k : nat) :
  steady (poll_loop sc fuel sv bookmark k).
Proof.
  revert k. induction fuel as [|fuel IH]; intros k; cbn [poll_loop].
  - apply steady_out_of_fuel.
  - pose proof steady_poll_done. steady_chain; auto.
Qed.

Lemma steady_init_upload (sv : server) (hash_str : string) :
  steady (init_upload sv hash_str).
Proof. unfold init_upload. steady_chain. Qed.

Lemma steady_upload_to_r2 (sv : server) (upload_url : json)
    (full_sql_command hash_str : string) :
  steady (upload_to_r2 sv upload_url full_sql_command hash_str).
Proof. unfold upload_to_r2. steady_chain. Qed.

Lemma steady_start_ingestion (sc : script) (sv : server) (hash_str : string)
    (filename : json) :
  steady (start_ingestion sc sv hash_str filename).
Proof. unfold start_ingestion. steady_chain. Qed.

Lemma steady_polling (sc : script) (fuel : nat) (sv : server) (table_name : string)
    (ingest_data : json) :
  steady (polling sc fuel sv table_name ingest_data).
Proof. pose proof steady_poll_loop. unfold polling. steady_chain; auto. Qed.

Lemma steady_protocol (sc : script) (fuel : nat) (sv : server) (table_name : string)
    (full_sql_command hash_str : string) :
  steady (protocol sc fuel sv table_name full_sql_command hash_str).
Proof.
  unfold protocol. apply steady_bind; [apply steady_init_upload |].
  intros [upload_url filename].
  apply steady_bind; [apply steady_upload_to_r2 |]. intros _.
  apply steady_bind; [apply steady_start_ingestion |]. intros ingest_data.
  apply steady_polling.
Qed.

Lemma steady_handlers (sc : script) (table_name : string) (e : exn) :
  steady (handlers sc table_name e).
Proof. unfold handlers. steady_chain. Qed.

Lemma steady_lookup_database (sv : server) (db_name : string) :
  steady (lookup_database sv db_name).
Proof. unfold lookup_database. steady_chain. Qed.


(** ** The poll loop *)

Lemma json_eq_str_true (j : json) (s : string) :
  json_eq_str j s = true <-> j = JStr s.
Proof.
  split.
  - destruct j; cbn [json_eq_str]; try discriminate.
    intros H. apply String.eqb_eq in H. now subst.
  - intros ->. cbn [json_eq_str]. apply String.eqb_refl.
Qed.

Lemma poll_done_succeeded (poll_result : json) (st : state) :
  succeeded poll_result -> poll_done poll_result st = (Ret true, st).
Proof.
  intros (success & Hs & Ht).
  unfold poll_done, subscript, bind, lift. rewrite Hs. cbn [ret]. now rewrite Ht.
Qed.

Lemma poll_done_reaped (poll_result : json) (st : state) :
  reaped poll_result -> poll_done poll_result st = (Ret true, st).
Proof.
  intros (success & Hs & Ht & He).
  unfold poll_done, subscript, bind, lift. rewrite Hs. cbn [ret]. rewrite Ht.
  cbn [negb]. rewrite He. cbn [ret].
  unfold ret. cbn [json_eq_str]. now rewrite String.eqb_refl.
Qed.

Lemma poll_done_pending (poll_result : json) (st : state) :
  pending poll_result -> poll_done poll_result st = (Ret false, st).
Proof.
  intros (success & error & Hs & Ht & He & Hne).
  unfold poll_done, subscript, bind, lift. rewrite Hs. cbn [ret]. rewrite Ht.
  cbn [negb]. rewrite He. cbn [ret].
  unfold ret. now rewrite Hne.
Qed.

(** The loop condition holds for no other result object. *)
Lemma poll_done_true (poll_result : json) (st st' : state) :
  poll_done poll_result st = (Ret true, st') ->
  succeeded poll_result \/ reaped poll_result.
Proof.
  unfold poll_done, subscript, bind, lift.
  destruct (getitem poll_result "success") as [e | success] eqn:Hs;
    cbn [raise ret]; [discriminate |].
  destruct (truthy success) eqn:Ht.
  - intros _. left. exists success. auto.
  - cbn [ret negb].
    destruct (getitem poll_result "error") as [e | error] eqn:He;
      cbn [raise ret]; [discriminate |].
    unfold ret. intros H. injection H as H _.
    right. exists success. repeat split; auto.
    apply json_eq_str_true in H. now subst.
Qed.

(** A call that is answered goes through [raise_for_status] and [.json()]. *)
Lemma http_answered {A : Type} (rq : request) (reply : string + response) (body : json)
    (k : json -> M A) (st : state) :
  answered reply body ->
  (r <- http rq reply ;; raise_for_status r ;; b <- lift (json_body r) ;; k b) st
  = k body (log [Request rq] st).
Proof.
  intros (r & -> & Herr & Hbody).
  unfold http, raise_for_status, bind, emit, lift, ret. rewrite Herr, Hbody.
  reflexivity.
Qed.

(** One turn of the loop on a poll that is answered. *)
Lemma poll_loop_answered (sc : script) (fuel : nat) (sv : server) (bookmark : json)
    (k : nat) (poll_result : json) (st : state) :
  poll_answer sv k bookmark poll_result ->
  poll_loop sc (S fuel) sv bookmark k st
  = (done <- poll_done poll_result ;;
     if done then ret poll_result
     else emit (Sleep 2) ;; poll_loop sc fuel sv bookmark (S k))
      (log (poll_events sc bookmark poll_result) st).
Proof.
  intros (body & Hans & Hres).
  cbn [poll_loop]. rewrite (http_answered _ _ body); [| exact Hans].
  unfold subscript at 1. unfold bind at 1. rewrite Hres. cbn [lift ret].
  unfold poll_events.
  destruct sc; cbn [is_digital_assets]; unfold bind at 1, print;
    rewrite ?emit_log, ?log_log; reflexivity.
Qed.

(** Polls that are pending leave the loop where it was, one poll and one
    sleep later. *)
Lemma poll_loop_pending (sc : script) (sv : server) (bookmark : json) (n : nat) :
  forall (fuel k : nat) (st : state),
    (forall i, i < n -> exists pr, poll_answer sv (k + i) bookmark pr /\ pending pr) ->
    exists evs,
      poll_loop sc (n + fuel) sv bookmark k st
      = poll_loop sc fuel sv bookmark (k + n) (log evs st)
      /\ requests evs = List.repeat (ReqPoll bookmark) n
      /\ count_sleeps evs = n
      /\ invocations evs = []
      /\ outcomes evs = [].
Proof.
  induction n as [|n IH]; intros fuel k st Hpend.
  - exists []. rewrite log_nil, Nat.add_0_r. repeat split; reflexivity.
  - destruct (Hpend 0 ltac:(lia)) as (pr & Hans & Hpr).
    rewrite Nat.add_0_r in Hans.
    cbn [Nat.add].
    rewrite (poll_loop_answered sc (n + fuel) sv bookmark k pr st Hans).
    rewrite (bind_ret _ _ _ _ _ (poll_done_pending pr _ Hpr)).
    unfold bind at 1. rewrite emit_log, log_log.
    destruct (IH fuel (S k) (log (poll_events sc bookmark pr ++ [Sleep 2]) st))
      as (evs & Heq & Hreq & Hsl & Hinv & Hpr').
    { intros i Hi. specialize (Hpend (S i) ltac:(lia)).
      now rewrite Nat.add_succ_r in Hpend. }
    exists ((poll_events sc bookmark pr ++ [Sleep 2]) ++ evs)%list.
    rewrite Heq, log_log, Nat.add_succ_r. cbn [Nat.add].
    split; [reflexivity |].
    rewrite requests_app, count_sleeps_app, invocations_app, outcomes_app, Hreq, Hsl, Hinv, Hpr'.
    unfold poll_events.
    destruct sc; cbn [is_digital_assets app requests count_sleeps invocations outcomes outcome_of];
      repeat split; reflexivity.
Qed.



(** ** The four steps of the protocol *)

Lemma init_upload_ok (sv : server) (hash_str : string) (upload_url filename : json)
    (st : state) :
  init_ok sv hash_str upload_url filename ->
  exists r,
    post_init sv hash_str = inr r
    /\ init_upload sv hash_str st
       = (Ret (upload_url, filename),
          State (trace st ++ [Request (ReqInit hash_str)]) (jobs st) (Some r)).
Proof.
  intros (body & result & (r & Hr & Herr & Hbody) & Hres & Hurl & Hfn).
  exists r. split; [exact Hr |].
  unfold init_upload, http, raise_for_status, set_init_response, subscript, bind, emit, lift.
  rewrite Hr. cbn [ret]. rewrite Herr. cbn [ret]. rewrite Hbody. cbn [ret].
  rewrite Hres. cbn [ret]. rewrite Hurl. cbn [ret]. rewrite Hfn. reflexivity.
Qed.

Lemma upload_to_r2_tag (sv : server) (upload_url : json) (data hash_str tag : string)
    (st : state) :
  upload_tag sv upload_url data tag ->
  upload_to_r2 sv upload_url data hash_str st
  = (if String.eqb tag hash_str then Ret tt else Raise (etag_mismatch hash_str tag),
     log [Request (ReqUpload upload_url data)] st).
Proof.
  intros (r & Hr & Herr & Htag).
  unfold upload_to_r2, http, raise_for_status, bind, emit, lift.
  rewrite Hr. cbn [ret]. rewrite Herr. cbn [ret]. rewrite Htag.
  destruct (String.eqb tag hash_str); reflexivity.
Qed.

Lemma start_ingestion_ok (sc : script) (sv : server) (hash_str : string)
    (filename bookmark : json) (st : state) :
  ingest_ok sv hash_str filename bookmark ->
  exists ingest_data result evs,
    start_ingestion sc sv hash_str filename st = (Ret ingest_data, log evs st)
    /\ requests evs = [ReqIngest hash_str filename]
    /\ outcomes evs = []
    /\ count_sleeps evs = 0
    /\ getitem ingest_data "result" = inr result
    /\ getitem result "at_bookmark" = inr bookmark.
Proof.
  intros (body & result & Hans & Hres & Hbm).
  exists body, result.
  exists (Request (ReqIngest hash_str filename)
          :: (if is_digital_assets sc then [Print (IngestionInitiated body)] else [])).
  unfold start_ingestion. rewrite (http_answered _ _ body); [| exact Hans].
  destruct sc; cbn [is_digital_assets]; unfold bind, print, ret;
    rewrite ?emit_log, ?log_log; repeat split; auto.
Qed.

(** The message printed after the loop. *)
Lemma polling_ends (sc : script) (fuel : nat) (sv : server) (table_name : string)
    (ingest_data result bookmark : json) (n : nat) (pr : json) (st : state) :
  getitem ingest_data "result" = inr result ->
  getitem result "at_bookmark" = inr bookmark ->
  (forall i, i < n -> exists pr', poll_answer sv i bookmark pr' /\ pending pr') ->
  poll_answer sv n bookmark pr ->
  n < fuel ->
  (succeeded pr ->
   exists evs,
     polling sc fuel sv table_name ingest_data st
     = (Ret tt, log (evs ++ [Print (Completed table_name)]) st)
     /\ requests evs = List.repeat (ReqPoll bookmark) (S n)
     /\ count_sleeps evs = n
     /\ outcomes evs = [])
  /\ (reaped pr ->
      exists evs,
        polling sc fuel sv table_name ingest_data st
        = (Ret tt, log (evs ++ [Print (Failed table_name (JStr not_importing))]) st)
        /\ requests evs = List.repeat (ReqPoll bookmark) (S n)
        /\ count_sleeps evs = n
        /\ outcomes evs = []).
Proof.
  intros Hres Hbm Hpend Hans Hfuel.
  destruct (poll_loop_pending sc sv bookmark n (fuel - n) 0 st)
    as (evs & Heq & Hreq & Hsl & _ & Hout).
  { intros i Hi. apply Hpend, Hi. }
  replace (n + (fuel - n)) with fuel in Heq by lia.
  destruct (fuel - n) as [|fuel'] eqn:Hf; [lia |].
  cbn [Nat.add] in Heq.
  rewrite (poll_loop_answered sc fuel' sv bookmark n pr _ Hans), log_log in Heq.
  assert (Hshape :
    requests (evs ++ poll_events sc bookmark pr) = List.repeat (ReqPoll bookmark) (S n)
    /\ count_sleeps (evs ++ poll_events sc bookmark pr) = n
    /\ outcomes (evs ++ poll_events sc bookmark pr) = []).
  { rewrite requests_app, count_sleeps_app, outcomes_app, Hreq, Hsl, Hout.
    unfold poll_events.
    replace (S n) with (n + 1) by lia. rewrite repeat_app.
    destruct sc; cbn [is_digital_assets requests count_sleeps outcomes outcome_of
                        List.repeat app]; repeat split; lia || reflexivity. }
  split.
  - intros Hs. exists (evs ++ poll_events sc bookmark pr)%list.
    split; [| exact Hshape].
    unfold polling, subscript, bind at 1. rewrite Hres. cbn [lift ret].
    unfold bind at 1. rewrite Hbm. cbn [lift ret].
    unfold bind at 1. rewrite Heq.
    rewrite (bind_ret _ _ _ _ _ (poll_done_succeeded pr _ Hs)). cbn [ret].
    destruct Hs as (success & Hsucc & Ht).
    unfold bind. rewrite Hsucc. cbn [lift ret]. rewrite Ht.
    unfold print. rewrite emit_log, log_log. reflexivity.
  - intros Hr. exists (evs ++ poll_events sc bookmark pr)%list.
    split; [| exact Hshape].
    unfold polling, subscript, bind at 1. rewrite Hres. cbn [lift ret].
    unfold bind at 1. rewrite Hbm. cbn [lift ret].
    unfold bind at 1. rewrite Heq.
    rewrite (bind_ret _ _ _ _ _ (poll_done_reaped pr _ Hr)). cbn [ret].
    destruct Hr as (success & Hsucc & Ht & He).
    unfold bind. rewrite Hsucc. cbn [lift ret]. rewrite Ht, He. cbn [lift ret].
    unfold print. rewrite emit_log, log_log. reflexivity.
Qed.

(** ** The driver *)

(** With statements to import (and, for the digital-assets script, its
    database found), a call of the driver is its [try] statement run from
    [job_start]. *)
Lemma d1_bulk_import_job (sc : script) (fuel : nat) (sv : server) (table_name : string)
    (sql_statements : list string) (st : state) :
  sql_statements <> [] ->
  database_found sc sv ->
  d1_bulk_import sc fuel sv table_name sql_statements st
  = (try_except
       (protocol sc fuel sv table_name (payload sql_statements)
                 (MD5.hexdigest (payload sql_statements)))
       (handlers sc table_name) ;;
     ret VNone) (job_start sc table_name sql_statements st).
Proof.
  intros Hne Hdb. destruct sql_statements as [|s rest]; [contradiction |].
  unfold d1_bulk_import, job_start, opening, enter.
  destruct (is_digital_assets sc) eqn:Hsc.
  - destruct (Hdb Hsc) as (id & Hid).
    unfold lookup_database, bind at 1 2 3, emit. rewrite Hid.
    cbn [trace jobs init_response_var ret]. unfold bind at 1, print, emit.
    cbn [trace jobs init_response_var]. rewrite <- !app_assoc. reflexivity.
  - unfold bind at 1 2, ret at 1, bind at 1, print, emit.
    cbn [trace jobs init_response_var app]. rewrite <- !app_assoc. reflexivity.
Qed.


Lemma opening_shape (sc : script) (table_name : string) (sql_statements : list string) :
  requests (opening sc table_name sql_statements) = []
  /\ outcomes (opening sc table_name sql_statements) = []
  /\ count_sleeps (opening sc table_name sql_statements) = 0
  /\ invocations (opening sc table_name sql_statements) = [sql_statements].
Proof. unfold opening. destruct sc; repeat split; reflexivity. Qed.

(** After the init request has been answered, [init_response] is bound: the
    init step ends with the variable bound or with the [RequestException] of
    the request itself. *)
Lemma init_upload_binds (sv : server) (hash_str : string) (st st' : state)
    (r : res (json * json)) :
  init_upload sv hash_str st = (r, st') ->
  (exists msg, r = Raise (RequestException msg)) \/ init_response_var st' <> None.
Proof.
  unfold init_upload, http.
  destruct (post_init sv hash_str) as [msg | r0].
  - unfold bind, emit, raise. intros H. injection H as <- _. left. now exists msg.
  - unfold bind at 1 2, emit, ret at 1. unfold bind at 1, set_init_response.
    intros H. right.
    match type of H with
    | ?c ?s0 = _ =>
        assert (Hst : steady c) by steady_chain;
        specialize (Hst s0); rewrite H in Hst; cbn [snd] in Hst;
        destruct Hst as (_ & _ & _ & _ & Hv)
    end.
    apply Hv. discriminate.
Qed.

(** A decode error can only come out of the [try] block with
    [init_response] bound. *)
Lemma protocol_decode_error_bound (sc : script) (fuel : nat) (sv : server)
    (table_name data hash_str msg : string) (st st' : state) :
  protocol sc fuel sv table_name data hash_str st = (Raise (JSONDecodeError msg), st') ->
  init_response_var st' <> None.
Proof.
  unfold protocol. unfold bind at 1.
  destruct (init_upload sv hash_str st) as [[[upload_url filename] | e |] s1] eqn:Hinit.
  - destruct (init_upload_binds _ _ _ _ _ Hinit) as [(m & Hm) | Hbound]; [discriminate |].
    intros H.
    assert (Hst : steady (upload_to_r2 sv upload_url data hash_str ;;
                          ingest_data <- start_ingestion sc sv hash_str filename ;;
                          polling sc fuel sv table_name ingest_data)).
    { apply steady_bind; [apply steady_upload_to_r2 |]. intros _.
      apply steady_bind; [apply steady_start_ingestion |]. intros ingest_data.
      apply steady_polling. }
    specialize (Hst s1). rewrite H in Hst. cbn [snd] in Hst.
    destruct Hst as (_ & _ & _ & _ & Hv). auto.
  - intros H. injection H as -> <-.
    destruct (init_upload_binds _ _ _ _ _ Hinit) as [(m & Hm) | Hbound];
      [discriminate | assumption].
  - discriminate.
Qed.

(** Every call of the driver records its entry and then only adds events
    that are no entries; the job counter is left alone. *)
Lemma d1_bulk_import_frame (sc : script) (fuel : nat) (sv : server) (table_name : string)
    (sql_statements : list string) (st : state) :
  exists evs,
    trace (snd (d1_bulk_import sc fuel sv table_name sql_statements st))
    = (trace st ++ Invoke table_name sql_statements :: evs)%list
    /\ invocations evs = []
    /\ jobs (snd (d1_bulk_import sc fuel sv table_name sql_statements st)) = jobs st.
Proof.
  remember (d1_bulk_import sc fuel sv table_name sql_statements st) as run eqn:Hrun.
  unfold d1_bulk_import in Hrun. unfold bind at 1, enter in Hrun.
  cbv beta iota in Hrun. subst run.
  match goal with
  | |- context [snd (?rest ?s0)] =>
      assert (Hst : steady rest); [| specialize (Hst s0);
        destruct Hst as (evs & Ht & Hi & Hj & _); exists evs ]
  end.
  - pose proof steady_protocol. pose proof steady_handlers.
    pose proof steady_lookup_database.
    destruct sql_statements; steady_chain; auto.
  - cbn [trace jobs] in Ht, Hj. rewrite Ht, Hj, <- app_assoc. auto.
Qed.

(** The driver of the open-data and real-photo scripts never raises: it
    returns [None], unless it is still polling when the fuel runs out. *)
Lemma d1_bulk_import_no_raise (sc : script) (fuel : nat) (sv : server)
    (table_name : string) (sql_statements : list string) (st : state) :
  is_digital_assets sc = false ->
  fst (d1_bulk_import sc fuel sv table_name sql_statements st) = Ret VNone
  \/ fst (d1_bulk_import sc fuel sv table_name sql_statements st) = OutOfFuel.
Proof.
  intros Hsc. destruct sql_statements as [|s rest].
  - left. reflexivity.
  - rewrite d1_bulk_import_job; [| discriminate | intros H; congruence].
    unfold bind, try_except.
    destruct (protocol _ _ _ _ _ _ _) as [[[] | e |] s1] eqn:Hp.
    + left. reflexivity.
    + unfold handlers. rewrite Hsc.
      destruct e as [m | m | m]; try (left; reflexivity).
      apply protocol_decode_error_bound in Hp.
      unfold read_init_response, bind.
      destruct (init_response_var s1); [left; reflexivity | contradiction].
    + right. reflexivity.
Qed.


(** What a call of the driver does with the outcome of its [try] block. *)
Lemma d1_bulk_import_outcome (sc : script) (fuel : nat) (sv : server)
    (table_name : string) (sql_statements : list string) (st s1 : state) (r : res unit) :
  sql_statements <> [] ->
  database_found sc sv ->
  protocol sc fuel sv table_name (payload sql_statements)
           (MD5.hexdigest (payload sql_statements))
           (job_start sc table_name sql_statements st) = (r, s1) ->
  d1_bulk_import sc fuel sv table_name sql_statements st
  = match r with
    | Ret _ => (Ret VNone, s1)
    | Raise e => (handlers sc table_name e ;; ret VNone) s1
    | OutOfFuel => (OutOfFuel, s1)
    end.
Proof.
  intros Hne Hdb Hp. rewrite d1_bulk_import_job by assumption.
  unfold bind at 1, try_except. rewrite Hp.
  destruct r as [[] | e |]; reflexivity.
Qed.

(** The [except] clause that catches [e] prints its message and falls
    through; the clause for a decode error needs [init_response] bound, and
    is the one of the open-data and real-photo scripts. *)
Lemma handlers_print (sc : script) (table_name : string) (e : exn) (s1 : state) :
  (forall msg, e = JSONDecodeError msg ->
               is_digital_assets sc = false /\ init_response_var s1 <> None) ->
  handlers sc table_name e s1
  = (Ret tt, log [Print (failure_message table_name e (init_response_var s1))] s1).
Proof.
  intros Hdec. destruct e as [m | m | m]; try reflexivity.
  destruct (Hdec m eq_refl) as (Hsc & Hbound).
  unfold handlers, failure_message. rewrite Hsc.
  unfold read_init_response, bind.
  destruct (init_response_var s1) as [r0 |]; [reflexivity | contradiction].
Qed.

(** A job whose polls are pending [n] times and then answered by a result
    object that ends the loop: the requests of the four steps in their
    order, [n] sleeps, and one message, printed last. *)
Lemma protocol_polls_to_end (sc : script) (fuel : nat) (sv : server)
    (table_name data hash_str : string) (st0 : state)
    (upload_url filename bookmark : json) (n : nat) (pr : json) (final : message) :
  init_ok sv hash_str upload_url filename ->
  upload_tag sv upload_url data hash_str ->
  ingest_ok sv hash_str filename bookmark ->
  (forall i, i < n -> exists pr', poll_answer sv i bookmark pr' /\ pending pr') ->
  poll_answer sv n bookmark pr ->
  n < fuel ->
  (succeeded pr /\ final = Completed table_name)
  \/ (reaped pr /\ final = Failed table_name (JStr not_importing)) ->
  exists evs s1,
    protocol sc fuel sv table_name data hash_str st0 = (Ret tt, s1)
    /\ trace s1 = (trace st0 ++ evs ++ [Print final])%list
    /\ jobs s1 = jobs st0
    /\ requests evs
       = ([ReqInit hash_str; ReqUpload upload_url data; ReqIngest hash_str filename]
          ++ List.repeat (ReqPoll bookmark) (S n))%list
    /\ count_sleeps evs = n
    /\ outcomes evs = [].
Proof.
  intros Hinit Htag Hingest Hpend Hans Hfuel Hfinal.
  destruct (init_upload_ok sv hash_str upload_url filename st0 Hinit) as (r0 & _ & Hrun1).
  set (s_init := State (trace st0 ++ [Request (ReqInit hash_str)]) (jobs st0) (Some r0)) in *.
  pose proof (upload_to_r2_tag sv upload_url data hash_str hash_str s_init Htag) as Hrun2.
  rewrite String.eqb_refl in Hrun2.
  destruct (start_ingestion_ok sc sv hash_str filename bookmark
              (log [Request (ReqUpload upload_url data)] s_init) Hingest)
    as (ingest_data & result & evs3 & Hrun3 & Hreq3 & Hout3 & Hsl3 & Hres & Hbm).
  rewrite log_log in Hrun3.
  destruct (polling_ends sc fuel sv table_name ingest_data result bookmark n pr
              (log ([Request (ReqUpload upload_url data)] ++ evs3) s_init)
              Hres Hbm Hpend Hans Hfuel) as (Hsucc & Hreap).
  assert (Hpoll : exists evs4,
             polling sc fuel sv table_name ingest_data
                     (log ([Request (ReqUpload upload_url data)] ++ evs3) s_init)
             = (Ret tt, log (evs4 ++ [Print final])
                            (log ([Request (ReqUpload upload_url data)] ++ evs3) s_init))
             /\ requests evs4 = List.repeat (ReqPoll bookmark) (S n)
             /\ count_sleeps evs4 = n
             /\ outcomes evs4 = []).
  { destruct Hfinal as [(Hs & ->) | (Hr & ->)]; [apply Hsucc | apply Hreap]; assumption. }
  destruct Hpoll as (evs4 & Hrun4 & Hreq4 & Hsl4 & Hout4).
  exists ([Request (ReqInit hash_str)] ++ ([Request (ReqUpload upload_url data)] ++ evs3)
          ++ evs4)%list.
  eexists. split.
  - unfold protocol. rewrite (bind_ret _ _ _ _ _ Hrun1). cbv beta iota.
    rewrite (bind_ret _ _ _ _ _ Hrun2). rewrite (bind_ret _ _ _ _ _ Hrun3).
    exact Hrun4.
  - unfold log, s_init. cbn [trace jobs init_response_var].
    rewrite !requests_app, !count_sleeps_app, !outcomes_app, Hreq3, Hreq4, Hsl3, Hsl4,
      Hout3, Hout4.
    cbn [requests count_sleeps outcomes app Nat.add].
    repeat split; try reflexivity.
    rewrite <- !app_assoc. reflexivity.
Qed.

(** The example servers answer as the statements below require. *)
Lemma example_init_ok (sv : server) (hash_str : string) :
  post_init sv hash_str = inr init_response_example ->
  init_ok sv hash_str (JStr "https://r2.example/upload") (JStr "import.sql").
Proof.
  intros H. unfold init_ok, answered. rewrite H.
  eexists. eexists. split; [eexists; repeat split; reflexivity |].
  repeat split; reflexivity.
Qed.

Lemma example_upload_tag (sv : server) (upload_url : json) (data received : string) :
  put_upload sv upload_url data = inr (echo_response received) ->
  upload_tag sv upload_url data (etag_of (echo_response received)).
Proof. intros H. exists (echo_response received). repeat split; try reflexivity. exact H. Qed.

Lemma example_ingest_ok (sv : server) (hash_str : string) (filename : json) :
  post_ingest sv hash_str filename = inr ingest_response_example ->
  ingest_ok sv hash_str filename (JStr "bookmark-0").
Proof.
  intros H. unfold ingest_ok, answered. rewrite H.
  eexists. eexists. split; [eexists; repeat split; reflexivity |].
  repeat split; reflexivity.
Qed.

Lemma example_poll_error (sv : server) (k : nat) (bookmark : json) (error : string) :
  post_poll sv k bookmark = inr (poll_error error) ->
  poll_answer sv k bookmark (JObj [("success", JBool false); ("error", JStr error)]).
Proof.
  intros H. unfold poll_answer, answered. rewrite H.
  eexists. split; [eexists; repeat split; reflexivity | reflexivity].
Qed.

Lemma example_poll_success (sv : server) (k : nat) (bookmark : json) :
  post_poll sv k bookmark = inr poll_success ->
  poll_answer sv k bookmark (JObj [("success", JBool true)]).
Proof.
  intros H. unfold poll_answer, answered. rewrite H.
  eexists. split; [eexists; repeat split; reflexivity | reflexivity].
Qed.

Lemma example_pending (error : string) :
  String.eqb error not_importing = false ->
  pending (JObj [("success", JBool false); ("error", JStr error)]).
Proof. intros H. exists (JBool false), (JStr error). repeat split; assumption. Qed.

Lemma example_reaped :
  reaped (JObj [("success", JBool false); ("error", JStr not_importing)]).
Proof. exists (JBool false). repeat split. Qed.

Lemma example_succeeded : succeeded (JObj [("success", JBool true)]).
Proof. exists (JBool true). repeat split. Qed.

(** C9: called with no statements, the driver prints that there is nothing
    to import and returns [None] at once, whatever the script and the
    server: the trace gains the entry into the driver and that message,
    no request is sent (no init, no upload, no ingest, no poll), no
    database is looked up, and nothing sleeps. *)
Theorem empty_batch_is_not_imported
    (sc : script) (fuel : nat) (sv : server) (table_name : string) (st : state) :
  let run := d1_bulk_import sc fuel sv table_name [] st in
  fst run = Ret VNone
  /\ trace (snd run)
     = (trace st ++ [Invoke table_name []; Print (NoStatements table_name)])%list
  /\ requests (trace (snd run)) = requests (trace st)
  /\ count_sleeps (trace (snd run)) = count_sleeps (trace st)
  /\ ~ In Lookup [Invoke table_name []; Print (NoStatements table_name)]
  /\ jobs (snd run) = jobs st.
Proof.
  intros run.
  assert (Hrun : run = (Ret VNone,
                        State (trace st ++ [Invoke table_name [];
                                            Print (NoStatements table_name)])
                              (jobs st) None)).
  { unfold run, d1_bulk_import, bind, enter, print, emit.
    cbn [trace jobs init_response_var]. rewrite <- app_assoc. reflexivity. }
  rewrite Hrun. cbn [fst snd trace jobs].
  rewrite requests_app, count_sleeps_app. cbn [requests count_sleeps].
  rewrite app_nil_r, Nat.add_0_r.
  repeat split; try reflexivity.
  intros [H | [H | []]]; discriminate.
Qed.

(** C3: when the init request has been answered and the tag the upload
    echoes (its [ETag] without the double quotes) is not the MD5 of the
    payload, the job fails: the driver has sent the init request and the
    upload and nothing else (no ingest request, no poll), it reports one
    outcome, the failure with the mismatch as its cause, and returns. *)
Theorem etag_mismatch_fails_before_ingest
    (sc : script) (fuel : nat) (sv : server) (table_name : string)
    (sql_statements : list string) (st : state) (upload_url filename : json)
    (tag : string) :
  let data := payload sql_statements in
  let hash_str := MD5.hexdigest data in
  sql_statements <> [] ->
  database_found sc sv ->
  init_ok sv hash_str upload_url filename ->
  upload_tag sv upload_url data tag ->
  tag <> hash_str ->
  let run := d1_bulk_import sc fuel sv table_name sql_statements st in
  let failure := UnexpectedError table_name (etag_mismatch hash_str tag) in
  exists evs,
    fst run = Ret VNone
    /\ trace (snd run) = (trace st ++ evs)%list
    /\ evs = (opening sc table_name sql_statements
              ++ [Request (ReqInit hash_str); Request (ReqUpload upload_url data);
                  Print failure])%list
    /\ requests evs = [ReqInit hash_str; ReqUpload upload_url data]
    /\ List.filter is_ingest (requests evs) = []
    /\ List.filter is_poll (requests evs) = []
    /\ outcomes evs = [FAILED failure].
Proof.
  intros data hash_str Hne Hdb Hinit Htag Hneq run failure.
  destruct (init_upload_ok sv hash_str upload_url filename
              (job_start sc table_name sql_statements st) Hinit) as (r0 & _ & Hrun1).
  pose proof (upload_to_r2_tag sv upload_url data hash_str tag
                (State (trace (job_start sc table_name sql_statements st)
                        ++ [Request (ReqInit hash_str)])
                       (jobs (job_start sc table_name sql_statements st)) (Some r0))
                Htag) as Hrun2.
  apply String.eqb_neq in Hneq. rewrite Hneq in Hrun2.
  assert (Hp : protocol sc fuel sv table_name data hash_str
                 (job_start sc table_name sql_statements st)
               = (Raise (etag_mismatch hash_str tag),
                  State ((trace st ++ opening sc table_name sql_statements)
                         ++ [Request (ReqInit hash_str); Request (ReqUpload upload_url data)])
                        (jobs st) (Some r0))).
  { unfold protocol. rewrite (bind_ret _ _ _ _ _ Hrun1). cbv beta iota.
    rewrite (bind_raise _ _ _ _ _ Hrun2).
    unfold log, job_start. cbn [trace jobs init_response_var].
    rewrite <- !app_assoc. reflexivity. }
  pose proof (d1_bulk_import_outcome sc fuel sv table_name sql_statements st _ _
                Hne Hdb Hp) as Hd.
  cbv beta iota in Hd.
  unfold etag_mismatch at 1 in Hd. cbn [handlers] in Hd.
  unfold bind, print in Hd. rewrite emit_log in Hd.
  fold (etag_mismatch hash_str tag) in Hd. fold failure in Hd.
  exists (opening sc table_name sql_statements
          ++ [Request (ReqInit hash_str); Request (ReqUpload upload_url data);
              Print failure])%list.
  unfold run. rewrite Hd. unfold log. cbn [fst snd trace].
  destruct (opening_shape sc table_name sql_statements) as (Hreq & Hout & _).
  rewrite requests_app, outcomes_app, Hreq, Hout.
  repeat split; try reflexivity.
  rewrite <- !app_assoc. reflexivity.
Qed.

Lemma etag_mismatch_fails_before_ingest_witness :
  outcomes (trace (snd (d1_bulk_import MontrealOpendata 3 corrupting "poles"
                          ["INSERT OR REPLACE INTO poles (pole_id) VALUES ('P1')"]
                          initial)))
  = [FAILED (UnexpectedError "poles"
       (etag_mismatch "a539e3979a20d3754645d95bc8ec5569" "aac15d2fb36eed951e15e3de14699fac"))].
Proof.
  destruct (etag_mismatch_fails_before_ingest MontrealOpendata 3 corrupting "poles"
              ["INSERT OR REPLACE INTO poles (pole_id) VALUES ('P1')"] initial
              (JStr "https://r2.example/upload") (JStr "import.sql")
              "aac15d2fb36eed951e15e3de14699fac")
    as (evs & _ & Ht & _ & _ & _ & _ & Hout).
  - discriminate.
  - intros H. discriminate H.
  - apply example_init_ok. reflexivity.
  - replace "aac15d2fb36eed951e15e3de14699fac"
      with (etag_of (echo_response
                       ("INSERT OR REPLACE INTO poles (pole_id) VALUES ('P1');" ++ " ")))
      by (vm_compute; reflexivity).
    apply example_upload_tag. reflexivity.
  - vm_compute. discriminate.
  - rewrite Ht. cbn [initial trace app]. vm_compute in Hout. vm_compute. exact Hout.
Defined.


Lemma in_outcomes (evs : list event) (m : message) (o : outcome) :
  In (Print m) evs -> outcome_of m = Some o -> In o (outcomes evs).
Proof.
  induction evs as [|ev evs IH]; intros Hin Ho; [contradiction |].
  destruct Hin as [-> | Hin].
  - cbn [outcomes]. rewrite Ho. now left.
  - specialize (IH Hin Ho).
    destruct ev; cbn [outcomes]; try assumption.
    destruct (outcome_of m0); [now right | assumption].
Qed.

(** A job that runs to the end of its polling, in the terms of the driver:
    the events of the call, with the one outcome it reports. *)
Lemma d1_bulk_import_polls_to_end (sc : script) (fuel : nat) (sv : server)
    (table_name : string) (sql_statements : list string) (st : state)
    (upload_url filename bookmark : json) (n : nat) (pr : json) (final : message) :
  sql_statements <> [] ->
  database_found sc sv ->
  init_ok sv (MD5.hexdigest (payload sql_statements)) upload_url filename ->
  upload_tag sv upload_url (payload sql_statements)
             (MD5.hexdigest (payload sql_statements)) ->
  ingest_ok sv (MD5.hexdigest (payload sql_statements)) filename bookmark ->
  (forall i, i < n -> exists pr', poll_answer sv i bookmark pr' /\ pending pr') ->
  poll_answer sv n bookmark pr ->
  n < fuel ->
  (succeeded pr /\ final = Completed table_name)
  \/ (reaped pr /\ final = Failed table_name (JStr not_importing)) ->
  exists evs,
    fst (d1_bulk_import sc fuel sv table_name sql_statements st) = Ret VNone
    /\ trace (snd (d1_bulk_import sc fuel sv table_name sql_statements st))
       = (trace st ++ evs ++ [Print final])%list
    /\ requests evs
       = ([ReqInit (MD5.hexdigest (payload sql_statements));
           ReqUpload upload_url (payload sql_statements);
           ReqIngest (MD5.hexdigest (payload sql_statements)) filename]
          ++ List.repeat (ReqPoll bookmark) (S n))%list
    /\ count_sleeps evs = n
    /\ outcomes evs = [].
Proof.
  intros Hne Hdb Hinit Htag Hingest Hpend Hans Hfuel Hfinal.
  destruct (protocol_polls_to_end sc fuel sv table_name (payload sql_statements)
              (MD5.hexdigest (payload sql_statements))
              (job_start sc table_name sql_statements st)
              upload_url filename bookmark n pr final
              Hinit Htag Hingest Hpend Hans Hfuel Hfinal)
    as (evs & s1 & Hp & Ht & _ & Hreq & Hsl & Hout).
  rewrite (d1_bulk_import_outcome sc fuel sv table_name sql_statements st _ _ Hne Hdb Hp).
  exists (opening sc table_name sql_statements ++ evs)%list.
  destruct (opening_shape sc table_name sql_statements) as (Hreq0 & Hout0 & Hsl0 & _).
  cbn [fst snd]. rewrite Ht, requests_app, count_sleeps_app, outcomes_app,
    Hreq0, Hout0, Hsl0, Hreq, Hsl, Hout.
  unfold job_start. cbn [trace]. rewrite <- !app_assoc.
  repeat split; reflexivity.
Qed.

(** C1 (as the code has it): when the polls of a job have been pending [n]
    times and the next one is answered with [success] false and the error
    [Not currently importing anything.], the driver stops polling: it has
    sent [n + 1] polls and slept [n] times, and it returns [None].  The
    outcome it reports for the batch is the failure that carries that error;
    the message of a completed import is not printed. *)
Theorem not_importing_ends_polling_as_failure
    (sc : script) (fuel : nat) (sv : server) (table_name : string)
    (sql_statements : list string) (st : state)
    (upload_url filename bookmark : json) (n : nat) (pr : json) :
  let data := payload sql_statements in
  let hash_str := MD5.hexdigest data in
  sql_statements <> [] ->
  database_found sc sv ->
  init_ok sv hash_str upload_url filename ->
  upload_tag sv upload_url data hash_str ->
  ingest_ok sv hash_str filename bookmark ->
  (forall i, i < n -> exists pr', poll_answer sv i bookmark pr' /\ pending pr') ->
  poll_answer sv n bookmark pr ->
  reaped pr ->
  n < fuel ->
  let run := d1_bulk_import sc fuel sv table_name sql_statements st in
  exists evs,
    fst run = Ret VNone
    /\ trace (snd run) = (trace st ++ evs)%list
    /\ requests evs
       = ([ReqInit hash_str; ReqUpload upload_url data; ReqIngest hash_str filename]
          ++ List.repeat (ReqPoll bookmark) (S n))%list
    /\ count_sleeps evs = n
    /\ outcomes evs = [FAILED (Failed table_name (JStr not_importing))]
    /\ ~ In (Print (Completed table_name)) evs.
Proof.
  intros data hash_str Hne Hdb Hinit Htag Hingest Hpend Hans Hreaped Hfuel run.
  destruct (d1_bulk_import_polls_to_end sc fuel sv table_name sql_statements st
              upload_url filename bookmark n pr
              (Failed table_name (JStr not_importing))
              Hne Hdb Hinit Htag Hingest Hpend Hans Hfuel)
    as (evs & Hret & Ht & Hreq & Hsl & Hout).
  { right. split; [assumption | reflexivity]. }
  exists (evs ++ [Print (Failed table_name (JStr not_importing))])%list.
  assert (Houts : outcomes (evs ++ [Print (Failed table_name (JStr not_importing))])
                  = [FAILED (Failed table_name (JStr not_importing))]).
  { rewrite outcomes_app, Hout. reflexivity. }
  unfold run. rewrite requests_app, count_sleeps_app, Hreq, Hsl.
  cbn [requests count_sleeps]. rewrite app_nil_r, Nat.add_0_r.
  repeat split; try assumption.
  intros Hin.
  pose proof (in_outcomes _ _ SUCCEEDED Hin eq_refl) as Habs.
  rewrite Houts in Habs. destruct Habs as [Habs | []]. discriminate.
Qed.

Lemma not_importing_ends_polling_as_failure_witness :
  outcomes (trace (snd (d1_bulk_import DigitalAssets 4 reaping "sign_definitions"
                          ["INSERT OR REPLACE INTO sign_definitions (sign_code) VALUES ('P-010')"]
                          initial)))
  = [FAILED (Failed "sign_definitions" (JStr "Not currently importing anything."))].
Proof.
  destruct (not_importing_ends_polling_as_failure DigitalAssets 4 reaping "sign_definitions"
              ["INSERT OR REPLACE INTO sign_definitions (sign_code) VALUES ('P-010')"]
              initial (JStr "https://r2.example/upload") (JStr "import.sql")
              (JStr "bookmark-0") 0
              (JObj [("success", JBool false); ("error", JStr not_importing)]))
    as (evs & _ & Ht & _ & _ & Hout & _).
  - discriminate.
  - intros _. exists "0000-0000". reflexivity.
  - apply example_init_ok. reflexivity.
  - replace (MD5.hexdigest
               (payload ["INSERT OR REPLACE INTO sign_definitions (sign_code) VALUES ('P-010')"]))
      with (etag_of (echo_response
               (payload ["INSERT OR REPLACE INTO sign_definitions (sign_code) VALUES ('P-010')"])))
      by (vm_compute; reflexivity).
    apply example_upload_tag. reflexivity.
  - apply example_ingest_ok. reflexivity.
  - intros i Hi. inversion Hi.
  - apply example_poll_error. reflexivity.
  - apply example_reaped.
  - lia.
  - rewrite Ht. exact Hout.
Defined.

(** C1 as the spec states it fails: answered with the sentinel on the first
    poll, the driver (of either kind) returns after that one poll, and the
    outcome it reports is a failure, not a success. *)
Lemma not_importing_is_not_reported_as_success :
  outcomes (trace (snd (d1_bulk_import MontrealOpendata 4 reaping "poles"
                          ["INSERT OR REPLACE INTO poles (pole_id) VALUES ('P1')"] initial)))
  = [FAILED (Failed "poles" (JStr "Not currently importing anything."))]
  /\ outcomes (trace (snd (d1_bulk_import MontrealOpendata 4 reaping "poles"
                             ["INSERT OR REPLACE INTO poles (pole_id) VALUES ('P1')"] initial)))
     <> [SUCCEEDED]
  /\ outcomes (trace (snd (d1_bulk_import MontrealOpendata 4 (healthy 0) "poles"
                             ["INSERT OR REPLACE INTO poles (pole_id) VALUES ('P1')"] initial)))
     = [SUCCEEDED]
  /\ List.length
       (List.filter is_poll
          (requests (trace (snd (d1_bulk_import MontrealOpendata 4 reaping "poles"
                                   ["INSERT OR REPLACE INTO poles (pole_id) VALUES ('P1')"]
                                   initial)))))
     = 1
  /\ outcomes (trace (snd (d1_bulk_import DigitalAssets 4 reaping "sign_definitions"
                             ["INSERT OR REPLACE INTO sign_definitions (sign_code) VALUES ('P-010')"]
                             initial)))
     = [FAILED (Failed "sign_definitions" (JStr "Not currently importing anything."))].
Proof.
  repeat split; try (vm_compute; reflexivity).
  vm_compute. discriminate.
Qed.

(** The twin of C1 for a poll that reports success. *)
Lemma success_ends_polling
    (sc : script) (fuel : nat) (sv : server) (table_name : string)
    (sql_statements : list string) (st : state)
    (upload_url filename bookmark : json) (n : nat) (pr : json) :
  sql_statements <> [] ->
  database_found sc sv ->
  init_ok sv (MD5.hexdigest (payload sql_statements)) upload_url filename ->
  upload_tag sv upload_url (payload sql_statements)
             (MD5.hexdigest (payload sql_statements)) ->
  ingest_ok sv (MD5.hexdigest (payload sql_statements)) filename bookmark ->
  (forall i, i < n -> exists pr', poll_answer sv i bookmark pr' /\ pending pr') ->
  poll_answer sv n bookmark pr ->
  succeeded pr ->
  n < fuel ->
  fst (d1_bulk_import sc fuel sv table_name sql_statements st) = Ret VNone
  /\ outcomes (trace (snd (d1_bulk_import sc fuel sv table_name sql_statements st)))
     = (outcomes (trace st) ++ [SUCCEEDED])%list.
Proof.
  intros Hne Hdb Hinit Htag Hingest Hpend Hans Hs Hfuel.
  destruct (d1_bulk_import_polls_to_end sc fuel sv table_name sql_statements st
              upload_url filename bookmark n pr (Completed table_name)
              Hne Hdb Hinit Htag Hingest Hpend Hans Hfuel)
    as (evs & Hret & Ht & _ & _ & Hout).
  { left. split; [assumption | reflexivity]. }
  split; [assumption |].
  rewrite Ht, !outcomes_app, Hout. reflexivity.
Qed.



(** ** The loops of the callers *)

(** One turn of the open-data loop on a row that yields a statement. *)
Lemma poles_loop_statement (fuel : nat) (world : nat -> server) (table_name : string)
    (batch_size : Z) (s : string) (rest : list (exn + string)) (stop : option exn)
    (i : nat) (batch : list string) (st : state) :
  poles_loop fuel world table_name batch_size (inr s :: rest) stop i batch st
  = if (Z.of_nat (List.length (batch ++ [s])) >=? batch_size)%Z
    then match d1_bulk_import MontrealOpendata fuel (world (jobs st)) table_name
                 (batch ++ [s])
                 (State (trace st) (S (jobs st)) (init_response_var st)) with
         | (Ret _, sd) => poles_loop fuel world table_name batch_size rest stop (S i) [] sd
         | (Raise e, sd) =>
             (print (RowError (S i) e) ;;
              poles_loop fuel world table_name batch_size rest stop (S i) (batch ++ [s]))
               sd
         | (OutOfFuel, sd) => (OutOfFuel, sd)
         end
    else poles_loop fuel world table_name batch_size rest stop (S i) (batch ++ [s]) st.
Proof.
  cbn [poles_loop].
  destruct (Z.of_nat (List.length (batch ++ [s])) >=? batch_size)%Z; [| reflexivity].
  unfold bind at 1, try_except, bind at 1 2, next_server, ret.
  destruct (d1_bulk_import _ _ _ _ _ _) as [[v | e |] sd]; reflexivity.
Qed.

Lemma poles_loop_raises (fuel : nat) (world : nat -> server) (table_name : string)
    (batch_size : Z) (e : exn) (rest : list (exn + string)) (stop : option exn)
    (i : nat) (batch : list string) (st : state) :
  poles_loop fuel world table_name batch_size (inl e :: rest) stop i batch st
  = poles_loop fuel world table_name batch_size rest stop (S i) batch
      (log [Print (RowError (S i) e)] st).
Proof. reflexivity. Qed.

Lemma poles_loop_end (fuel : nat) (world : nat -> server) (table_name : string)
    (batch_size : Z) (stop : option exn) (i : nat) (batch : list string) (st : state) :
  poles_loop fuel world table_name batch_size [] stop i batch st
  = (loop_end stop batch, st).
Proof. destruct stop; reflexivity. Qed.

(** The loop hands to the driver, in order, the batches the batcher forms,
    and is left with the batch the batcher is left with, or with the
    exception of the reader, whatever the servers answer, unless a job is
    still polling when the fuel runs out. *)
Lemma poles_loop_invocations (fuel : nat) (world : nat -> server) (table_name : string)
    (batch_size : Z) (rows : list (exn + string)) (stop : option exn) :
  forall (i : nat) (batch : list string) (st : state),
    fst (poles_loop fuel world table_name batch_size rows stop i batch st) = OutOfFuel
    \/ (fst (poles_loop fuel world table_name batch_size rows stop i batch st)
        = loop_end stop (snd (batcher_loop batch_size (added rows) batch))
        /\ invocations (trace (snd (poles_loop fuel world table_name batch_size rows stop i
                                               batch st)))
           = (invocations (trace st)
              ++ fst (batcher_loop batch_size (added rows) batch))%list).
Proof.
  induction rows as [|[e | s] rest IH]; intros i batch st.
  - right. rewrite poles_loop_end. cbn. now rewrite app_nil_r.
  - rewrite poles_loop_raises. cbn [added].
    destruct (IH (S i) batch (log [Print (RowError (S i) e)] st)) as [Hf | (Hr & Hi)];
      [now left | right].
    split; [exact Hr |]. rewrite Hi. unfold log. cbn [trace].
    rewrite invocations_app. cbn [invocations]. now rewrite app_nil_r.
  - rewrite poles_loop_statement. cbn [added batcher_loop].
    destruct (Z.of_nat (List.length (batch ++ [s])) >=? batch_size)%Z; [| apply IH].
    pose proof (d1_bulk_import_no_raise MontrealOpendata fuel (world (jobs st)) table_name
                  (batch ++ [s])%list
                  (State (trace st) (S (jobs st)) (init_response_var st)) eq_refl) as Hres.
    destruct (d1_bulk_import_frame MontrealOpendata fuel (world (jobs st)) table_name
                (batch ++ [s])%list
                (State (trace st) (S (jobs st)) (init_response_var st)))
      as (evs & Ht & Hinv & _).
    destruct (d1_bulk_import _ _ _ _ _ _) as [[v | e |] sd]; cbn [fst snd] in *.
    + destruct (IH (S i) [] sd) as [Hf | (Hr & Hi)]; [now left | right].
      destruct (batcher_loop batch_size (added rest) []) as [submitted final].
      cbn [fst snd] in *. split; [exact Hr |].
      rewrite Hi, Ht. cbn [trace]. rewrite invocations_app. cbn [invocations].
      rewrite Hinv, <- app_assoc. reflexivity.
    + destruct Hres; discriminate.
    + now left.
Qed.

(** Every batch of the open-data run reaches the driver once, in order,
    when the file is read to its end. *)
Lemma ingest_poles_data_invocations (fuel : nat) (world : nat -> server)
    (batch_size : Z) (rows : list (exn + string)) (st : state) :
  fst (ingest_poles_data fuel world batch_size (Reader rows None) st) = OutOfFuel
  \/ (fst (ingest_poles_data fuel world batch_size (Reader rows None) st) = Ret VNone
      /\ invocations (trace (snd (ingest_poles_data fuel world batch_size
                                                     (Reader rows None) st)))
         = (invocations (trace st) ++ batcher batch_size (added rows))%list).
Proof.
  remember (ingest_poles_data fuel world batch_size (Reader rows None) st) as run eqn:Hrun.
  unfold ingest_poles_data in Hrun. cbn [rows_of stops_with] in Hrun.
  unfold bind at 1, print in Hrun. rewrite emit_log in Hrun. unfold bind at 1 in Hrun.
  unfold batcher.
  destruct (poles_loop_invocations fuel world "poles" batch_size rows None 0 []
              (log [Print (Banner "Ingesting Poles Data")] st)) as [Hf | (Hr & Hi)].
  - left. destruct (poles_loop _ _ _ _ _ _ _ _ _) as [r s1]. cbn [fst] in Hf.
    subst r. subst run. reflexivity.
  - destruct (poles_loop _ _ _ _ _ _ _ _ _) as [r s1]. cbn [fst snd loop_end] in Hr, Hi.
    subst r.
    destruct (batcher_loop batch_size (added rows) []) as [submitted final].
    cbn [fst snd] in *.
    assert (Hi' : invocations (trace s1) = (invocations (trace st) ++ submitted)%list).
    { rewrite Hi. unfold log. cbn [trace]. rewrite invocations_app.
      cbn [invocations]. now rewrite app_nil_r. }
    destruct final as [|s final].
    + right. unfold bind, ret, print in Hrun. rewrite emit_log in Hrun. subst run.
      cbn [fst snd log trace]. split; [reflexivity |].
      rewrite invocations_app, Hi'. cbn [invocations]. now rewrite app_nil_r.
    + unfold bind at 1 2, next_server in Hrun.
      pose proof (d1_bulk_import_no_raise MontrealOpendata fuel (world (jobs s1)) "poles"
                    (s :: final)
                    (State (trace s1) (S (jobs s1)) (init_response_var s1)) eq_refl) as Hres.
      destruct (d1_bulk_import_frame MontrealOpendata fuel (world (jobs s1)) "poles"
                  (s :: final)
                  (State (trace s1) (S (jobs s1)) (init_response_var s1)))
        as (evs & Ht & Hinv & _).
      destruct (d1_bulk_import _ _ _ _ _ _) as [[v | e |] sd]; cbn [fst snd] in *.
      * right. unfold bind, ret, print in Hrun. rewrite emit_log in Hrun. subst run.
        cbn [fst snd log trace]. split; [reflexivity |].
        rewrite invocations_app, Ht. cbn [trace invocations].
        rewrite invocations_app, Hi'. cbn [invocations].
        rewrite Hinv, !app_nil_r, <- ?app_assoc. reflexivity.
      * destruct Hres; discriminate.
      * left. subst run. reflexivity.
Qed.

(** When the reader stops with an exception, the run raises it: the batches
    formed inside the loop have reached the driver, the batch the loop was
    left with has not. *)
Lemma ingest_poles_data_stopped (fuel : nat) (world : nat -> server)
    (batch_size : Z) (rows : list (exn + string)) (e : exn) (st : state) :
  fst (ingest_poles_data fuel world batch_size (Reader rows (Some e)) st) = OutOfFuel
  \/ (fst (ingest_poles_data fuel world batch_size (Reader rows (Some e)) st) = Raise e
      /\ invocations (trace (snd (ingest_poles_data fuel world batch_size
                                                     (Reader rows (Some e)) st)))
         = (invocations (trace st) ++ fst (batcher_loop batch_size (added rows) []))%list).
Proof.
  remember (ingest_poles_data fuel world batch_size (Reader rows (Some e)) st)
    as run eqn:Hrun.
  unfold ingest_poles_data in Hrun. cbn [rows_of stops_with] in Hrun.
  unfold bind at 1, print in Hrun. rewrite emit_log in Hrun. unfold bind at 1 in Hrun.
  destruct (poles_loop_invocations fuel world "poles" batch_size rows (Some e) 0 []
              (log [Print (Banner "Ingesting Poles Data")] st)) as [Hf | (Hr & Hi)].
  - left. destruct (poles_loop _ _ _ _ _ _ _ _ _) as [r s1]. cbn [fst] in Hf.
    subst r. subst run. reflexivity.
  - destruct (poles_loop _ _ _ _ _ _ _ _ _) as [r s1]. cbn [fst snd loop_end] in Hr, Hi.
    subst r. subst run. right. cbn [fst snd]. split; [reflexivity |].
    rewrite Hi. unfold log. cbn [trace]. rewrite invocations_app.
    cbn [invocations]. now rewrite app_nil_r.
Qed.

Lemma assets_loop_statement (fuel : nat) (world : nat -> server) (table_name : string)
    (batch_size : Z) (s : string) (rest : list (exn + option string))
    (batch : list string) (st : state) :
  assets_loop fuel world table_name batch_size (inr (Some s) :: rest) batch st
  = if (Z.of_nat (List.length (batch ++ [s])) >=? batch_size)%Z
    then match d1_bulk_import DigitalAssets fuel (world (jobs st)) table_name
                 (batch ++ [s])
                 (State (trace st) (S (jobs st)) (init_response_var st)) with
         | (Ret _, sd) => assets_loop fuel world table_name batch_size rest [] sd
         | (Raise e, sd) => (Raise e, sd)
         | (OutOfFuel, sd) => (OutOfFuel, sd)
         end
    else assets_loop fuel world table_name batch_size rest (batch ++ [s]) st.
Proof.
  cbn [assets_loop].
  destruct (Z.of_nat (List.length (batch ++ [s])) >=? batch_size)%Z; [| reflexivity].
  unfold bind at 1 2 3, next_server, ret.
  destruct (d1_bulk_import _ _ _ _ _ _) as [[v | e |] sd]; reflexivity.
Qed.

(** The digital-assets loop: when it returns, it has handed over the
    batches the batcher forms from the rows that were not skipped. *)
Lemma assets_loop_invocations (fuel : nat) (world : nat -> server) (table_name : string)
    (batch_size : Z) (rows : list (exn + option string)) :
  forall (batch final : list string) (st : state),
    fst (assets_loop fuel world table_name batch_size rows batch st) = Ret final ->
    final = snd (batcher_loop batch_size (added_assets rows) batch)
    /\ invocations (trace (snd (assets_loop fuel world table_name batch_size rows batch st)))
       = (invocations (trace st)
          ++ fst (batcher_loop batch_size (added_assets rows) batch))%list.
Proof.
  induction rows as [|[e | [s |]] rest IH]; intros batch final st.
  - cbn. intros H. injection H as <-. now rewrite app_nil_r.
  - cbn. discriminate.
  - rewrite assets_loop_statement. cbn [added_assets batcher_loop].
    destruct (Z.of_nat (List.length (batch ++ [s])) >=? batch_size)%Z; [| apply IH].
    destruct (d1_bulk_import_frame DigitalAssets fuel (world (jobs st)) table_name
                (batch ++ [s])%list
                (State (trace st) (S (jobs st)) (init_response_var st)))
      as (evs & Ht & Hinv & _).
    destruct (d1_bulk_import _ _ _ _ _ _) as [[v | e |] sd]; cbn [fst snd] in *;
      try discriminate.
    intros H. destruct (IH [] final sd H) as (Hfin & Hi).
    destruct (batcher_loop batch_size (added_assets rest) []) as [submitted fin].
    cbn [fst snd] in *. split; [exact Hfin |].
    rewrite Hi, Ht. cbn [trace]. rewrite invocations_app. cbn [invocations].
    rewrite Hinv, <- app_assoc. reflexivity.
  - cbn [assets_loop added_assets]. apply IH.
Qed.

Lemma ingest_digital_assets_invocations (fuel : nat) (world : nat -> server)
    (batch_size : Z) (rows : list (exn + option string)) (st : state) (v : value) :
  fst (ingest_digital_assets fuel world batch_size rows st) = Ret v ->
  invocations (trace (snd (ingest_digital_assets fuel world batch_size rows st)))
  = (invocations (trace st) ++ batcher batch_size (added_assets rows))%list.
Proof.
  remember (ingest_digital_assets fuel world batch_size rows st) as run eqn:Hrun.
  unfold ingest_digital_assets in Hrun.
  unfold bind at 1, print in Hrun. rewrite emit_log in Hrun. unfold bind at 1 in Hrun.
  unfold batcher.
  pose proof (assets_loop_invocations fuel world "sign_definitions" batch_size rows []) as Hloop.
  specialize (fun final => Hloop final
                (log [Print (Banner "Starting Ingestion of Digital Assets")] st)).
  destruct (assets_loop _ _ _ _ _ _ _) as [[final | e |] s1]; cbn [fst snd] in *;
    try (subst run; discriminate).
  destruct (Hloop final eq_refl) as (Hfin & Hi).
  destruct (batcher_loop batch_size (added_assets rows) []) as [submitted fin].
  cbn [fst snd] in *. subst fin.
  assert (Hi' : invocations (trace s1) = (invocations (trace st) ++ submitted)%list).
  { rewrite Hi. unfold log. cbn [trace]. rewrite invocations_app.
    cbn [invocations]. now rewrite app_nil_r. }
  destruct final as [|s final].
  - unfold bind, ret, print in Hrun. rewrite emit_log in Hrun. subst run.
    cbn [fst snd log trace]. intros _.
    rewrite invocations_app, Hi'. cbn [invocations]. now rewrite app_nil_r.
  - unfold bind at 1 2, next_server in Hrun.
    destruct (d1_bulk_import_frame DigitalAssets fuel (world (jobs s1)) "sign_definitions"
                (s :: final)
                (State (trace s1) (S (jobs s1)) (init_response_var s1)))
      as (evs & Ht & Hinv & _).
    destruct (d1_bulk_import _ _ _ _ _ _) as [[v' | e |] sd]; cbn [fst snd] in *;
      try (subst run; discriminate).
    unfold bind, ret, print in Hrun. rewrite emit_log in Hrun. subst run.
    cbn [fst snd log trace]. intros _.
    rewrite invocations_app, Ht. cbn [trace invocations].
    rewrite invocations_app, Hi'. cbn [invocations].
    rewrite Hinv, !app_nil_r, <- ?app_assoc. reflexivity.
Qed.


(** ** Runs that end *)

(** [c] does not run out of fuel. *)
Section Ends.

Context {A B : Type}.

Lemma ends_ret (a : A) : ends (ret a).
Proof. intros st. discriminate. Qed.

Lemma ends_raise (e : exn) : ends (@raise A e).
Proof. intros st. discriminate. Qed.

Lemma ends_bind (c : M A) (k : A -> M B) :
  ends c -> (forall a, ends (k a)) -> ends (bind c k).
Proof.
  intros Hc Hk st. specialize (Hc st). unfold bind.
  destruct (c st) as [[a | e |] s1]; cbn [fst] in *;
    [apply Hk | discriminate | contradiction].
Qed.

Lemma ends_try_except (body : M A) (handler : exn -> M A) :
  ends body -> (forall e, ends (handler e)) -> ends (try_except body handler).
Proof.
  intros Hb Hh st. specialize (Hb st). unfold try_except.
  destruct (body st) as [[a | e |] s1]; cbn [fst] in *;
    [discriminate | apply Hh | contradiction].
Qed.

Lemma ends_lift (r : exn + A) : ends (lift r).
Proof. destruct r; [apply ends_raise | apply ends_ret]. Qed.

Lemma ends_if (b : bool) (c1 c2 : M A) : ends c1 -> ends c2 -> ends (if b then c1 else c2).
Proof. destruct b; auto. Qed.

End Ends.

Lemma ends_emit (ev : event) : ends (emit ev).
Proof. intros st. discriminate. Qed.

Lemma ends_http (rq : request) (reply : string + response) : ends (http rq reply).
Proof.
  unfold http. apply ends_bind; [apply ends_emit |].
  intros _. destruct reply; [apply ends_raise | apply ends_ret].
Qed.

Lemma ends_raise_for_status (r : response) : ends (raise_for_status r).
Proof. unfold raise_for_status. apply ends_if; [apply ends_raise | apply ends_ret]. Qed.

Lemma ends_set_init_response (r : response) : ends (set_init_response r).
Proof. intros st. discriminate. Qed.

Lemma ends_read_init_response : ends read_init_response.
Proof.
  intros st. unfold read_init_response. destruct (init_response_var st); discriminate.
Qed.

Lemma ends_next_server (world : nat -> server) : ends (next_server world).
Proof. intros st. discriminate. Qed.

Ltac ends_step :=
  match goal with
  | |- ends (bind _ _) => apply ends_bind; [| intros ?]
  | |- ends (try_except _ _) => apply ends_try_except; [| intros ?]
  | |- ends (if _ then _ else _) => apply ends_if
  | |- ends (ret _) => apply ends_ret
  | |- ends (raise _) => apply ends_raise
  | |- ends (lift _) => apply ends_lift
  | |- ends (subscript _ _) => apply ends_lift
  | |- ends (raise_for_status _) => apply ends_raise_for_status
  | |- ends (set_init_response _) => apply ends_set_init_response
  | |- ends read_init_response => apply ends_read_init_response
  | |- ends (next_server _) => apply ends_next_server
  | |- ends (print _) => apply ends_emit
  | |- ends (emit _) => apply ends_emit
  | |- ends (http _ _) => apply ends_http
  | |- ends (match ?x with _ => _ end) => destruct x
  end.

Ltac ends_chain := cbv zeta; repeat ends_step.

Lemma ends_poll_done (poll_result : json) : ends (poll_done poll_result).
Proof. unfold poll_done. ends_chain. Qed.

(** A poll that is pending is answered by a pending result object, and
    conversely. *)
Lemma poll_pending_answer (sv : server) (k : nat) (bookmark : json) :
  poll_pending sv k bookmark = true <->
  exists pr, poll_answer sv k bookmark pr /\ pending pr.
Proof.
  unfold poll_pending, poll_answer, answered, pending. split.
  - destruct (post_poll sv k bookmark) as [msg | r]; [discriminate |].
    destruct (http_error r) eqn:Herr; [discriminate |].
    destruct (json_body r) as [e | body] eqn:Hbody; [discriminate |].
    destruct (getitem body "result") as [e | pr] eqn:Hres; [discriminate |].
    destruct (getitem pr "success") as [e | success] eqn:Hs; [discriminate |].
    destruct (truthy success) eqn:Ht; [discriminate |].
    destruct (getitem pr "error") as [e | error] eqn:He; [discriminate |].
    intros Hne. apply negb_true_iff in Hne.
    exists pr. split.
    + exists body. split; [| exact Hres]. exists r. auto.
    + exists success, error. auto.
  - intros (pr & (body & (r & -> & Herr & Hbody) & Hres)
               & (success & error & Hs & Ht & He & Hne)).
    now rewrite Herr, Hbody, Hres, Hs, Ht, He, Hne.
Qed.

(** A poll that is not pending ends the loop. *)
Lemma poll_loop_last (sc : script) (fuel : nat) (sv : server) (bookmark : json)
    (k : nat) (st : state) :
  poll_pending sv k bookmark = false ->
  fst (poll_loop sc (S fuel) sv bookmark k st) <> OutOfFuel.
Proof.
  unfold poll_pending. cbn [poll_loop].
  unfold poll_done, http, raise_for_status, subscript, lift, print, bind, emit, raise, ret.
  destruct (post_poll sv k bookmark) as [msg | r]; cbv beta iota;
    [intros _; cbn [fst]; discriminate |].
  destruct (http_error r); cbv beta iota; [intros _; cbn [fst]; discriminate |].
  destruct (json_body r) as [e | body]; cbv beta iota;
    [intros _; cbn [fst]; discriminate |].
  destruct (getitem body "result") as [e | pr]; cbv beta iota;
    [intros _; cbn [fst]; discriminate |].
  destruct (is_digital_assets sc); cbv beta iota;
    (destruct (getitem pr "success") as [e | success]; cbv beta iota;
       [intros _; cbn [fst]; discriminate |];
     destruct (truthy success); cbn [negb]; cbv beta iota;
       [intros _; cbn [fst]; discriminate |];
     destruct (getitem pr "error") as [e | error]; cbv beta iota;
       [intros _; cbn [fst]; discriminate |];
     intros Hne; apply negb_false_iff in Hne; rewrite Hne; cbv beta iota;
     cbn [fst]; discriminate).
Qed.

(** The loop ends when one of the polls it is allowed is not pending. *)
Lemma ends_poll_loop (sc : script) (sv : server) (bookmark : json) :
  forall (fuel k : nat),
    (exists n, k <= n < k + fuel /\ poll_pending sv n bookmark = false) ->
    ends (poll_loop sc fuel sv bookmark k).
Proof.
  induction fuel as [|fuel IH]; intros k (n & Hn & Hp) st; [lia |].
  destruct (poll_pending sv k bookmark) eqn:Hk.
  - destruct (proj1 (poll_pending_answer sv k bookmark) Hk) as (pr & Hans & Hpr).
    rewrite (poll_loop_answered sc fuel sv bookmark k pr st Hans).
    rewrite (bind_ret _ _ _ _ _ (poll_done_pending pr _ Hpr)).
    unfold bind at 1. rewrite emit_log.
    apply IH. exists n. split; [| exact Hp].
    assert (n <> k) by (intros ->; congruence).
    lia.
  - now apply poll_loop_last.
Qed.

Lemma ends_protocol (sc : script) (fuel : nat) (sv : server)
    (table_name data hash_str : string) :
  settles fuel sv -> ends (protocol sc fuel sv table_name data hash_str).
Proof.
  intros Hs.
  assert (Hl : forall b, ends (poll_loop sc fuel sv b 0)).
  { intros b. apply ends_poll_loop. destruct (Hs b) as (n & Hn & Hp).
    exists n. split; [lia | exact Hp]. }
  unfold protocol, init_upload, upload_to_r2, start_ingestion, polling.
  ends_chain; auto.
Qed.

(** A call of the driver ends when the polls of its server settle. *)
Lemma ends_d1_bulk_import (sc : script) (fuel : nat) (sv : server)
    (table_name : string) (sql_statements : list string) :
  settles fuel sv -> ends (d1_bulk_import sc fuel sv table_name sql_statements).
Proof.
  intros Hs. pose proof (ends_protocol sc fuel sv table_name) as Hp.
  unfold d1_bulk_import.
  apply ends_bind; [intros st; discriminate |].
  intros _. unfold lookup_database, handlers. ends_chain; auto.
Qed.

(** The driver of the open-data and real-photo scripts returns [None] when
    the polls of its server settle, whatever else the server answers. *)
Lemma d1_bulk_import_returns (sc : script) (fuel : nat) (sv : server)
    (table_name : string) (sql_statements : list string) (st : state) :
  is_digital_assets sc = false ->
  settles fuel sv ->
  fst (d1_bulk_import sc fuel sv table_name sql_statements st) = Ret VNone.
Proof.
  intros Hsc Hs.
  destruct (d1_bulk_import_no_raise sc fuel sv table_name sql_statements st Hsc)
    as [H | H]; [exact H |].
  now apply ends_d1_bulk_import in H.
Qed.


(** ** Outcomes are printed last *)

Section Quiet.

Context {A B : Type}.

Lemma quiet_ret (a : A) : quiet (ret a).
Proof. intros st. exists []. now rewrite app_nil_r. Qed.

Lemma quiet_raise (e : exn) : quiet (@raise A e).
Proof. intros st. exists []. now rewrite app_nil_r. Qed.

Lemma quiet_out_of_fuel : quiet (@out_of_fuel A).
Proof. intros st. exists []. now rewrite app_nil_r. Qed.

Lemma quiet_bind (c : M A) (k : A -> M B) :
  quiet c -> (forall a, quiet (k a)) -> quiet (bind c k).
Proof.
  intros Hc Hk st. destruct (Hc st) as (e1 & Ht1 & Ho1). unfold bind.
  destruct (c st) as [[a | e | ] st']; cbn [snd] in *; try (exists e1; now split).
  destruct (Hk a st') as (e2 & Ht2 & Ho2).
  exists (e1 ++ e2)%list. rewrite Ht2, Ht1, app_assoc, outcomes_app, Ho1, Ho2. now split.
Qed.

Lemma quiet_lift (r : exn + A) : quiet (lift r).
Proof. destruct r; [apply quiet_raise | apply quiet_ret]. Qed.

Lemma quiet_if (b : bool) (c1 c2 : M A) :
  quiet c1 -> quiet c2 -> quiet (if b then c1 else c2).
Proof. destruct b; auto. Qed.

Lemma quiet_then_returned (c : M A) (k : A -> M B) :
  quiet c -> (forall a, quiet_unless_returned (k a)) -> quiet_unless_returned (bind c k).
Proof.
  intros Hc Hk st. destruct (Hc st) as (e1 & Ht1 & Ho1). unfold bind.
  destruct (c st) as [[a | e | ] st']; cbn [fst snd] in *;
    try (left; exists e1; now split).
  destruct (Hk a st') as [(e2 & Ht2 & Ho2) | (b & Hb)].
  - left. exists (e1 ++ e2)%list.
    rewrite Ht2, Ht1, app_assoc, outcomes_app, Ho1, Ho2. now split.
  - right. now exists b.
Qed.

Lemma quiet_is_quiet_unless_returned (c : M A) : quiet c -> quiet_unless_returned c.
Proof. intros Hc st. left. apply Hc. Qed.

End Quiet.

Lemma quiet_emit (ev : event) : outcomes [ev] = [] -> quiet (emit ev).
Proof. intros H st. exists [ev]. now split. Qed.

Lemma quiet_http (rq : request) (reply : string + response) : quiet (http rq reply).
Proof.
  unfold http. apply quiet_bind; [apply quiet_emit; reflexivity |].
  intros _. destruct reply; [apply quiet_raise | apply quiet_ret].
Qed.

Lemma quiet_raise_for_status (r : response) : quiet (raise_for_status r).
Proof. unfold raise_for_status. apply quiet_if; [apply quiet_raise | apply quiet_ret]. Qed.

Lemma quiet_subscript (j : json) (key : string) : quiet (subscript j key).
Proof. apply quiet_lift. Qed.

Lemma quiet_set_init_response (r : response) : quiet (set_init_response r).
Proof. intros st. exists []. cbn. now rewrite app_nil_r. Qed.

Lemma printed_returned (m : message) : quiet_unless_returned (print m).
Proof. intros st. right. now exists tt. Qed.

Create HintDb quiet.

#[local] Hint Resolve quiet_ret quiet_raise quiet_out_of_fuel quiet_lift quiet_http
  quiet_raise_for_status quiet_subscript quiet_set_init_response : quiet.

Ltac quiet_step :=
  match goal with
  | |- quiet (bind _ _) => apply quiet_bind; [| intros ?]
  | |- quiet (if _ then _ else _) => apply quiet_if
  | |- quiet (emit _) => apply quiet_emit; reflexivity
  | |- quiet (print _) => apply quiet_emit; reflexivity
  | |- quiet _ => solve [auto with quiet]
  end.

Ltac quiet_chain := cbv zeta; repeat quiet_step.

Lemma quiet_poll_done (poll_result : json) : quiet (poll_done poll_result).
Proof. unfold poll_done. quiet_chain. Qed.

Lemma quiet_poll_loop (sc : script) (fuel : nat) (sv : server) (bookmark : json) (k : nat) :
  quiet (poll_loop sc fuel sv bookmark k).
Proof.
  revert k. induction fuel as [|fuel IH]; intros k; cbn [poll_loop].
  - apply quiet_out_of_fuel.
  - pose proof quiet_poll_done. quiet_chain; auto.
Qed.

Lemma quiet_init_upload (sv : server) (hash_str : string) : quiet (init_upload sv hash_str).
Proof. unfold init_upload. quiet_chain. Qed.

Lemma quiet_upload_to_r2 (sv : server) (upload_url : json) (data hash_str : string) :
  quiet (upload_to_r2 sv upload_url data hash_str).
Proof. unfold upload_to_r2. quiet_chain. Qed.

Lemma quiet_start_ingestion (sc : script) (sv : server) (hash_str : string)
    (filename : json) :
  quiet (start_ingestion sc sv hash_str filename).
Proof. unfold start_ingestion. quiet_chain. Qed.

Lemma polling_reports_at_end (sc : script) (fuel : nat) (sv : server)
    (table_name : string) (ingest_data : json) :
  quiet_unless_returned (polling sc fuel sv table_name ingest_data).
Proof.
  unfold polling.
  apply quiet_then_returned; [apply quiet_subscript |]. intros result.
  apply quiet_then_returned; [apply quiet_subscript |]. intros bookmark.
  apply quiet_then_returned; [apply quiet_poll_loop |]. intros poll_result.
  apply quiet_then_returned; [apply quiet_subscript |]. intros success.
  destruct (truthy success); [apply printed_returned |].
  apply quiet_then_returned; [apply quiet_subscript |]. intros error.
  apply printed_returned.
Qed.

(** The [try] block prints an outcome only as its last step. *)
Lemma protocol_reports_at_end (sc : script) (fuel : nat) (sv : server)
    (table_name data hash_str : string) :
  quiet_unless_returned (protocol sc fuel sv table_name data hash_str).
Proof.
  unfold protocol.
  apply quiet_then_returned; [apply quiet_init_upload |]. intros [upload_url filename].
  apply quiet_then_returned; [apply quiet_upload_to_r2 |]. intros _.
  apply quiet_then_returned; [apply quiet_start_ingestion |]. intros ingest_data.
  apply polling_reports_at_end.
Qed.


(** ** The payload and its checksum *)

(** The payload of a batch is its statements, each followed by [;], with a
    newline between two statements. *)
Lemma payload_single (s : string) : payload [s] = s ++ ";".
Proof. reflexivity. Qed.

Lemma payload_cons (s s' : string) (rest : list string) :
  payload (s :: s' :: rest) = s ++ ";" ++ Py.newline ++ payload (s' :: rest).
Proof.
  unfold payload. cbn [Py.join].
  rewrite <- !append_assoc. reflexivity.
Qed.

(** On these two batches, which differ in one character, the checksums
    differ. *)
Example checksum_of_changed_payload :
  MD5.hexdigest (payload ["INSERT OR REPLACE INTO poles (pole_id) VALUES ('P1')"])
  <> MD5.hexdigest (payload ["INSERT OR REPLACE INTO poles (pole_id) VALUES ('P2')"]).
Proof. vm_compute. discriminate. Qed.


(** ** The rewrite to [INSERT OR REPLACE INTO] *)

Lemma prefix_append (a r : string) : prefix a (a ++ r) = true.
Proof.
  induction a as [|c a IH]; [apply prefix_empty |].
  cbn [append prefix]. destruct (ascii_dec c c) as [_ | Hne]; [exact IH | contradiction].
Qed.

Lemma prefix_split (a s : string) :
  prefix a s = true -> s = a ++ drop (String.length a) s.
Proof.
  revert s. induction a as [|c a IH]; intros s H; [reflexivity |].
  destruct s as [|c' s]; [discriminate |].
  cbn [prefix] in H. destruct (ascii_dec c c') as [<- | _]; [| discriminate].
  cbn [String.length drop append]. f_equal. apply IH, H.
Qed.

Lemma append_cancel_l (a x y : string) : a ++ x = a ++ y -> x = y.
Proof.
  induction a as [|c a IH]; cbn [append]; [auto |].
  intros H. injection H as H. auto.
Qed.

Lemma replace_from_zero (old new : string) (c : ascii) (s : string) :
  Py.replace_from old new (String c s) 0
  = if prefix old (String c s)
    then new ++ Py.replace_from old new s (String.length old - 1)
    else String c (Py.replace_from old new s 0).
Proof. reflexivity. Qed.

Lemma replace_from_skip (old new x r : string) :
  Py.replace_from old new (x ++ r) (String.length x) = Py.replace old new r.
Proof.
  induction x as [|c x IH]; [destruct r; reflexivity |].
  cbn [append String.length Py.replace_from]. exact IH.
Qed.

Section Replace.

Variables (c0 : ascii) (old' new : string).

Let old : string := String c0 old'.

(** An occurrence at the head is replaced, and the scan goes on after it. *)
Lemma replace_occurrence (r : string) :
  Py.replace old new (old ++ r) = new ++ Py.replace old new r.
Proof.
  unfold Py.replace, old. cbn [append]. rewrite replace_from_zero.
  change (String c0 (old' ++ r)) with (String c0 old' ++ r).
  rewrite prefix_append.
  replace (String.length (String c0 old') - 1) with (String.length old')
    by (cbn [String.length]; lia).
  now rewrite replace_from_skip.
Qed.

Lemma replace_absent (s : string) :
  contains old s = false -> Py.replace old new s = s.
Proof.
  induction s as [|c s IH]; [reflexivity |].
  cbn [contains]. intros H. apply orb_false_iff in H. destruct H as (Hp & Hc).
  unfold Py.replace. rewrite replace_from_zero, Hp. f_equal. apply IH, Hc.
Qed.

Hypothesis longer : String.length old < String.length new.

Lemma replace_grows (n : nat) :
  forall s,
    String.length s <= n ->
    String.length s <= String.length (Py.replace old new s)
    /\ (contains old s = true -> String.length s < String.length (Py.replace old new s)).
Proof.
  induction n as [|n IH]; intros s Hn.
  - destruct s; [| cbn [String.length] in Hn; lia]. split; [apply Nat.le_refl | discriminate].
  - destruct s as [|c s]; [split; [apply Nat.le_refl | discriminate] |].
    cbn [String.length] in Hn.
    unfold Py.replace. rewrite replace_from_zero. cbn [contains].
    destruct (prefix old (String c s)) eqn:Hp.
    + apply prefix_split in Hp. unfold old in Hp. cbn [append String.length drop] in Hp.
      injection Hp as _ Hs.
      remember (drop (String.length old') s) as r eqn:Hr.
      assert (Heq : Py.replace_from old new s (String.length old - 1)
                    = Py.replace old new r).
      { replace (String.length old - 1) with (String.length old')
          by (unfold old; cbn [String.length]; lia).
        rewrite Hs. apply replace_from_skip. }
      assert (Hlen : String.length s = String.length old' + String.length r)
        by (rewrite Hs; apply length_append).
      assert (Hlong : S (String.length old') < String.length new) by exact longer.
      rewrite Heq, length_append.
      destruct (IH r ltac:(lia)) as (Hge & _).
      cbn [String.length]. split; [lia | intros _; lia].
    + destruct (IH s ltac:(lia)) as (Hge & Hgt).
      cbn [orb String.length]. fold (Py.replace old new s).
      split; [lia |]. intros H. specialize (Hgt H). lia.
Qed.

(** The text is left as it is exactly when [old] occurs nowhere in it. *)
Lemma replace_fixed_iff (s : string) :
  Py.replace old new s = s <-> contains old s = false.
Proof.
  split; [| apply replace_absent].
  intros H. destruct (contains old s) eqn:Hc; [| reflexivity].
  destruct (replace_grows (String.length s) s (Nat.le_refl _)) as (_ & Hgt).
  specialize (Hgt Hc). rewrite H in Hgt. lia.
Qed.

End Replace.

(** Every [ingest_*] function turns the statement of [make_sql_insert] into
    an upsert with [.replace("INSERT INTO", "INSERT OR REPLACE INTO")].  The
    replacement runs over the whole statement: the keyword at its head is
    rewritten, and so is every further occurrence of [INSERT INTO] in the
    table name, the column names or the rendered values.  The result is the
    statement with only its keyword changed exactly when [INSERT INTO] occurs
    nowhere after the keyword. *)
Theorem upsert_rewrites_the_whole_statement
    (float_repr : float -> string) (table_name : string) (data : record) :
  let rest :=
    " " ++ table_name ++ " (" ++ Py.join ", " (List.map fst data) ++ ") VALUES ("
    ++ Py.join ", " (List.map (fun kv => sql_literal float_repr (snd kv)) data) ++ ")" in
  make_sql_insert float_repr table_name data = "INSERT INTO" ++ rest
  /\ upsert_statement float_repr table_name data
     = "INSERT OR REPLACE INTO"
       ++ Py.replace "INSERT INTO" "INSERT OR REPLACE INTO" rest
  /\ (upsert_statement float_repr table_name data = "INSERT OR REPLACE INTO" ++ rest
      <-> contains "INSERT INTO" rest = false).
Proof.
  intros rest.
  assert (Hmake : make_sql_insert float_repr table_name data = "INSERT INTO" ++ rest)
    by reflexivity.
  assert (Hup : upsert_statement float_repr table_name data
                = "INSERT OR REPLACE INTO"
                  ++ Py.replace "INSERT INTO" "INSERT OR REPLACE INTO" rest).
  { unfold upsert_statement. rewrite Hmake.
    apply (replace_occurrence "I"%char "NSERT INTO" "INSERT OR REPLACE INTO" rest). }
  split; [exact Hmake |]. split; [exact Hup |].
  rewrite Hup.
  rewrite <- (replace_fixed_iff "I"%char "NSERT INTO" "INSERT OR REPLACE INTO"
                ltac:(cbn; lia) rest).
  split; [apply append_cancel_l | intros ->; reflexivity].
Qed.

(** ** Reading the values of a statement back *)

Lemma read_literal_rendered (s rest : string) :
  closes rest ->
  read_literal (Py.replace "'" "''" s ++ "'" ++ rest) = Some (s, rest).
Proof.
  intros Hrest. induction s as [|c s IH].
  - cbn [Py.replace Py.replace_from append read_literal].
    rewrite Ascii.eqb_refl.
    destruct rest as [|c' r]; [reflexivity |].
    cbn [closes] in Hrest. apply Ascii.eqb_neq in Hrest. now rewrite Hrest.
  - rewrite replace_quote_cons.
    destruct (Ascii.eqb_spec c Py.quote_char) as [-> | Hne].
    + cbn [append read_literal]. rewrite Ascii.eqb_refl.
      cbn [append] in IH. rewrite IH. reflexivity.
    + cbn [append read_literal].
      apply Ascii.eqb_neq in Hne. rewrite Hne.
      cbn [append] in IH. rewrite IH. reflexivity.
Qed.

Section ReadingValues.

Variable float_repr : float -> string.

Lemma read_value_rendered (v : value) (rest : string) :
  closes rest ->
  read_value (sql_literal float_repr v ++ rest) = Some (stored float_repr v, rest).
Proof.
  intros Hrest.
  assert (Hq : forall s,
             read_value (("'" ++ Py.replace "'" "''" s ++ "'") ++ rest)
             = Some (Some s, rest)).
  { intros s. cbn [append read_value]. rewrite Ascii.eqb_refl.
    rewrite append_assoc. cbn [append].
    pose proof (read_literal_rendered s rest Hrest) as H. cbn [append] in H.
    rewrite H. reflexivity. }
  destruct v; [destruct rest; reflexivity | apply Hq ..].
Qed.

Lemma sql_literal_not_empty (v : value) : 1 <= String.length (sql_literal float_repr v).
Proof. destruct v; cbn; lia. Qed.

Lemma rendered_values_length (vs : list value) :
  List.length vs <= String.length (Py.join ", " (List.map (sql_literal float_repr) vs)).
Proof.
  induction vs as [|v vs IH]; [apply Nat.le_refl |].
  pose proof (sql_literal_not_empty v) as Hv.
  destruct vs as [|v' vs]; [cbn [List.map Py.join List.length]; lia |].
  cbn [List.map Py.join] in *. rewrite !length_append. cbn [List.length] in *. lia.
Qed.

Lemma read_values_from_rendered (vs : list value) :
  forall fuel,
    vs <> [] ->
    List.length vs <= fuel ->
    read_values_from fuel (Py.join ", " (List.map (sql_literal float_repr) vs))
    = Some (List.map (stored float_repr) vs).
Proof.
  induction vs as [|v vs IH]; intros fuel Hne Hfuel; [contradiction |].
  destruct fuel as [|fuel]; [cbn [List.length] in Hfuel; lia |].
  destruct vs as [|v' vs].
  - cbn [List.map Py.join read_values_from].
    rewrite <- (append_empty_r (sql_literal float_repr v)).
    rewrite (read_value_rendered v EmptyString I). reflexivity.
  - cbn [List.map Py.join]. cbn [List.map] in IH.
    cbn [read_values_from].
    rewrite (read_value_rendered v); [| cbn; discriminate].
    change ((", " ++ Py.join ", " (sql_literal float_repr v'
                                   :: List.map (sql_literal float_repr) vs)))
      with (String ","%char (" " ++ Py.join ", " (sql_literal float_repr v'
                                   :: List.map (sql_literal float_repr) vs))).
    cbv iota beta.
    rewrite (prefix_append ", "). cbn [append drop].
    rewrite IH; [reflexivity | discriminate | cbn [List.length] in *; lia].
Qed.

End ReadingValues.

(** The values of a statement read back: the text between the parentheses
    after [VALUES] is, for every record, a list of well-formed values
    separated by a comma and a space, as many as the record has columns; the
    value of a column reads back as nothing for [None] and as the text of
    [str(v)] otherwise.  No value ends its literal early, adds a value, or
    reads as [NULL] without being [None]. *)
Theorem values_read_back
    (float_repr : float -> string) (table_name : string) (data : record) :
  let values := Py.join ", " (List.map (fun kv => sql_literal float_repr (snd kv)) data) in
  make_sql_insert float_repr table_name data
  = "INSERT INTO " ++ table_name ++ " (" ++ Py.join ", " (List.map fst data)
    ++ ") VALUES (" ++ values ++ ")"
  /\ read_values values = Some (List.map (fun kv => stored float_repr (snd kv)) data).
Proof.
  intros values. split; [reflexivity |].
  unfold values. rewrite <- !(List.map_map snd).
  destruct (List.map snd data) as [|v vs]; [reflexivity |].
  pose proof (rendered_values_length float_repr (v :: vs)) as Hlen.
  pose proof (read_values_from_rendered float_repr (v :: vs)) as Hread.
  unfold read_values.
  destruct (Py.join ", " (List.map (sql_literal float_repr) (v :: vs))) as [|c s] eqn:Hj.
  - cbn [List.length String.length] in Hlen. lia.
  - apply Hread; [discriminate | exact Hlen].
Qed.

(** Two values are rendered alike exactly when they leave the same in their
    column: [None] is rendered like no other value, not even like the strings
    [None] and [NULL], and two values that are not [None] are rendered alike
    exactly when their [str] forms are the same text (so that the integer 5
    and the string 5 are). *)
Theorem same_literal_iff_same_stored
    (float_repr : float -> string) (v1 v2 : value) :
  sql_literal float_repr v1 = sql_literal float_repr v2
  <-> stored float_repr v1 = stored float_repr v2.
Proof.
  split.
  - intros H.
    pose proof (read_value_rendered float_repr v1 EmptyString I) as H1.
    pose proof (read_value_rendered float_repr v2 EmptyString I) as H2.
    rewrite H in H1. rewrite H1 in H2. now injection H2.
  - unfold stored, sql_literal.
    destruct (is_none v1), (is_none v2); cbn [negb]; try discriminate; [reflexivity |].
    intros H. injection H as ->. reflexivity.
Qed.


(** ** What a step adds to the trace *)

Section Adds.

Variable P : list event -> Prop.
Hypothesis P_nil : P [].
Hypothesis P_app : forall a b, P a -> P b -> P (a ++ b)%list.

Context {A B : Type}.

Lemma adds_ret (a : A) : adds P (ret a).
Proof. intros st. exists []. now rewrite app_nil_r. Qed.

Lemma adds_raise (e : exn) : adds P (@raise A e).
Proof. intros st. exists []. now rewrite app_nil_r. Qed.

Lemma adds_out_of_fuel : adds P (@out_of_fuel A).
Proof. intros st. exists []. now rewrite app_nil_r. Qed.

Lemma adds_bind (c : M A) (k : A -> M B) :
  adds P c -> (forall a, adds P (k a)) -> adds P (bind c k).
Proof.
  intros Hc Hk st. destruct (Hc st) as (e1 & Ht1 & H1). unfold bind.
  destruct (c st) as [[a | e | ] st']; cbn [snd] in *; try (exists e1; now split).
  destruct (Hk a st') as (e2 & Ht2 & H2).
  exists (e1 ++ e2)%list. rewrite Ht2, Ht1, app_assoc. auto.
Qed.

Lemma adds_try_except (body : M A) (handler : exn -> M A) :
  adds P body -> (forall e, adds P (handler e)) -> adds P (try_except body handler).
Proof.
  intros Hb Hh st. destruct (Hb st) as (e1 & Ht1 & H1). unfold try_except.
  destruct (body st) as [[a | e | ] st']; cbn [snd] in *; try (exists e1; now split).
  destruct (Hh e st') as (e2 & Ht2 & H2).
  exists (e1 ++ e2)%list. rewrite Ht2, Ht1, app_assoc. auto.
Qed.

Lemma adds_lift (r : exn + A) : adds P (lift r).
Proof. destruct r; [apply adds_raise | apply adds_ret]. Qed.

Lemma adds_if (b : bool) (c1 c2 : M A) :
  adds P c1 -> adds P c2 -> adds P (if b then c1 else c2).
Proof. destruct b; auto. Qed.

End Adds.

Lemma adds_emit (P : list event -> Prop) (ev : event) : P [ev] -> adds P (emit ev).
Proof. intros H st. exists [ev]. now split. Qed.

Lemma adds_weaken {A : Type} (P Q : list event -> Prop) (c : M A) :
  (forall evs, P evs -> Q evs) -> adds P c -> adds Q c.
Proof. intros HPQ Hc st. destruct (Hc st) as (evs & Ht & H). exists evs. auto. Qed.

Section AddsBasic.

Variable P : list event -> Prop.
Hypothesis P_nil : P [].
Hypothesis P_app : forall a b, P a -> P b -> P (a ++ b)%list.

Lemma adds_http (rq : request) (reply : string + response) :
  P [Request rq] -> adds P (http rq reply).
Proof.
  intros H. unfold http. apply adds_bind; [exact P_app | now apply adds_emit |].
  intros _. destruct reply; [now apply adds_raise | now apply adds_ret].
Qed.

Lemma adds_raise_for_status (r : response) : adds P (raise_for_status r).
Proof.
  unfold raise_for_status. apply adds_if; [now apply adds_raise | now apply adds_ret].
Qed.

Lemma adds_subscript (j : json) (key : string) : adds P (subscript j key).
Proof. now apply adds_lift. Qed.

Lemma adds_set_init_response (r : response) : adds P (set_init_response r).
Proof. intros st. exists []. cbn. now rewrite app_nil_r. Qed.

Lemma adds_read_init_response : adds P read_init_response.
Proof.
  intros st. unfold read_init_response. exists [].
  destruct (init_response_var st); cbn [snd]; now rewrite app_nil_r.
Qed.

End AddsBasic.

Lemma silent_nil : silent [].
Proof. reflexivity. Qed.

Lemma silent_app (a b : list event) : silent a -> silent b -> silent (a ++ b).
Proof. unfold silent. intros Ha Hb. now rewrite requests_app, Ha, Hb. Qed.

Lemma polls_only_nil (b : json) : polls_only b [].
Proof. now exists 0. Qed.

Lemma polls_only_app (b : json) (x y : list event) :
  polls_only b x -> polls_only b y -> polls_only b (x ++ y).
Proof.
  intros (m & Hm) (n & Hn). exists (m + n).
  now rewrite requests_app, Hm, Hn, repeat_app.
Qed.

Lemma silent_polls_only (b : json) (evs : list event) : silent evs -> polls_only b evs.
Proof. intros H. exists 0. exact H. Qed.

(** A chain of binds and conditionals over the basic steps. *)
Ltac adds_step nil app :=
  match goal with
  | |- adds _ (bind _ _) => apply adds_bind; [exact app | | intros ?]
  | |- adds _ (try_except _ _) => apply adds_try_except; [exact app | | intros ?]
  | |- adds _ (if _ then _ else _) => apply adds_if
  | |- adds _ (ret _) => apply adds_ret; exact nil
  | |- adds _ (raise _) => apply adds_raise; exact nil
  | |- adds _ out_of_fuel => apply adds_out_of_fuel; exact nil
  | |- adds _ (lift _) => apply adds_lift; exact nil
  | |- adds _ (subscript _ _) => apply adds_subscript; exact nil
  | |- adds _ (raise_for_status _) => apply adds_raise_for_status; exact nil
  | |- adds _ (set_init_response _) => apply adds_set_init_response; exact nil
  | |- adds _ read_init_response => apply adds_read_init_response; exact nil
  | |- adds _ (print _) => apply adds_emit
  | |- adds _ (emit _) => apply adds_emit
  | |- adds _ (http _ _) => apply adds_http; [exact nil | exact app |]
  | |- adds _ (match ?x with _ => _ end) => destruct x
  end.

Ltac adds_chain nil app := cbv zeta; repeat (adds_step nil app).

Ltac silent_chain := adds_chain silent_nil silent_app; try reflexivity.

(** A request followed by steps that send nothing: one request, whatever
    the outcome. *)
Lemma http_then_silent {A : Type} (rq : request) (reply : string + response)
    (k : response -> M A) (st : state) :
  (forall r, adds silent (k r)) ->
  exists evs,
    trace (snd ((r <- http rq reply ;; k r) st)) = (trace st ++ evs)%list
    /\ requests evs = [rq].
Proof.
  intros Hk. unfold http, bind at 1 2. rewrite emit_log.
  destruct reply as [msg | r].
  - exists [Request rq]. split; reflexivity.
  - unfold ret at 1. destruct (Hk r (log [Request rq] st)) as (evs & Ht & Hs).
    exists (Request rq :: evs). rewrite Ht. unfold log. cbn [trace].
    rewrite <- app_assoc. split; [reflexivity |]. cbn [requests]. now rewrite Hs.
Qed.

Lemma init_upload_sends (sv : server) (hash_str : string) (st : state) :
  exists evs,
    trace (snd (init_upload sv hash_str st)) = (trace st ++ evs)%list
    /\ requests evs = [ReqInit hash_str].
Proof.
  unfold init_upload. apply http_then_silent. intros r. silent_chain.
Qed.

Lemma upload_to_r2_sends (sv : server) (upload_url : json) (data hash_str : string)
    (st : state) :
  exists evs,
    trace (snd (upload_to_r2 sv upload_url data hash_str st)) = (trace st ++ evs)%list
    /\ requests evs = [ReqUpload upload_url data].
Proof.
  unfold upload_to_r2. apply http_then_silent. intros r. silent_chain.
Qed.

Lemma start_ingestion_sends (sc : script) (sv : server) (hash_str : string)
    (filename : json) (st : state) :
  exists evs,
    trace (snd (start_ingestion sc sv hash_str filename st)) = (trace st ++ evs)%list
    /\ requests evs = [ReqIngest hash_str filename].
Proof.
  unfold start_ingestion. apply http_then_silent. intros r. silent_chain.
Qed.

Lemma poll_done_silent (b : json) (poll_result : json) :
  adds (polls_only b) (poll_done poll_result).
Proof.
  unfold poll_done. adds_chain (polls_only_nil b) (polls_only_app b).
Qed.

Lemma poll_loop_sends (sc : script) (fuel : nat) (sv : server) (b : json) :
  forall k, adds (polls_only b) (poll_loop sc fuel sv b k).
Proof.
  induction fuel as [|fuel IH]; intros k; cbn [poll_loop].
  - apply adds_out_of_fuel, polls_only_nil.
  - pose proof (poll_done_silent b) as Hd.
    adds_chain (polls_only_nil b) (polls_only_app b);
      try (now exists 0); try (now exists 1); auto.
Qed.

(** The polls of a job are polls of the bookmark of its ingest answer. *)
Lemma polling_sends (sc : script) (fuel : nat) (sv : server) (table_name : string)
    (ingest_data : json) (st : state) :
  exists evs,
    trace (snd (polling sc fuel sv table_name ingest_data st)) = (trace st ++ evs)%list
    /\ (requests evs = []
        \/ exists result bookmark polls,
             getitem ingest_data "result" = inr result
             /\ getitem result "at_bookmark" = inr bookmark
             /\ requests evs = List.repeat (ReqPoll bookmark) polls).
Proof.
  unfold polling, subscript.
  destruct (getitem ingest_data "result") as [e | result].
  { exists []. cbn. rewrite app_nil_r. split; [reflexivity | now left]. }
  unfold bind at 1. cbn [lift ret].
  destruct (getitem result "at_bookmark") as [e | bookmark] eqn:Hbm.
  { exists []. cbn. rewrite app_nil_r. split; [reflexivity | now left]. }
  unfold bind at 1. cbn [lift ret].
  match goal with
  | |- context [snd (?c st)] =>
      assert (Hc : adds (polls_only bookmark) c)
  end.
  { pose proof (poll_loop_sends sc fuel sv bookmark 0) as Hl.
    adds_chain (polls_only_nil bookmark) (polls_only_app bookmark);
      try (now exists 0); auto. }
  destruct (Hc st) as (evs & Ht & m & Hm).
  exists evs. split; [exact Ht |]. right. exists result, bookmark, m.
  repeat split; [exact Hbm | exact Hm].
Qed.

(** What a step that returns has been answered. *)
Lemma init_upload_returns (sv : server) (hash_str : string) (st s1 : state)
    (upload_url filename : json) :
  init_upload sv hash_str st = (Ret (upload_url, filename), s1) ->
  init_ok sv hash_str upload_url filename.
Proof.
  unfold init_ok, answered, init_upload.
  unfold http, set_init_response, raise_for_status, subscript, lift, bind, emit, raise, ret.
  destruct (post_init sv hash_str) as [msg | r]; cbv beta iota; [discriminate |].
  destruct (http_error r) eqn:Herr; cbv beta iota; [discriminate |].
  destruct (json_body r) as [e | body] eqn:Hbody; cbv beta iota; [discriminate |].
  destruct (getitem body "result") as [e | result] eqn:Hres; cbv beta iota;
    [discriminate |].
  destruct (getitem result "upload_url") as [e | u] eqn:Hu; cbv beta iota;
    [discriminate |].
  destruct (getitem result "filename") as [e | f] eqn:Hf; cbv beta iota;
    [discriminate |].
  intros H. injection H as <- <- _.
  exists body, result. split; [exists r |]; auto.
Qed.

Lemma upload_to_r2_returns (sv : server) (upload_url : json) (data hash_str : string)
    (st s1 : state) :
  upload_to_r2 sv upload_url data hash_str st = (Ret tt, s1) ->
  upload_tag sv upload_url data hash_str.
Proof.
  unfold upload_tag, upload_to_r2.
  unfold http, raise_for_status, bind, emit, raise, ret.
  destruct (put_upload sv upload_url data) as [msg | r]; cbv beta iota; [discriminate |].
  destruct (http_error r) eqn:Herr; cbv beta iota; [discriminate |].
  destruct (String.eqb_spec (etag_of r) hash_str) as [Htag | Hne]; cbn [negb];
    [| discriminate].
  intros _. exists r. auto.
Qed.

Lemma start_ingestion_returns (sc : script) (sv : server) (hash_str : string)
    (filename ingest_data : json) (st s1 : state) :
  start_ingestion sc sv hash_str filename st = (Ret ingest_data, s1) ->
  answered (post_ingest sv hash_str filename) ingest_data.
Proof.
  unfold answered, start_ingestion.
  unfold http, raise_for_status, lift, print, bind, emit, raise, ret.
  destruct (post_ingest sv hash_str filename) as [msg | r]; cbv beta iota;
    [discriminate |].
  destruct (http_error r) eqn:Herr; cbv beta iota; [discriminate |].
  destruct (json_body r) as [e | body] eqn:Hbody; cbv beta iota; [discriminate |].
  destruct (is_digital_assets sc); cbv beta iota;
    intros H; injection H as <- _; exists r; auto.
Qed.

Lemma protocol_sends (sc : script) (fuel : nat) (sv : server)
    (table_name data hash_str : string) :
  adds (in_protocol_order sv hash_str data)
       (protocol sc fuel sv table_name data hash_str).
Proof.
  intros st. unfold protocol, bind at 1.
  destruct (init_upload_sends sv hash_str st) as (e1 & Ht1 & Hr1).
  pose proof (init_upload_returns sv hash_str st) as Hinit.
  destruct (init_upload sv hash_str st) as [[[upload_url filename] | e |] s1];
    cbn [snd] in *;
    try (exists e1; split; [exact Ht1 | right; left; exact Hr1]).
  specialize (Hinit s1 upload_url filename eq_refl).
  unfold bind at 1.
  destruct (upload_to_r2_sends sv upload_url data hash_str s1) as (e2 & Ht2 & Hr2).
  pose proof (upload_to_r2_returns sv upload_url data hash_str s1) as Htag.
  destruct (upload_to_r2 sv upload_url data hash_str s1) as [[[] | e |] s2];
    cbn [snd] in *;
    try (exists (e1 ++ e2)%list; rewrite Ht2, Ht1, app_assoc; split; [reflexivity |];
         right; right; exists upload_url, filename; split; [exact Hinit |]; left;
         rewrite requests_app, Hr1, Hr2; reflexivity).
  specialize (Htag s2 eq_refl).
  unfold bind at 1.
  destruct (start_ingestion_sends sc sv hash_str filename s2) as (e3 & Ht3 & Hr3).
  pose proof (fun d s => start_ingestion_returns sc sv hash_str filename d s2 s) as Hing.
  destruct (start_ingestion sc sv hash_str filename s2) as [[ingest_data | e |] s3];
    cbn [snd] in *;
    try (exists (e1 ++ e2 ++ e3)%list; rewrite Ht3, Ht2, Ht1, <- !app_assoc;
         split; [reflexivity |];
         right; right; exists upload_url, filename; split; [exact Hinit |]; right;
         split; [exact Htag |]; left;
         rewrite !requests_app, Hr1, Hr2, Hr3; reflexivity).
  specialize (Hing ingest_data s3 eq_refl).
  destruct (polling_sends sc fuel sv table_name ingest_data s3) as (e4 & Ht4 & Hr4).
  exists (e1 ++ e2 ++ e3 ++ e4)%list. rewrite Ht4, Ht3, Ht2, Ht1, <- !app_assoc.
  split; [reflexivity |].
  right; right. exists upload_url, filename. split; [exact Hinit |]. right.
  split; [exact Htag |].
  rewrite !requests_app, Hr1, Hr2, Hr3.
  destruct Hr4 as [-> | (result & bookmark & polls & Hres & Hbm & ->)].
  - left. reflexivity.
  - right. exists bookmark, polls. split; [| reflexivity].
    exists ingest_data, result. auto.
Qed.

Section OrderAbsorbs.

Variable sv : server.
Variables hash_str data : string.

Lemma in_protocol_order_after (a b : list event) :
  silent a -> in_protocol_order sv hash_str data b ->
  in_protocol_order sv hash_str data (a ++ b).
Proof.
  unfold in_protocol_order. intros Ha H. rewrite requests_app, Ha. exact H.
Qed.

Lemma in_protocol_order_before (a b : list event) :
  in_protocol_order sv hash_str data a -> silent b ->
  in_protocol_order sv hash_str data (a ++ b).
Proof.
  unfold in_protocol_order. intros H Hb. rewrite requests_app, Hb, app_nil_r. exact H.
Qed.

Lemma in_protocol_order_silent (a : list event) :
  silent a -> in_protocol_order sv hash_str data a.
Proof. intros Ha. left. exact Ha. Qed.

End OrderAbsorbs.

Lemma handlers_silent (sc : script) (table_name : string) (e : exn) :
  adds silent (handlers sc table_name e).
Proof. unfold handlers. silent_chain. Qed.

Lemma lookup_database_silent (sv : server) (db_name : string) :
  adds silent (lookup_database sv db_name).
Proof. unfold lookup_database. silent_chain. Qed.

(** Whatever the server answers, at whatever step the job ends and whatever
    the script, the requests of a call of the driver are those of one job,
    as far as it got: none; or the init request with the MD5 of the payload;
    or also the upload of the payload to the target the init answer names;
    or also, the upload having echoed the checksum, the ingest request with
    the same checksum and the file name of the init answer; or also polls,
    all of the bookmark of the ingest answer.  No request is sent out of
    this order, none twice except the poll, and nothing but the payload of
    the batch is uploaded. *)
Theorem requests_follow_the_protocol
    (sc : script) (fuel : nat) (sv : server) (table_name : string)
    (sql_statements : list string) (st : state) :
  let data := payload sql_statements in
  let hash_str := MD5.hexdigest data in
  exists evs,
    trace (snd (d1_bulk_import sc fuel sv table_name sql_statements st))
    = (trace st ++ evs)%list
    /\ (requests evs = []
        \/ requests evs = [ReqInit hash_str]
        \/ exists upload_url filename,
             init_ok sv hash_str upload_url filename
             /\ (requests evs = [ReqInit hash_str; ReqUpload upload_url data]
                 \/ (upload_tag sv upload_url data hash_str
                     /\ (requests evs
                         = [ReqInit hash_str; ReqUpload upload_url data;
                            ReqIngest hash_str filename]
                         \/ exists bookmark polls,
                              ingest_ok sv hash_str filename bookmark
                              /\ requests evs
                                 = job_requests hash_str data upload_url filename
                                                bookmark polls)))).
Proof.
  intros d h.
  assert (H : adds (in_protocol_order sv h d)
                   (d1_bulk_import sc fuel sv table_name sql_statements)).
  { intros st0. unfold d1_bulk_import, bind at 1, enter.
    match goal with
    | |- context [snd (?c ?s0)] =>
        assert (Hc : adds (in_protocol_order sv h d) c)
    end.
    { destruct sql_statements as [|s rest].
      - apply (adds_weaken silent); [apply in_protocol_order_silent |]. silent_chain.
      - intros s0.
        destruct (is_digital_assets sc).
        + unfold bind at 1.
          destruct (lookup_database_silent sv DB_NAME s0) as (e1 & Ht1 & Hs1).
          destruct (lookup_database sv DB_NAME s0) as [[[] | e |] s1]; cbn [snd] in *;
            try (exists e1; split; [exact Ht1 | now apply in_protocol_order_silent]).
          unfold bind at 1, print. rewrite emit_log. unfold bind at 1, try_except.
          destruct (protocol_sends sc fuel sv table_name d h
                      (log [Print (Starting (List.length (s :: rest)) table_name)] s1))
            as (e2 & Ht2 & Ho2).
          fold d. fold h.
          destruct (protocol sc fuel sv table_name d h _) as [[[] | e |] s2];
            cbn [snd] in *.
          * exists (e1 ++ [Print (Starting (List.length (s :: rest)) table_name)] ++ e2)%list.
            unfold ret. cbn [snd]. rewrite Ht2. unfold log. cbn [trace].
            rewrite Ht1, <- !app_assoc. split; [reflexivity |].
            apply in_protocol_order_after; [exact Hs1 |].
            apply in_protocol_order_after; [reflexivity | exact Ho2].
          * destruct (handlers_silent sc table_name e s2) as (e3 & Ht3 & Hs3).
            exists (e1 ++ [Print (Starting (List.length (s :: rest)) table_name)]
                    ++ e2 ++ e3)%list.
            assert (Htr : trace (snd (handlers sc table_name e s2))
                          = (trace s0 ++ e1
                             ++ [Print (Starting (List.length (s :: rest)) table_name)]
                             ++ e2 ++ e3)%list).
            { rewrite Ht3, Ht2. unfold log. cbn [trace].
              rewrite Ht1, <- !app_assoc. reflexivity. }
            split.
            -- destruct (handlers sc table_name e s2) as [[[] | e' |] s3]; exact Htr.
            -- apply in_protocol_order_after; [exact Hs1 |].
               apply in_protocol_order_after; [reflexivity |].
               apply in_protocol_order_before; assumption.
          * exists (e1 ++ [Print (Starting (List.length (s :: rest)) table_name)] ++ e2)%list.
            rewrite Ht2. unfold log. cbn [trace].
            rewrite Ht1, <- !app_assoc. split; [reflexivity |].
            apply in_protocol_order_after; [exact Hs1 |].
            apply in_protocol_order_after; [reflexivity | exact Ho2].
        + unfold bind at 1, ret at 1.
          unfold bind at 1, print. rewrite emit_log. unfold bind at 1, try_except.
          destruct (protocol_sends sc fuel sv table_name d h
                      (log [Print (Starting (List.length (s :: rest)) table_name)] s0))
            as (e2 & Ht2 & Ho2).
          fold d. fold h.
          destruct (protocol sc fuel sv table_name d h _) as [[[] | e |] s2];
            cbn [snd] in *.
          * exists ([Print (Starting (List.length (s :: rest)) table_name)] ++ e2)%list.
            unfold ret. cbn [snd]. rewrite Ht2. unfold log. cbn [trace].
            rewrite <- !app_assoc. split; [reflexivity |].
            apply in_protocol_order_after; [reflexivity | exact Ho2].
          * destruct (handlers_silent sc table_name e s2) as (e3 & Ht3 & Hs3).
            exists ([Print (Starting (List.length (s :: rest)) table_name)] ++ e2 ++ e3)%list.
            assert (Htr : trace (snd (handlers sc table_name e s2))
                          = (trace s0
                             ++ [Print (Starting (List.length (s :: rest)) table_name)]
                             ++ e2 ++ e3)%list).
            { rewrite Ht3, Ht2. unfold log. cbn [trace].
              rewrite <- !app_assoc. reflexivity. }
            split.
            -- destruct (handlers sc table_name e s2) as [[[] | e' |] s3]; exact Htr.
            -- apply in_protocol_order_after; [reflexivity |].
               apply in_protocol_order_before; assumption.
          * exists ([Print (Starting (List.length (s :: rest)) table_name)] ++ e2)%list.
            rewrite Ht2. unfold log. cbn [trace].
            rewrite <- !app_assoc. split; [reflexivity |].
            apply in_protocol_order_after; [reflexivity | exact Ho2]. }
    destruct (Hc (State (trace st0 ++ [Invoke table_name sql_statements]) (jobs st0) None))
      as (evs & Ht & Ho).
    exists (Invoke table_name sql_statements :: evs).
    cbn [trace] in Ht. rewrite Ht, <- app_assoc. split; [reflexivity |].
    apply (in_protocol_order_after sv h d [Invoke table_name sql_statements]);
      [reflexivity | exact Ho]. }
  destruct (H st) as (evs & Ht & Ho).
  exists evs. split; [exact Ht | exact Ho].
Qed.


(** ** The checksum and the tag echoed by the upload *)

Lemma le_bytes_length (n : nat) (x : Z) : List.length (MD5.le_bytes n x) = n.
Proof. revert x. induction n as [|n IH]; intros x; cbn [MD5.le_bytes List.length]; auto. Qed.

Lemma digest_length (msg : list Z) : List.length (MD5.digest msg) = 16.
Proof. unfold MD5.digest. cbv zeta. rewrite !length_app, !le_bytes_length. reflexivity. Qed.

Lemma hex_length (bs : list Z) : String.length (MD5.hex bs) = 2 * List.length bs.
Proof.
  induction bs as [|b bs IH]; [reflexivity |].
  cbn [MD5.hex String.length List.length]. rewrite IH. lia.
Qed.

Lemma hex_digit_is_hex_digit (x : Z) : is_hex_digit (MD5.hex_digit x) = true.
Proof.
  unfold MD5.hex_digit.
  destruct (nth_in_or_default (Z.to_nat x) (list_ascii_of_string "0123456789abcdef")
                              "0"%char) as [H | ->]; [| reflexivity].
  unfold is_hex_digit. apply existsb_exists.
  exists (nth (Z.to_nat x) (list_ascii_of_string "0123456789abcdef") "0"%char).
  split; [exact H | apply Ascii.eqb_refl].
Qed.

Lemma hex_digits (bs : list Z) :
  forallb is_hex_digit (list_ascii_of_string (MD5.hex bs)) = true.
Proof.
  induction bs as [|b bs IH]; [reflexivity |].
  cbn [MD5.hex list_ascii_of_string forallb].
  now rewrite !hex_digit_is_hex_digit, IH.
Qed.

Lemma hex_digit_no_dquote (c : ascii) : is_hex_digit c = true -> c <> Py.dquote_char.
Proof. intros H ->. vm_compute in H. discriminate. Qed.

Lemma prefix_other_char (q a : ascii) (s : string) :
  a <> q -> prefix (String q EmptyString) (String a s) = false.
Proof.
  intros Hne. cbn [prefix]. destruct (ascii_dec q a) as [-> | _]; [contradiction | reflexivity].
Qed.

Lemma no_dquote_in_hex_digits (s : string) :
  forallb is_hex_digit (list_ascii_of_string s) = true -> contains Py.dquote s = false.
Proof.
  induction s as [|c s IH]; [reflexivity |].
  cbn [list_ascii_of_string forallb contains]. intros H.
  apply andb_true_iff in H. destruct H as (Hc & Hs).
  unfold Py.dquote at 1. rewrite (prefix_other_char _ _ _ (hex_digit_no_dquote c Hc)).
  exact (IH Hs).
Qed.

(** Stripping the double quotes of a tag between double quotes. *)
Lemma strip_quoted (s : string) :
  contains Py.dquote s = false ->
  Py.replace Py.dquote EmptyString (Py.dquote ++ s ++ Py.dquote) = s.
Proof.
  intros H. unfold Py.dquote.
  rewrite (replace_occurrence Py.dquote_char EmptyString EmptyString).
  cbn [append]. fold Py.dquote.
  revert H. induction s as [|c s IH]; [reflexivity |].
  cbn [contains append]. intros H. apply orb_false_iff in H. destruct H as (Hp & Hc).
  unfold Py.replace. rewrite replace_from_zero.
  assert (Hp' : prefix Py.dquote (String c (s ++ Py.dquote)) = false).
  { unfold Py.dquote at 1. unfold Py.dquote in Hp. cbn [prefix] in *.
    destruct (ascii_dec Py.dquote_char c); [| reflexivity].
    rewrite prefix_empty in Hp. discriminate. }
  rewrite Hp'. f_equal. apply IH, Hc.
Qed.

Lemma hexdigest_length (data : string) : String.length (MD5.hexdigest data) = 32.
Proof. unfold MD5.hexdigest. rewrite hex_length, digest_length. reflexivity. Qed.

Lemma hexdigest_hex_digits (data : string) :
  forallb is_hex_digit (list_ascii_of_string (MD5.hexdigest data)) = true.
Proof. apply hex_digits. Qed.

(** The checksum the driver sends as [etag] is a text of 32 characters, each
    one of the digits [0-9a-f], whatever the payload. *)
Theorem checksum_is_32_hex_digits (sql_statements : list string) :
  let hash_str := MD5.hexdigest (payload sql_statements) in
  String.length hash_str = 32
  /\ forallb is_hex_digit (list_ascii_of_string hash_str) = true.
Proof.
  intros hash_str. split; [apply hexdigest_length | apply hexdigest_hex_digits].
Qed.

(** The driver compares the checksum with the [ETag] header of the upload
    response after dropping the double quotes of the header: an upload
    answered (with a status that is no error) by the checksum between double
    quotes, or by the bare checksum, passes, and the job goes on to the
    ingest request. *)
Theorem quoted_etag_is_accepted
    (sv : server) (upload_url : json) (sql_statements : list string) (st : state)
    (r : response) :
  let data := payload sql_statements in
  let hash_str := MD5.hexdigest data in
  put_upload sv upload_url data = inr r ->
  http_error r = false ->
  headers r "ETag" = Some (Py.dquote ++ hash_str ++ Py.dquote)
  \/ headers r "ETag" = Some hash_str ->
  upload_to_r2 sv upload_url data hash_str st
  = (Ret tt, log [Request (ReqUpload upload_url data)] st).
Proof.
  intros data hash_str Hr Herr Htag.
  assert (Hclean : contains Py.dquote hash_str = false).
  { apply no_dquote_in_hex_digits, hexdigest_hex_digits. }
  assert (Hecho : upload_tag sv upload_url data hash_str).
  { exists r. repeat split; try assumption.
    unfold etag_of, headers_get.
    destruct Htag as [-> | ->].
    - now apply strip_quoted.
    - now apply (replace_absent Py.dquote_char EmptyString EmptyString). }
  rewrite (upload_to_r2_tag sv upload_url data hash_str hash_str st Hecho).
  now rewrite String.eqb_refl.
Qed.

Lemma quoted_etag_is_accepted_witness :
  upload_to_r2 (healthy 0) (JStr "https://r2.example/upload")
    (payload ["INSERT OR REPLACE INTO poles (pole_id) VALUES ('P1')"])
    "a539e3979a20d3754645d95bc8ec5569" initial
  = (Ret tt,
     log [Request (ReqUpload (JStr "https://r2.example/upload")
                     (payload ["INSERT OR REPLACE INTO poles (pole_id) VALUES ('P1')"]))]
         initial).
Proof.
  apply (quoted_etag_is_accepted (healthy 0) (JStr "https://r2.example/upload")
           ["INSERT OR REPLACE INTO poles (pole_id) VALUES ('P1')"] initial
           (echo_response
              (payload ["INSERT OR REPLACE INTO poles (pole_id) VALUES ('P1')"]))).
  - reflexivity.
  - reflexivity.
  - left. reflexivity.
Defined.

(** An upload response without an [ETag] header is compared as the empty
    tag, which is no checksum: the step raises the mismatch, whatever the
    payload, and the job ends there. *)
Theorem missing_etag_is_a_mismatch
    (sv : server) (upload_url : json) (sql_statements : list string) (st : state)
    (r : response) :
  let data := payload sql_statements in
  let hash_str := MD5.hexdigest data in
  put_upload sv upload_url data = inr r ->
  http_error r = false ->
  headers r "ETag" = None ->
  upload_to_r2 sv upload_url data hash_str st
  = (Raise (etag_mismatch hash_str EmptyString),
     log [Request (ReqUpload upload_url data)] st).
Proof.
  intros data hash_str Hr Herr Htag.
  assert (Hecho : upload_tag sv upload_url data EmptyString).
  { exists r. repeat split; try assumption.
    unfold etag_of, headers_get. rewrite Htag. reflexivity. }
  rewrite (upload_to_r2_tag sv upload_url data hash_str EmptyString st Hecho).
  destruct (String.eqb_spec EmptyString hash_str) as [Heq | _]; [| reflexivity].
  pose proof (hexdigest_length data) as Hlen.
  fold hash_str in Hlen. rewrite <- Heq in Hlen. discriminate.
Qed.

Lemma missing_etag_is_a_mismatch_witness :
  fst (upload_to_r2
         (Server (fun _ => inr init_response_example)
                 (fun _ _ => inr (json_response JNull))
                 (fun _ _ => inr ingest_response_example)
                 (fun _ _ => inr poll_success)
                 (inr None))
         (JStr "https://r2.example/upload")
         (payload ["INSERT OR REPLACE INTO poles (pole_id) VALUES ('P1')"])
         (MD5.hexdigest (payload ["INSERT OR REPLACE INTO poles (pole_id) VALUES ('P1')"]))
         initial)
  = Raise (etag_mismatch
             (MD5.hexdigest (payload ["INSERT OR REPLACE INTO poles (pole_id) VALUES ('P1')"]))
             EmptyString).
Proof.
  rewrite (missing_etag_is_a_mismatch
             (Server (fun _ => inr init_response_example)
                     (fun _ _ => inr (json_response JNull))
                     (fun _ _ => inr ingest_response_example)
                     (fun _ _ => inr poll_success)
                     (inr None))
             (JStr "https://r2.example/upload")
             ["INSERT OR REPLACE INTO poles (pole_id) VALUES ('P1')"] initial
             (json_response JNull) eq_refl eq_refl eq_refl).
  reflexivity.
Defined.


(** ** One outcome for each job *)

Section Reports.

Context {A B : Type}.

Lemma reports_bind (c : M A) (k : A -> M B) :
  quiet c -> (forall a, reports (k a)) -> reports (bind c k).
Proof.
  intros Hc Hk st b st' H. unfold bind in H.
  destruct (Hc st) as (e1 & Ht1 & Ho1).
  destruct (c st) as [[a | e |] s1]; cbn [snd] in *; try discriminate.
  destruct (Hk a s1 b st' H) as (e2 & o & Ht2 & Ho2).
  exists (e1 ++ e2)%list, o. rewrite Ht2, Ht1, app_assoc, outcomes_app, Ho1, Ho2.
  split; reflexivity.
Qed.

End Reports.

Lemma reports_print (m : message) (o : outcome) :
  outcome_of m = Some o -> reports (print m).
Proof.
  intros Ho st [] st' H. unfold print in H. rewrite emit_log in H. injection H as <-.
  exists [Print m], o. split; [reflexivity |]. cbn [outcomes]. now rewrite Ho.
Qed.

Lemma polling_reports (sc : script) (fuel : nat) (sv : server) (table_name : string)
    (ingest_data : json) :
  reports (polling sc fuel sv table_name ingest_data).
Proof.
  unfold polling.
  apply reports_bind; [apply quiet_subscript |]. intros result.
  apply reports_bind; [apply quiet_subscript |]. intros bookmark.
  apply reports_bind; [apply quiet_poll_loop |]. intros poll_result.
  apply reports_bind; [apply quiet_subscript |]. intros success.
  destruct (truthy success); [now apply (reports_print _ SUCCEEDED) |].
  apply reports_bind; [apply quiet_subscript |]. intros error.
  now apply (reports_print _ (FAILED (Failed table_name error))).
Qed.

Lemma protocol_reports (sc : script) (fuel : nat) (sv : server)
    (table_name data hash_str : string) :
  reports (protocol sc fuel sv table_name data hash_str).
Proof.
  unfold protocol.
  apply reports_bind; [apply quiet_init_upload |]. intros [upload_url filename].
  apply reports_bind; [apply quiet_upload_to_r2 |]. intros _.
  apply reports_bind; [apply quiet_start_ingestion |]. intros ingest_data.
  apply polling_reports.
Qed.

Lemma failure_message_outcome (table_name : string) (e : exn) (r : option response) :
  outcome_of (failure_message table_name e r) = Some (FAILED (failure_message table_name e r)).
Proof. destruct e; reflexivity. Qed.

(** The driver of the open-data and real-photo scripts, called with
    statements, reports one outcome for the batch and returns [None],
    whatever the server answers: a completed import, or one failure.  Only a
    call that is still polling when the fuel runs out has reported
    nothing. *)
Lemma d1_bulk_import_reports
    (sc : script) (fuel : nat) (sv : server) (table_name : string)
    (sql_statements : list string) (st : state) :
  is_digital_assets sc = false ->
  sql_statements <> [] ->
  exists evs,
    trace (snd (d1_bulk_import sc fuel sv table_name sql_statements st))
    = (trace st ++ evs)%list
    /\ ((fst (d1_bulk_import sc fuel sv table_name sql_statements st) = Ret VNone
         /\ exists o, outcomes evs = [o])
        \/ (fst (d1_bulk_import sc fuel sv table_name sql_statements st) = OutOfFuel
            /\ outcomes evs = [])).
Proof.
  intros Hsc Hne.
  assert (Hdb : database_found sc sv) by (intros H; congruence).
  destruct (protocol sc fuel sv table_name (payload sql_statements)
              (MD5.hexdigest (payload sql_statements))
              (job_start sc table_name sql_statements st)) as [r s1] eqn:Hp.
  rewrite (d1_bulk_import_outcome sc fuel sv table_name sql_statements st s1 r Hne Hdb Hp).
  destruct (opening_shape sc table_name sql_statements) as (_ & Hout0 & _).
  destruct r as [[] | e |].
  - destruct (protocol_reports sc fuel sv table_name _ _ _ _ _ Hp) as (evs & o & Ht & Ho).
    exists (opening sc table_name sql_statements ++ evs)%list. cbn [fst snd].
    rewrite Ht. unfold job_start. cbn [trace]. rewrite <- app_assoc.
    split; [reflexivity |]. left. split; [reflexivity |].
    exists o. now rewrite outcomes_app, Hout0, Ho.
  - destruct (protocol_reports_at_end sc fuel sv table_name (payload sql_statements)
                (MD5.hexdigest (payload sql_statements))
                (job_start sc table_name sql_statements st))
      as [(evs & Ht & Ho) | (a & Ha)]; [| rewrite Hp in Ha; discriminate].
    rewrite Hp in Ht. cbn [snd] in Ht.
    assert (Hdec : forall msg, e = JSONDecodeError msg ->
                     is_digital_assets sc = false /\ init_response_var s1 <> None).
    { intros msg ->. split; [exact Hsc |].
      exact (protocol_decode_error_bound _ _ _ _ _ _ _ _ _ Hp). }
    rewrite (bind_ret _ _ _ _ _ (handlers_print sc table_name e s1 Hdec)).
    exists (opening sc table_name sql_statements ++ evs
            ++ [Print (failure_message table_name e (init_response_var s1))])%list.
    unfold ret, log. cbn [fst snd trace]. rewrite Ht. unfold job_start. cbn [trace].
    rewrite <- !app_assoc. split; [reflexivity |]. left. split; [reflexivity |].
    exists (FAILED (failure_message table_name e (init_response_var s1))).
    rewrite !outcomes_app, Hout0, Ho. cbn [outcomes app].
    now rewrite failure_message_outcome.
  - destruct (protocol_reports_at_end sc fuel sv table_name (payload sql_statements)
                (MD5.hexdigest (payload sql_statements))
                (job_start sc table_name sql_statements st))
      as [(evs & Ht & Ho) | (a & Ha)]; [| rewrite Hp in Ha; discriminate].
    rewrite Hp in Ht. cbn [snd] in Ht.
    exists (opening sc table_name sql_statements ++ evs)%list. cbn [fst snd].
    rewrite Ht. unfold job_start. cbn [trace]. rewrite <- app_assoc.
    split; [reflexivity |]. right. split; [reflexivity |].
    now rewrite outcomes_app, Hout0, Ho.
Qed.

(** The driver of the open-data script, called with statements on a server
    whose polls settle: whatever the server answers, and at whatever step
    the job fails, the call returns [None] having printed exactly one
    outcome for the batch, a completed import or one failure.  Every
    exception of the [try] block is caught by one of its three clauses. *)
Theorem every_job_reports_one_outcome
    (fuel : nat) (sv : server) (table_name : string)
    (sql_statements : list string) (st : state) :
  sql_statements <> [] ->
  settles fuel sv ->
  let run := d1_bulk_import MontrealOpendata fuel sv table_name sql_statements st in
  exists evs o,
    fst run = Ret VNone
    /\ trace (snd run) = (trace st ++ evs)%list
    /\ outcomes evs = [o].
Proof.
  intros Hne Hs run.
  destruct (d1_bulk_import_reports MontrealOpendata fuel sv table_name sql_statements st
              eq_refl Hne) as (evs & Ht & [(Hr & o & Ho) | (Hf & _)]).
  - exists evs, o. auto.
  - now apply (ends_d1_bulk_import MontrealOpendata fuel sv table_name sql_statements Hs)
      in Hf.
Qed.

Lemma every_job_reports_one_outcome_witness :
  exists evs o,
    fst (d1_bulk_import MontrealOpendata 3 corrupting "poles"
           ["INSERT OR REPLACE INTO poles (pole_id) VALUES ('P1')"] initial)
    = Ret VNone
    /\ trace (snd (d1_bulk_import MontrealOpendata 3 corrupting "poles"
                     ["INSERT OR REPLACE INTO poles (pole_id) VALUES ('P1')"] initial))
       = (trace initial ++ evs)%list
    /\ outcomes evs = [o].
Proof.
  apply (every_job_reports_one_outcome 3 corrupting "poles"
           ["INSERT OR REPLACE INTO poles (pole_id) VALUES ('P1')"] initial).
  - discriminate.
  - intros bookmark. exists 0. split; [lia | reflexivity].
Defined.

(** A job whose polls are answered as in progress [n] times and then with
    success: the driver has sent the init request, the upload, the ingest
    request and [n + 1] polls of the bookmark, in this order, has slept [n]
    times, reports the import as completed, and returns [None]. *)
Theorem import_completes_after_pending_polls
    (sc : script) (fuel : nat) (sv : server) (table_name : string)
    (sql_statements : list string) (st : state)
    (upload_url filename bookmark : json) (n : nat) (pr : json) :
  let data := payload sql_statements in
  let hash_str := MD5.hexdigest data in
  sql_statements <> [] ->
  database_found sc sv ->
  init_ok sv hash_str upload_url filename ->
  upload_tag sv upload_url data hash_str ->
  ingest_ok sv hash_str filename bookmark ->
  (forall i, i < n -> exists pr', poll_answer sv i bookmark pr' /\ pending pr') ->
  poll_answer sv n bookmark pr ->
  succeeded pr ->
  n < fuel ->
  let run := d1_bulk_import sc fuel sv table_name sql_statements st in
  exists evs,
    fst run = Ret VNone
    /\ trace (snd run) = (trace st ++ evs)%list
    /\ requests evs = job_requests hash_str data upload_url filename bookmark (S n)
    /\ count_sleeps evs = n
    /\ outcomes evs = [SUCCEEDED].
Proof.
  intros data hash_str Hne Hdb Hinit Htag Hingest Hpend Hans Hs Hfuel run.
  destruct (d1_bulk_import_polls_to_end sc fuel sv table_name sql_statements st
              upload_url filename bookmark n pr (Completed table_name)
              Hne Hdb Hinit Htag Hingest Hpend Hans Hfuel)
    as (evs & Hret & Ht & Hreq & Hsl & Hout).
  { left. split; [assumption | reflexivity]. }
  exists (evs ++ [Print (Completed table_name)])%list.
  unfold run. rewrite requests_app, count_sleeps_app, outcomes_app, Hreq, Hsl, Hout.
  cbn [requests count_sleeps outcomes outcome_of app].
  rewrite app_nil_r, Nat.add_0_r.
  repeat split; assumption || reflexivity.
Qed.

Lemma import_completes_after_pending_polls_witness :
  exists evs,
    trace (snd (d1_bulk_import MontrealOpendata 5 (healthy 2) "poles"
                  ["INSERT OR REPLACE INTO poles (pole_id) VALUES ('P1')"] initial))
    = evs
    /\ List.length (List.filter is_poll (requests evs)) = 3
    /\ count_sleeps evs = 2
    /\ outcomes evs = [SUCCEEDED].
Proof.
  destruct (import_completes_after_pending_polls MontrealOpendata 5 (healthy 2) "poles"
              ["INSERT OR REPLACE INTO poles (pole_id) VALUES ('P1')"] initial
              (JStr "https://r2.example/upload") (JStr "import.sql")
              (JStr "bookmark-0") 2 (JObj [("success", JBool true)]))
    as (evs & _ & Ht & Hreq & Hsl & Hout).
  - discriminate.
  - intros H. discriminate H.
  - apply example_init_ok. reflexivity.
  - replace (MD5.hexdigest
               (payload ["INSERT OR REPLACE INTO poles (pole_id) VALUES ('P1')"]))
      with (etag_of (echo_response
               (payload ["INSERT OR REPLACE INTO poles (pole_id) VALUES ('P1')"])))
      by (vm_compute; reflexivity).
    apply example_upload_tag. reflexivity.
  - apply example_ingest_ok. reflexivity.
  - intros i Hi.
    exists (JObj [("success", JBool false); ("error", JStr "Import in progress")]).
    split; [| apply example_pending; reflexivity].
    apply example_poll_error. cbn [healthy post_poll].
    destruct (Nat.ltb_spec i 2) as [_ | Hge]; [reflexivity | lia].
  - apply example_poll_success. reflexivity.
  - apply example_succeeded.
  - lia.
  - exists evs. rewrite Ht. cbn [initial trace app].
    split; [reflexivity |]. rewrite Hreq, Hsl, Hout.
    repeat split; reflexivity.
Defined.

(** ** The driver of the digital-assets script *)

(** The digital-assets driver looks its database up on every call.  When
    the lookup fails, the call prints the error (for a command or an output
    that cannot be used, the error and then the hint; for a name that no
    database has, one line) and returns [None]: nothing is sent, no job is
    started and no outcome is reported for the batch. *)
Theorem failed_lookup_drops_the_batch
    (fuel : nat) (sv : server) (table_name : string) (sql_statements : list string)
    (st : state) :
  sql_statements <> [] ->
  (forall id, wrangler sv <> inr (Some id)) ->
  let run := d1_bulk_import DigitalAssets fuel sv table_name sql_statements st in
  let errors :=
    match wrangler sv with
    | inl e => [Print (WranglerError e); Print (Banner wrangler_hint)]
    | inr _ => [Print (DatabaseNotFound DB_NAME)]
    end in
  run = (Ret VNone,
         State (trace st ++ [Invoke table_name sql_statements; Lookup] ++ errors)
               (jobs st) None)
  /\ requests (trace (snd run)) = requests (trace st)
  /\ outcomes (trace (snd run)) = outcomes (trace st).
Proof.
  intros Hne Hw run errors.
  assert (Hrun : run = (Ret VNone,
                        State (trace st
                               ++ [Invoke table_name sql_statements; Lookup] ++ errors)
                              (jobs st) None)).
  { unfold run, errors. destruct sql_statements as [|s rest]; [contradiction |].
    unfold d1_bulk_import, enter, lookup_database, bind, print, emit, ret.
    cbn [is_digital_assets trace jobs init_response_var].
    destruct (wrangler sv) as [e | [id |]].
    - cbn [trace jobs init_response_var app]. rewrite <- !app_assoc. reflexivity.
    - exfalso. now apply (Hw id).
    - cbn [trace jobs init_response_var app]. rewrite <- !app_assoc. reflexivity. }
  rewrite Hrun. cbn [snd trace]. rewrite requests_app, outcomes_app.
  split; [reflexivity |].
  unfold errors. destruct (wrangler sv) as [e | o]; cbn; now rewrite !app_nil_r.
Qed.

Lemma failed_lookup_drops_the_batch_witness :
  d1_bulk_import DigitalAssets 3
    (Server (fun _ => inr init_response_example)
            (fun _ data => inr (echo_response data))
            (fun _ _ => inr ingest_response_example)
            (fun _ _ => inr poll_success)
            (inl (JSONDecodeError "Expecting value")))
    "sign_definitions"
    ["INSERT OR REPLACE INTO sign_definitions (sign_code) VALUES ('P-010')"] initial
  = (Ret VNone,
     State [Invoke "sign_definitions"
              ["INSERT OR REPLACE INTO sign_definitions (sign_code) VALUES ('P-010')"];
            Lookup; Print (WranglerError (JSONDecodeError "Expecting value"));
            Print (Banner wrangler_hint)]
           0 None).
Proof.
  apply (failed_lookup_drops_the_batch 3
           (Server (fun _ => inr init_response_example)
                   (fun _ data => inr (echo_response data))
                   (fun _ _ => inr ingest_response_example)
                   (fun _ _ => inr poll_success)
                   (inl (JSONDecodeError "Expecting value")))
           "sign_definitions"
           ["INSERT OR REPLACE INTO sign_definitions (sign_code) VALUES ('P-010')"]
           initial).
  - discriminate.
  - intros id H. discriminate H.
Defined.

(** In the digital-assets driver the clause for [json.JSONDecodeError] names
    a variable, [response], that the function never binds.  A decode error
    that reaches this clause is therefore not reported: the clause raises a
    [NameError], which no later clause of the same [try] catches, and the
    error leaves the driver without an outcome for the batch. *)
Theorem decode_error_escapes_the_assets_driver
    (fuel : nat) (sv : server) (table_name : string) (sql_statements : list string)
    (st s1 : state) (msg : string) :
  sql_statements <> [] ->
  database_found DigitalAssets sv ->
  protocol DigitalAssets fuel sv table_name (payload sql_statements)
           (MD5.hexdigest (payload sql_statements))
           (job_start DigitalAssets table_name sql_statements st)
  = (Raise (JSONDecodeError msg), s1) ->
  d1_bulk_import DigitalAssets fuel sv table_name sql_statements st
  = (Raise (OtherException "NameError: name 'response' is not defined"), s1)
  /\ outcomes (trace s1) = outcomes (trace st).
Proof.
  intros Hne Hdb Hp.
  rewrite (d1_bulk_import_outcome DigitalAssets fuel sv table_name sql_statements st s1 _
             Hne Hdb Hp).
  split; [reflexivity |].
  destruct (protocol_reports_at_end DigitalAssets fuel sv table_name
              (payload sql_statements) (MD5.hexdigest (payload sql_statements))
              (job_start DigitalAssets table_name sql_statements st))
    as [(evs & Ht & Ho) | (a & Ha)]; [| rewrite Hp in Ha; discriminate].
  rewrite Hp in Ht. cbn [snd] in Ht. rewrite Ht. unfold job_start. cbn [trace].
  destruct (opening_shape DigitalAssets table_name sql_statements) as (_ & Hout0 & _).
  rewrite !outcomes_app, Hout0, Ho. now rewrite !app_nil_r.
Qed.

Lemma decode_error_escapes_the_assets_driver_witness :
  fst (d1_bulk_import DigitalAssets 3 garbling "sign_definitions"
         ["INSERT OR REPLACE INTO sign_definitions (sign_code) VALUES ('P-010')"] initial)
  = Raise (OtherException "NameError: name 'response' is not defined").
Proof.
  destruct (decode_error_escapes_the_assets_driver 3 garbling "sign_definitions"
              ["INSERT OR REPLACE INTO sign_definitions (sign_code) VALUES ('P-010')"]
              initial
              (snd (protocol DigitalAssets 3 garbling "sign_definitions"
                      (payload ["INSERT OR REPLACE INTO sign_definitions (sign_code) VALUES ('P-010')"])
                      (MD5.hexdigest (payload ["INSERT OR REPLACE INTO sign_definitions (sign_code) VALUES ('P-010')"]))
                      (job_start DigitalAssets "sign_definitions"
                         ["INSERT OR REPLACE INTO sign_definitions (sign_code) VALUES ('P-010')"]
                         initial)))
              "Expecting value")
    as (Hrun & _).
  - discriminate.
  - intros _. exists "0000-0000". reflexivity.
  - vm_compute. reflexivity.
  - rewrite Hrun. reflexivity.
Defined.


(** ** The loops of the other tables *)

Lemma invoked_app (a b : list event) : invoked (a ++ b) = (invoked a ++ invoked b)%list.
Proof.
  induction a as [|ev a IH]; [reflexivity |].
  destruct ev; cbn [app invoked]; rewrite IH; reflexivity.
Qed.

Lemma invoked_none (evs : list event) : invocations evs = [] -> invoked evs = [].
Proof.
  induction evs as [|ev evs IH]; [reflexivity |].
  destruct ev; cbn [invocations invoked]; try exact IH. discriminate.
Qed.

Lemma added_app (a b : list (exn + string)) : added (a ++ b) = (added a ++ added b)%list.
Proof.
  induction a as [|[e | s] a IH]; cbn [app added]; [reflexivity | exact IH |].
  now rewrite IH.
Qed.

Lemma batcher_loop_app (batch_size : Z) (a b : list string) :
  forall batch,
    batcher_loop batch_size (a ++ b) batch
    = let (s1, f1) := batcher_loop batch_size a batch in
      let (s2, f2) := batcher_loop batch_size b f1 in
      ((s1 ++ s2)%list, f2).
Proof.
  induction a as [|s a IH]; intros batch; cbn [app batcher_loop].
  - destruct (batcher_loop batch_size b batch); reflexivity.
  - destruct (Z.of_nat (List.length (batch ++ [s])) >=? batch_size)%Z; [| apply IH].
    rewrite IH. destruct (batcher_loop batch_size a []) as [s1 f1].
    destruct (batcher_loop batch_size b f1); reflexivity.
Qed.

(** The loop of a table hands to the driver, under the name of the table
    and in order, the batches the batcher forms from the batch it starts
    with. *)
Lemma poles_loop_invoked (fuel : nat) (world : nat -> server) (table_name : string)
    (batch_size : Z) (rows : list (exn + string)) (stop : option exn) :
  forall (i : nat) (batch : list string) (st : state),
    fst (poles_loop fuel world table_name batch_size rows stop i batch st) = OutOfFuel
    \/ (fst (poles_loop fuel world table_name batch_size rows stop i batch st)
        = loop_end stop (snd (batcher_loop batch_size (added rows) batch))
        /\ invoked (trace (snd (poles_loop fuel world table_name batch_size rows stop i
                                           batch st)))
           = (invoked (trace st)
              ++ List.map (pair table_name)
                          (fst (batcher_loop batch_size (added rows) batch)))%list).
Proof.
  induction rows as [|[e | s] rest IH]; intros i batch st.
  - right. rewrite poles_loop_end. cbn. now rewrite app_nil_r.
  - rewrite poles_loop_raises. cbn [added].
    destruct (IH (S i) batch (log [Print (RowError (S i) e)] st)) as [Hf | (Hr & Hi)];
      [now left | right].
    split; [exact Hr |]. rewrite Hi. unfold log. cbn [trace].
    rewrite invoked_app. cbn [invoked]. now rewrite app_nil_r.
  - rewrite poles_loop_statement. cbn [added batcher_loop].
    destruct (Z.of_nat (List.length (batch ++ [s])) >=? batch_size)%Z; [| apply IH].
    pose proof (d1_bulk_import_no_raise MontrealOpendata fuel (world (jobs st)) table_name
                  (batch ++ [s])%list
                  (State (trace st) (S (jobs st)) (init_response_var st)) eq_refl) as Hres.
    destruct (d1_bulk_import_frame MontrealOpendata fuel (world (jobs st)) table_name
                (batch ++ [s])%list
                (State (trace st) (S (jobs st)) (init_response_var st)))
      as (evs & Ht & Hinv & _).
    apply invoked_none in Hinv.
    destruct (d1_bulk_import _ _ _ _ _ _) as [[v | e |] sd]; cbn [fst snd] in *.
    + destruct (IH (S i) [] sd) as [Hf | (Hr & Hi)]; [now left | right].
      destruct (batcher_loop batch_size (added rest) []) as [submitted final].
      cbn [fst snd List.map] in *. split; [exact Hr |].
      rewrite Hi, Ht. cbn [trace]. rewrite invoked_app. cbn [invoked].
      rewrite Hinv, <- app_assoc. reflexivity.
    + destruct Hres; discriminate.
    + now left.
Qed.

Lemma flush_invoked (fuel : nat) (world : nat -> server) (table_name : string)
    (batch : list string) (st : state) :
  fst (flush fuel world table_name batch st) = OutOfFuel
  \/ (fst (flush fuel world table_name batch st) = Ret tt
      /\ invoked (trace (snd (flush fuel world table_name batch st)))
         = (invoked (trace st)
            ++ match batch with
               | [] => []
               | _ :: _ => [(table_name, batch)]
               end)%list).
Proof.
  destruct batch as [|s batch].
  - right. cbn. now rewrite app_nil_r.
  - assert (Heq : flush fuel world table_name (s :: batch) st
                  = match d1_bulk_import MontrealOpendata fuel (world (jobs st)) table_name
                            (s :: batch)
                            (State (trace st) (S (jobs st)) (init_response_var st)) with
                    | (Ret _, sd) => (Ret tt, sd)
                    | (Raise e, sd) => (Raise e, sd)
                    | (OutOfFuel, sd) => (OutOfFuel, sd)
                    end).
    { unfold flush, bind, next_server, ret.
      destruct (d1_bulk_import _ _ _ _ _ _) as [[v | e |] sd]; reflexivity. }
    rewrite Heq. clear Heq.
    pose proof (d1_bulk_import_no_raise MontrealOpendata fuel (world (jobs st)) table_name
                  (s :: batch)
                  (State (trace st) (S (jobs st)) (init_response_var st)) eq_refl) as Hres.
    destruct (d1_bulk_import_frame MontrealOpendata fuel (world (jobs st)) table_name
                (s :: batch)
                (State (trace st) (S (jobs st)) (init_response_var st)))
      as (evs & Ht & Hinv & _).
    apply invoked_none in Hinv.
    destruct (d1_bulk_import _ _ _ _ _ _) as [[v | e |] sd]; cbn [fst snd] in *.
    + right. split; [reflexivity |].
      rewrite Ht. cbn [trace]. rewrite invoked_app. cbn [invoked]. now rewrite Hinv.
    + destruct Hres; discriminate.
    + now left.
Qed.

(** ** Composing runs *)

Lemma hands_over_bind {A B : Type} (c : M A) (k : A -> M B) (st : state)
    (l1 l2 : list (string * list string)) (R1 : A -> Prop) (R2 : B -> Prop) :
  hands_over c st l1 R1 ->
  (forall a s1, R1 a -> hands_over (k a) s1 l2 R2) ->
  hands_over (bind c k) st (l1 ++ l2) R2.
Proof.
  unfold hands_over, bind. intros (a & Ha & HR & Hi) Hk.
  destruct (c st) as [[a' | e |] s1]; cbn [fst snd] in *; try discriminate.
  injection Ha as ->.
  destruct (Hk a s1 HR) as (b & Hb & HR2 & Hi2).
  exists b. rewrite Hi2, Hi, <- app_assoc. auto.
Qed.

Lemma hands_over_ret {A : Type} (a : A) (st : state) : hands_over (ret a) st [] (eq a).
Proof. exists a. cbn. now rewrite app_nil_r. Qed.

Lemma hands_over_print (m : message) (st : state) :
  hands_over (print m) st [] (fun _ => True).
Proof.
  exists tt. unfold print. rewrite emit_log. unfold log. cbn [fst snd trace].
  rewrite invoked_app. cbn [invoked]. auto.
Qed.

Lemma hands_over_result {A : Type} (c : M A) (st : state)
    (l : list (string * list string)) (R R' : A -> Prop) :
  (forall a, R a -> R' a) -> hands_over c st l R -> hands_over c st l R'.
Proof. intros HR (a & Ha & Hr & Hi). exists a. auto. Qed.

Lemma hands_over_batches {A : Type} (c : M A) (st : state)
    (l l' : list (string * list string)) (R : A -> Prop) :
  l = l' -> hands_over c st l R -> hands_over c st l' R.
Proof. now intros ->. Qed.

Lemma batches_of_loop (table_name : string) (batch_size : Z) (statements : list string) :
  (List.map (pair table_name) (fst (batcher_loop batch_size statements []))
   ++ match snd (batcher_loop batch_size statements []) with
      | [] => []
      | _ :: _ => [(table_name, snd (batcher_loop batch_size statements []))]
      end)%list
  = batches_of table_name batch_size statements.
Proof.
  unfold batches_of, batcher.
  destruct (batcher_loop batch_size statements []) as [submitted final].
  cbn [fst snd]. destruct final; [now rewrite app_nil_r | now rewrite map_app].
Qed.

(** ** Runs over servers whose polls settle *)

Lemma ends_call {A : Type} (world : nat -> server) (k : server -> M A) :
  (forall j, ends (k (world j))) -> ends (bind (next_server world) k).
Proof. intros H st. unfold bind, next_server. apply H. Qed.

Section Settled.

Variable fuel : nat.
Variable world : nat -> server.
Hypothesis settled : forall j, settles fuel (world j).

Lemma ends_poles_loop (table_name : string) (batch_size : Z)
    (rows : list (exn + string)) (stop : option exn) :
  forall (i : nat) (batch : list string),
    ends (poles_loop fuel world table_name batch_size rows stop i batch).
Proof.
  induction rows as [|[e | s] rest IH]; intros i batch; cbn [poles_loop].
  - destruct stop; [apply ends_raise | apply ends_ret].
  - apply ends_bind; [apply ends_emit | intros _; apply IH].
  - apply ends_bind; [| intros b; apply IH].
    apply ends_if; [| apply ends_ret].
    apply ends_try_except.
    + apply ends_call. intros j.
      apply ends_bind; [| intros _; apply ends_ret].
      apply ends_d1_bulk_import, settled.
    + intros e. apply ends_bind; [apply ends_emit | intros _; apply ends_ret].
Qed.

Lemma ends_flush (table_name : string) (batch : list string) :
  ends (flush fuel world table_name batch).
Proof.
  destruct batch as [|s batch]; [apply ends_ret |].
  unfold flush. apply ends_call. intros j.
  apply ends_bind; [| intros _; apply ends_ret].
  apply ends_d1_bulk_import, settled.
Qed.

(** The loop over a file that is read to its end. *)
Lemma hands_over_poles_loop (table_name : string) (batch_size : Z)
    (rows : list (exn + string)) (i : nat) (batch : list string) (st : state) :
  hands_over (poles_loop fuel world table_name batch_size rows None i batch) st
    (List.map (pair table_name) (fst (batcher_loop batch_size (added rows) batch)))
    (eq (snd (batcher_loop batch_size (added rows) batch))).
Proof.
  destruct (poles_loop_invoked fuel world table_name batch_size rows None i batch st)
    as [Hf | (Hr & Hi)].
  - now apply ends_poles_loop in Hf.
  - eexists. split; [exact Hr |]. split; [reflexivity | exact Hi].
Qed.

(** The loop over a file whose reader stops with an exception: the
    exception leaves the loop, after the batches formed from the rows read
    have been handed over. *)
Lemma poles_loop_stopped (table_name : string) (batch_size : Z)
    (rows : list (exn + string)) (e : exn) (i : nat) (batch : list string) (st : state) :
  fst (poles_loop fuel world table_name batch_size rows (Some e) i batch st) = Raise e
  /\ invoked (trace (snd (poles_loop fuel world table_name batch_size rows (Some e) i
                                     batch st)))
     = (invoked (trace st)
        ++ List.map (pair table_name)
                    (fst (batcher_loop batch_size (added rows) batch)))%list.
Proof.
  destruct (poles_loop_invoked fuel world table_name batch_size rows (Some e) i batch st)
    as [Hf | H]; [| exact H].
  now apply ends_poles_loop in Hf.
Qed.

Lemma hands_over_flush (table_name : string) (batch : list string) (st : state) :
  hands_over (flush fuel world table_name batch) st
    (match batch with
     | [] => []
     | _ :: _ => [(table_name, batch)]
     end)
    (fun _ => True).
Proof.
  destruct (flush_invoked fuel world table_name batch st) as [Hf | (Hr & Hi)].
  - now apply ends_flush in Hf.
  - exists tt. auto.
Qed.

(** A loop from the empty batch followed by its flush: the batches of the
    batcher, all of them. *)
Lemma hands_over_table (table_name : string) (batch_size : Z)
    (rows : list (exn + string)) (st : state) :
  hands_over
    (batch <- poles_loop fuel world table_name batch_size rows None 0 [] ;;
     flush fuel world table_name batch) st
    (batches_of table_name batch_size (added rows))
    (fun _ => True).
Proof.
  eapply hands_over_batches;
    [| eapply hands_over_bind; [apply hands_over_poles_loop |]].
  2:{ intros a s1 <-. apply hands_over_flush. }
  apply batches_of_loop.
Qed.

Lemma hands_over_files_loop (table_name : string) (batch_size : Z)
    (files : list (string * csv_file)) :
  Forall (fun f => read_to_end (snd f)) files ->
  forall (batch : list string) (st : state),
    hands_over (files_loop fuel world table_name batch_size files batch) st
      (List.map (pair table_name)
         (fst (batcher_loop batch_size
                 (List.concat (List.map (fun f => statements_of (snd f)) files)) batch)))
      (eq (snd (batcher_loop batch_size
                  (List.concat (List.map (fun f => statements_of (snd f)) files)) batch))).
Proof.
  induction files as [|[name [[rows stop] |]] files IH]; intros Hread batch st.
  - cbn [files_loop List.map List.concat batcher_loop fst snd]. apply hands_over_ret.
  - inversion Hread as [|f fs Hf Hfs]; subst. cbn in Hf. subst stop.
    cbn [files_loop List.map List.concat snd statements_of rows_of stops_with].
    rewrite batcher_loop_app.
    pose proof (fun i st => hands_over_poles_loop table_name batch_size rows i
                              batch st) as Hp.
    destruct (batcher_loop batch_size (added rows) batch) as [s1 f1].
    pose proof (IH Hfs f1) as IH1.
    destruct (batcher_loop batch_size _ f1) as [s2 f2]. cbn [fst snd] in *.
    eapply hands_over_batches;
      [| eapply hands_over_bind; [apply hands_over_print |]].
    2:{ intros _ s1' _. eapply hands_over_bind; [apply Hp |].
        intros b s2' <-. apply IH1. }
    cbn [app]. now rewrite map_app.
  - inversion Hread as [|f fs Hf Hfs]; subst.
    cbn [files_loop List.map List.concat snd statements_of app].
    eapply hands_over_batches;
      [| eapply hands_over_bind; [apply hands_over_print |]].
    2:{ intros _ s1 _. apply (IH Hfs). }
    reflexivity.
Qed.

Lemma hands_over_sign_instances (batch_size : Z) (parking other : csv_file) (st : state) :
  read_to_end parking ->
  read_to_end other ->
  hands_over
    (ingest_montreal_sign_instances_data fuel world batch_size parking other) st
    (batches_of "montreal_open_data_sign_instances" batch_size
       (statements_of parking ++ statements_of other))
    (eq VNone).
Proof.
  intros Hp Ho. unfold ingest_montreal_sign_instances_data.
  pose proof (hands_over_files_loop "montreal_open_data_sign_instances"
                batch_size
                [("signalisation_stationnement.csv", parking);
                 ("signalisation_excluant_stationnement.csv", other)]
                ltac:(repeat constructor; assumption) []) as Hl.
  cbn [List.map List.concat snd] in Hl. rewrite app_nil_r in Hl.
  eapply hands_over_batches;
    [| eapply hands_over_bind; [apply hands_over_print |]].
  2:{ intros _ s1 _. eapply hands_over_bind; [apply Hl |].
      intros b s2 <-. eapply hands_over_bind; [apply hands_over_flush |].
      intros _ s3 _. eapply hands_over_bind; [apply hands_over_print |].
      intros _ s4 _. apply hands_over_ret. }
  cbn [app]. rewrite !app_nil_r. apply batches_of_loop.
Qed.

Lemma hands_over_construction (batch_size : Z) (zones : csv_file)
    (impacts_found : bool) (impacts : csv_file) (st : state) :
  read_to_end zones ->
  read_to_end impacts ->
  hands_over
    (ingest_construction_data fuel world batch_size zones impacts_found impacts)
    st
    (match zones with
     | None => []
     | Some _ =>
         batches_of "construction_zones" batch_size (statements_of zones)
         ++ batches_of "construction_impact_details" batch_size
              (statements_of impacts)
     end)%list
    (eq VNone).
Proof.
  intros Hz Hi. unfold ingest_construction_data.
  destruct zones as [[zone_rows zstop] |].
  - cbn in Hz. subst zstop. cbn [rows_of stops_with].
    eapply hands_over_batches;
      [| eapply hands_over_bind; [apply hands_over_print |]].
    2:{ intros _ s1 _. eapply (hands_over_bind _ _ _ [] _ (fun _ => True)).
        { destruct impacts_found; [| apply hands_over_print].
          eapply hands_over_result; [| apply hands_over_ret]. intros; exact I. }
        intros _ s2 _. eapply hands_over_bind; [apply hands_over_print |].
        intros _ s3 _.
        eapply hands_over_bind; [apply hands_over_poles_loop |].
        intros b s4 <-. eapply hands_over_bind; [apply hands_over_flush |].
        intros _ s5 _. eapply hands_over_bind; [apply hands_over_print |].
        intros _ s6 _.
        eapply (hands_over_bind _ _ _
                  (batches_of "construction_impact_details" batch_size
                     (statements_of impacts)) _ (fun _ => True)).
        { destruct impacts as [[impact_rows istop] |].
          - cbn in Hi. subst istop. cbn [rows_of stops_with].
            eapply hands_over_batches;
              [| eapply hands_over_bind; [apply hands_over_print |]].
            2:{ intros _ s7 _. apply hands_over_table. }
            reflexivity.
          - eapply hands_over_result; [| apply hands_over_ret]. intros; exact I. }
        intros _ s8 _. eapply hands_over_bind; [apply hands_over_print |].
        intros _ s9 _. apply hands_over_ret. }
    cbn [app statements_of rows_of]. rewrite !app_nil_r.
    rewrite app_assoc, batches_of_loop. reflexivity.
  - eapply hands_over_batches;
      [| eapply hands_over_bind; [apply hands_over_print |]].
    2:{ intros _ s1 _. eapply hands_over_bind; [apply hands_over_print |].
        intros _ s2 _. apply hands_over_ret. }
    reflexivity.
Qed.

Lemma hands_over_taxi_stands (batch_size : Z) (stands : csv_file) (st : state) :
  read_to_end stands ->
  hands_over (ingest_taxi_stands_data fuel world batch_size stands) st
    (batches_of "taxi_stands" batch_size (statements_of stands))
    (eq VNone).
Proof.
  intros Hs. unfold ingest_taxi_stands_data.
  destruct stands as [[rows stop] |].
  - cbn in Hs. subst stop. cbn [rows_of stops_with].
    eapply hands_over_batches;
      [| eapply hands_over_bind; [apply hands_over_print |]].
    2:{ intros _ s1 _.
        eapply hands_over_bind; [apply hands_over_poles_loop |].
        intros b s2 <-. eapply hands_over_bind; [apply hands_over_flush |].
        intros _ s3 _. eapply hands_over_bind; [apply hands_over_print |].
        intros _ s4 _. apply hands_over_ret. }
    cbn [app statements_of rows_of]. rewrite !app_nil_r. apply batches_of_loop.
  - eapply hands_over_batches;
      [| eapply hands_over_bind; [apply hands_over_print |]].
    2:{ intros _ s1 _. eapply hands_over_bind; [apply hands_over_print |].
        intros _ s2 _. apply hands_over_ret. }
    reflexivity.
Qed.

End Settled.

(** [ingest_montreal_sign_instances_data] reads its two files into one
    batch.  When the polls of every job settle and the files are read to
    their end, the function returns [None], and the statements of the first
    file and then those of the second have been handed to the driver in
    batches of the batch size, as one sequence: the batch left at the end of
    the first file is not flushed there but filled up with the rows of the
    second, and the one flush comes after the last file.  A missing file
    adds nothing.  Every batch goes to the table
    [montreal_open_data_sign_instances]. *)
Theorem sign_instances_share_one_batch
    (fuel : nat) (world : nat -> server) (batch_size : Z) (parking other : csv_file)
    (st : state) :
  (forall j, settles fuel (world j)) ->
  read_to_end parking ->
  read_to_end other ->
  let run := ingest_montreal_sign_instances_data fuel world batch_size parking other st in
  fst run = Ret VNone
  /\ invoked (trace (snd run))
     = (invoked (trace st)
        ++ batches_of "montreal_open_data_sign_instances" batch_size
             (statements_of parking ++ statements_of other))%list.
Proof.
  intros Hs Hp Ho run.
  destruct (hands_over_sign_instances fuel world Hs batch_size parking other st Hp Ho)
    as (a & Ha & <- & Hi).
  split; [exact Ha | exact Hi].
Qed.

Lemma sign_instances_share_one_batch_witness :
  invoked
    (trace
       (snd
          (ingest_montreal_sign_instances_data 1 (fun _ => healthy 0) 2
             (Some (Reader [inr "P1"] None))
             (Some (Reader [inr "O1"; inl (OtherException "KeyError: 'POTEAU_ID_POT'");
                            inr "O2"] None))
             initial)))
  = [("montreal_open_data_sign_instances", ["P1"; "O1"]);
     ("montreal_open_data_sign_instances", ["O2"])].
Proof.
  destruct (sign_instances_share_one_batch 1 (fun _ => healthy 0) 2
              (Some (Reader [inr "P1"] None))
              (Some (Reader [inr "O1"; inl (OtherException "KeyError: 'POTEAU_ID_POT'");
                             inr "O2"] None))
              initial) as (_ & Hi).
  - intros j bookmark. exists 0. split; [lia | reflexivity].
  - reflexivity.
  - reflexivity.
  - rewrite Hi. reflexivity.
Defined.

(** [ingest_construction_data] batches its two tables apart.  When the
    polls of every job settle and the files are read to their end, the
    function returns [None], and the zones have been handed over in the
    batches of the batcher, the last of them flushed before the first impact
    is read, and then the impacts in batches of their own.  Without the file
    of the zones nothing is ingested, the impacts neither; without the file
    of the impacts the zones are ingested all the same, whatever the check
    at the top of the function found. *)
Theorem construction_tables_are_batched_apart
    (fuel : nat) (world : nat -> server) (batch_size : Z) (zones : csv_file)
    (impacts_found : bool) (impacts : csv_file) (st : state) :
  (forall j, settles fuel (world j)) ->
  read_to_end zones ->
  read_to_end impacts ->
  let run :=
    ingest_construction_data fuel world batch_size zones impacts_found impacts st in
  fst run = Ret VNone
  /\ invoked (trace (snd run))
     = (invoked (trace st)
        ++ match zones with
           | None => []
           | Some _ =>
               batches_of "construction_zones" batch_size (statements_of zones)
               ++ batches_of "construction_impact_details" batch_size
                    (statements_of impacts)
           end)%list.
Proof.
  intros Hs Hz Him run.
  destruct (hands_over_construction fuel world Hs batch_size zones impacts_found impacts
              st Hz Him) as (a & Ha & <- & Hi).
  split; [exact Ha | exact Hi].
Qed.

Lemma construction_tables_are_batched_apart_witness :
  invoked
    (trace
       (snd
          (ingest_construction_data 1 (fun _ => healthy 0) 2
             (Some (Reader [inr "Z1"; inr "Z2"; inr "Z3"] None)) true
             (Some (Reader [inr "I1"] None))
             initial)))
  = [("construction_zones", ["Z1"; "Z2"]); ("construction_zones", ["Z3"]);
     ("construction_impact_details", ["I1"])].
Proof.
  destruct (construction_tables_are_batched_apart 1 (fun _ => healthy 0) 2
              (Some (Reader [inr "Z1"; inr "Z2"; inr "Z3"] None)) true
              (Some (Reader [inr "I1"] None))
              initial) as (_ & Hi).
  - intros j bookmark. exists 0. split; [lia | reflexivity].
  - reflexivity.
  - reflexivity.
  - rewrite Hi. reflexivity.
Defined.

(** [ingest_taxi_stands_data]: without its file nothing is ingested.  With
    it, when the polls of every job settle and the file is read to its end,
    the function returns [None], and the statements of the rows that did not
    raise have gone to the table [taxi_stands] in the batches of the
    batcher, each handed over once and in order, whatever else the servers
    answer. *)
Theorem taxi_stands_are_batched
    (fuel : nat) (world : nat -> server) (batch_size : Z) (stands : csv_file)
    (st : state) :
  (forall j, settles fuel (world j)) ->
  read_to_end stands ->
  let run := ingest_taxi_stands_data fuel world batch_size stands st in
  fst run = Ret VNone
  /\ invoked (trace (snd run))
     = (invoked (trace st)
        ++ batches_of "taxi_stands" batch_size (statements_of stands))%list.
Proof.
  intros Hs Hr run.
  destruct (hands_over_taxi_stands fuel world Hs batch_size stands st Hr)
    as (a & Ha & <- & Hi).
  split; [exact Ha | exact Hi].
Qed.

Lemma taxi_stands_are_batched_witness :
  invoked
    (trace
       (snd
          (ingest_taxi_stands_data 1 (fun j => if (j =? 0)%nat then refusing else healthy 0)
             1
             (Some (Reader [inr "T1"; inl (OtherException "ValueError"); inr "T2"] None))
             initial)))
  = [("taxi_stands", ["T1"]); ("taxi_stands", ["T2"])].
Proof.
  destruct (taxi_stands_are_batched 1
              (fun j => if (j =? 0)%nat then refusing else healthy 0) 1
              (Some (Reader [inr "T1"; inl (OtherException "ValueError"); inr "T2"] None))
              initial) as (_ & Hi).
  - intros j bookmark. exists 0. split; [lia |]. destruct j; reflexivity.
  - reflexivity.
  - rewrite Hi. reflexivity.
Defined.


(** ** The run of the digital-assets script *)

Lemma assets_loop_app (fuel : nat) (world : nat -> server) (table_name : string)
    (batch_size : Z) (a b : list (exn + option string)) :
  forall (batch : list string) (st : state),
    assets_loop fuel world table_name batch_size (a ++ b) batch st
    = match assets_loop fuel world table_name batch_size a batch st with
      | (Ret f, s1) => assets_loop fuel world table_name batch_size b f s1
      | (Raise e, s1) => (Raise e, s1)
      | (OutOfFuel, s1) => (OutOfFuel, s1)
      end.
Proof.
  induction a as [|[e | [s |]] a IH]; intros batch st.
  - reflexivity.
  - reflexivity.
  - cbn [app]. rewrite !assets_loop_statement.
    destruct (Z.of_nat (List.length (batch ++ [s])) >=? batch_size)%Z; [| apply IH].
    destruct (d1_bulk_import _ _ _ _ _ _) as [[v | e |] sd]; [apply IH | reflexivity ..].
  - cbn [app assets_loop]. apply IH.
Qed.

Lemma assets_loop_returns (fuel : nat) (world : nat -> server) (table_name : string)
    (batch_size : Z) (rows : list (exn + option string)) :
  forall (batch final : list string) (st : state),
    fst (assets_loop fuel world table_name batch_size rows batch st) = Ret final ->
    forall e, ~ In (inl e) rows.
Proof.
  induction rows as [|[e | [s |]] rows IH]; intros batch final st H e' Hin.
  - contradiction.
  - cbn in H. discriminate.
  - destruct Hin as [Hin | Hin]; [discriminate |].
    rewrite assets_loop_statement in H.
    destruct (Z.of_nat (List.length (batch ++ [s])) >=? batch_size)%Z.
    + destruct (d1_bulk_import _ _ _ _ _ _) as [[v | e |] sd]; try discriminate.
      exact (IH _ _ _ H e' Hin).
    + exact (IH _ _ _ H e' Hin).
  - destruct Hin as [Hin | Hin]; [discriminate |].
    cbn [assets_loop] in H. exact (IH _ _ _ H e' Hin).
Qed.

(** The run of [ingest_digital_assets] in terms of its loop. *)
Lemma ingest_digital_assets_loop (fuel : nat) (world : nat -> server) (batch_size : Z)
    (rows : list (exn + option string)) (st : state) :
  ingest_digital_assets fuel world batch_size rows st
  = match assets_loop fuel world "sign_definitions" batch_size rows []
            (log [Print (Banner "Starting Ingestion of Digital Assets")] st) with
    | (Ret batch, s1) =>
        ((match batch with
          | [] => ret VNone
          | _ :: _ =>
              sv <- next_server world ;;
              d1_bulk_import DigitalAssets fuel sv "sign_definitions" batch
          end) ;;
         print (Banner "Finished Ingestion of Digital Assets") ;;
         ret VNone) s1
    | (Raise e, s1) => (Raise e, s1)
    | (OutOfFuel, s1) => (OutOfFuel, s1)
    end.
Proof.
  unfold ingest_digital_assets. unfold bind at 1, print. rewrite emit_log.
  unfold bind at 1.
  destruct (assets_loop _ _ _ _ _ _ _) as [[batch | e |] s1]; reflexivity.
Qed.

(** The loop of [ingest_digital_assets] has no [try]: a row that raises (a
    column that is missing, an image path that is empty, an upload answered
    by a body without the expected fields) ends the run there.  The rows
    after it are not read, and the statements gathered since the last full
    batch, fewer than the batch size, are never handed to the driver: the
    flush after the loop is not reached. *)
Theorem raising_row_loses_the_pending_batch
    (fuel : nat) (world : nat -> server) (batch_size : Z)
    (before after : list (exn + option string)) (e : exn)
    (st s1 : state) (final : list string) :
  (0 < batch_size)%Z ->
  assets_loop fuel world "sign_definitions" batch_size before []
    (log [Print (Banner "Starting Ingestion of Digital Assets")] st) = (Ret final, s1) ->
  ingest_digital_assets fuel world batch_size (before ++ inl e :: after) st = (Raise e, s1)
  /\ invocations (trace s1)
     = (invocations (trace st)
        ++ fst (batcher_loop batch_size (added_assets before) []))%list
  /\ (List.concat (fst (batcher_loop batch_size (added_assets before) [])) ++ final)%list
     = added_assets before
  /\ (Z.of_nat (List.length final) < batch_size)%Z.
Proof.
  intros HB Hloop.
  rewrite ingest_digital_assets_loop, assets_loop_app, Hloop.
  split; [reflexivity |].
  destruct (assets_loop_invocations fuel world "sign_definitions" batch_size before []
              final (log [Print (Banner "Starting Ingestion of Digital Assets")] st))
    as (Hfin & Hi).
  { now rewrite Hloop. }
  rewrite Hloop in Hi. cbn [snd] in Hi.
  pose proof (batcher_loop_invariant batch_size HB (added_assets before) []
                ltac:(cbn [List.length]; lia)) as Hinv.
  destruct (batcher_loop batch_size (added_assets before) []) as [submitted fin].
  cbn [fst snd] in *. subst fin.
  destruct Hinv as (Hcat & _ & Hlen & _).
  split; [| split; [exact Hcat | exact Hlen]].
  rewrite Hi. unfold log. cbn [trace]. rewrite invocations_app. cbn [invocations].
  now rewrite app_nil_r.
Qed.

Lemma raising_row_loses_the_pending_batch_witness :
  ingest_digital_assets 3 (fun _ => healthy 0) 2
    [inr (Some "INSERT OR REPLACE INTO sign_definitions (sign_code) VALUES ('P-010')");
     inl (OtherException "KeyError: 'reference_id'");
     inr (Some "INSERT OR REPLACE INTO sign_definitions (sign_code) VALUES ('P-020')")]
    initial
  = (Raise (OtherException "KeyError: 'reference_id'"),
     State [Print (Banner "Starting Ingestion of Digital Assets")] 0 None).
Proof.
  apply (raising_row_loses_the_pending_batch 3 (fun _ => healthy 0) 2
           [inr (Some "INSERT OR REPLACE INTO sign_definitions (sign_code) VALUES ('P-010')")]
           [inr (Some "INSERT OR REPLACE INTO sign_definitions (sign_code) VALUES ('P-020')")]
           (OtherException "KeyError: 'reference_id'") initial
           (State [Print (Banner "Starting Ingestion of Digital Assets")] 0 None)
           ["INSERT OR REPLACE INTO sign_definitions (sign_code) VALUES ('P-010')"]).
  - lia.
  - reflexivity.
Defined.

(** When the run of [ingest_digital_assets] returns, no row has raised, the
    rows whose image could not be uploaded have been passed over, and the
    statements of the other rows have been handed to the driver in the
    batches of the batcher, in order; the run returns [None]. *)
Theorem assets_run_batches_the_uploaded_rows
    (fuel : nat) (world : nat -> server) (batch_size : Z)
    (rows : list (exn + option string)) (st : state) (v : value) :
  fst (ingest_digital_assets fuel world batch_size rows st) = Ret v ->
  v = VNone
  /\ (forall e, ~ In (inl e) rows)
  /\ invocations (trace (snd (ingest_digital_assets fuel world batch_size rows st)))
     = (invocations (trace st) ++ batcher batch_size (added_assets rows))%list.
Proof.
  intros H.
  split; [| split; [| exact (ingest_digital_assets_invocations _ _ _ _ _ _ H)]].
  - rewrite ingest_digital_assets_loop in H.
    destruct (assets_loop _ _ _ _ _ _ _) as [[batch | e |] s1]; try discriminate.
    unfold bind at 1 in H.
    destruct ((match batch with
               | [] => ret VNone
               | _ :: _ =>
                   sv <- next_server world ;;
                   d1_bulk_import DigitalAssets fuel sv "sign_definitions" batch
               end) s1) as [[v' | e |] s2]; try discriminate.
    unfold bind, print, ret in H. rewrite emit_log in H. cbn [fst] in H.
    now injection H as <-.
  - rewrite ingest_digital_assets_loop in H.
    destruct (assets_loop fuel world "sign_definitions" batch_size rows []
                (log [Print (Banner "Starting Ingestion of Digital Assets")] st))
      as [[batch | e |] s1] eqn:Hl; try discriminate.
    apply (assets_loop_returns fuel world "sign_definitions" batch_size rows [] batch
             (log [Print (Banner "Starting Ingestion of Digital Assets")] st)).
    now rewrite Hl.
Qed.

Lemma assets_run_batches_the_uploaded_rows_witness :
  invocations
    (trace (snd (ingest_digital_assets 3 (fun _ => healthy 0) 2
                   [inr (Some "a"); inr None; inr (Some "b"); inr (Some "c")] initial)))
  = [["a"; "b"]; ["c"]].
Proof.
  destruct (assets_run_batches_the_uploaded_rows 3 (fun _ => healthy 0) 2
              [inr (Some "a"); inr None; inr (Some "b"); inr (Some "c")] initial VNone)
    as (_ & _ & Hi).
  - vm_compute. reflexivity.
  - rewrite Hi. reflexivity.
Defined.

(** ** Looking the database up *)

Lemma getitem_truthy (j : json) (key : string) (v : json) :
  getitem j key = inr v -> truthy j = true.
Proof.
  destruct j as [| | | | |items]; try discriminate.
  destruct items as [|kv items]; [discriminate | reflexivity].
Qed.

Lemma first_named_found (db_name : string) (before after : list json) (db : json) :
  Forall (passed_over db_name) before ->
  getitem db "name" = inr (JStr db_name) ->
  first_named db_name (before ++ db :: after) = inr (Some db).
Proof.
  intros Hb Hn. induction Hb as [|x before (name & Hx & Hne) _ IH].
  - cbn [app first_named]. rewrite Hn. cbn [json_eq_str]. now rewrite String.eqb_refl.
  - cbn [app first_named]. rewrite Hx, Hne. exact IH.
Qed.

Lemma first_named_raises (db_name : string) (before after : list json) (bad : json)
    (e : exn) :
  Forall (passed_over db_name) before ->
  getitem bad "name" = inl e ->
  first_named db_name (before ++ bad :: after) = inl e.
Proof.
  intros Hb Hn. induction Hb as [|x before (name & Hx & Hne) _ IH].
  - cbn [app first_named]. now rewrite Hn.
  - cbn [app first_named]. rewrite Hx, Hne. exact IH.
Qed.

(** [get_d1_database_id] returns the [uuid] of the first entry of the list
    whose name is the name asked for, and prints nothing, when the entries
    before it are dicts with other names; what follows the entry is not
    looked at. *)
Theorem database_id_is_that_of_the_first_match
    (db_name : string) (before after : list json) (db uuid : json) (st : state) :
  Forall (passed_over db_name) before ->
  getitem db "name" = inr (JStr db_name) ->
  getitem db "uuid" = inr uuid ->
  get_d1_database_id (inr (JList (before ++ db :: after))) db_name st = (Ret uuid, st).
Proof.
  intros Hb Hn Hu.
  unfold get_d1_database_id, try_except, bind, lift, search, subscript, ret.
  rewrite (first_named_found db_name before after db Hb Hn).
  rewrite (getitem_truthy db "name" _ Hn). unfold lift. rewrite Hu. reflexivity.
Qed.

Lemma database_id_is_that_of_the_first_match_witness :
  get_d1_database_id
    (inr (JList [JObj [("name", JStr "other"); ("uuid", JStr "1111")];
                 JObj [("name", JStr "quebec-road-signs"); ("uuid", JStr "2222")];
                 JObj [("name", JStr "quebec-road-signs"); ("uuid", JStr "3333")]]))
    DB_NAME initial
  = (Ret (JStr "2222"), initial).
Proof.
  apply (database_id_is_that_of_the_first_match DB_NAME
           [JObj [("name", JStr "other"); ("uuid", JStr "1111")]]
           [JObj [("name", JStr "quebec-road-signs"); ("uuid", JStr "3333")]]
           (JObj [("name", JStr "quebec-road-signs"); ("uuid", JStr "2222")])
           (JStr "2222") initial).
  - constructor; [| constructor]. exists (JStr "other"). split; reflexivity.
  - reflexivity.
  - reflexivity.
Defined.

(** The search stops at the first entry that has no name (or is no dict):
    the exception of the subscript is caught, the error is printed, and the
    function returns [None], even when the database asked for is further
    down the list. *)
Theorem malformed_entry_hides_the_database
    (db_name : string) (before after : list json) (bad : json) (e : exn) (st : state) :
  Forall (passed_over db_name) before ->
  getitem bad "name" = inl e ->
  get_d1_database_id (inr (JList (before ++ bad :: after))) db_name st
  = (Ret JNull,
     log [Print (WranglerError e);
          Print (Banner "Please ensure wrangler is installed and configured, and the database exists.")]
         st).
Proof.
  intros Hb Hn.
  unfold get_d1_database_id, try_except, bind, lift, search, ret.
  rewrite (first_named_raises db_name before after bad e Hb Hn).
  unfold raise, print. rewrite !emit_log, log_log. reflexivity.
Qed.

Lemma malformed_entry_hides_the_database_witness :
  fst (get_d1_database_id
         (inr (JList [JObj [("uuid", JStr "1111")];
                      JObj [("name", JStr "quebec-road-signs"); ("uuid", JStr "2222")]]))
         DB_NAME initial)
  = Ret JNull.
Proof.
  pose proof (malformed_entry_hides_the_database DB_NAME []
                [JObj [("name", JStr "quebec-road-signs"); ("uuid", JStr "2222")]]
                (JObj [("uuid", JStr "1111")]) (OtherException "KeyError: 'name'") initial
                (Forall_nil _) eq_refl) as H.
  cbn [app] in H. rewrite H. reflexivity.
Defined.

(** Whatever the command printed, [get_d1_database_id] returns: it raises
    nothing.  Either it prints nothing, or it prints that the database was
    not found, or the error caught with the hint that follows it, and then
    returns [None].  The script goes on from its load only with an id that
    is neither [None] nor empty. *)
Theorem database_lookup_never_raises
    (wrangler_output : exn + json) (db_name : string) (st : state) :
  (exists id evs,
      get_d1_database_id wrangler_output db_name st = (Ret id, log evs st)
      /\ (evs = []
          \/ (id = JNull
              /\ (evs = [Print (DatabaseNotFound db_name)]
                  \/ exists e,
                       evs = [Print (WranglerError e);
                              Print (Banner "Please ensure wrangler is installed and configured, and the database exists.")]))))
  /\ (exists r,
         fst (database_id_at_load wrangler_output st) = Ret r
         /\ forall id, r = Some id -> truthy id = true).
Proof.
  assert (H : exists id evs,
             get_d1_database_id wrangler_output db_name st = (Ret id, log evs st)
             /\ (evs = []
                 \/ (id = JNull
                     /\ (evs = [Print (DatabaseNotFound db_name)]
                         \/ exists e,
                              evs = [Print (WranglerError e);
                                     Print (Banner "Please ensure wrangler is installed and configured, and the database exists.")])))).
  { unfold get_d1_database_id, try_except, bind, lift, subscript, print.
    destruct wrangler_output as [e | dbs].
    { exists JNull. eexists. unfold raise. rewrite !emit_log, log_log.
      split; [reflexivity |]. right. split; [reflexivity |]. right. now exists e. }
    unfold ret at 1.
    destruct (search db_name dbs) as [e | [db |]].
    - exists JNull. eexists. unfold raise. rewrite !emit_log, log_log.
      split; [reflexivity |]. right. split; [reflexivity |]. right. now exists e.
    - unfold ret at 1. destruct (truthy db).
      + unfold lift. destruct (getitem db "uuid") as [e | uuid].
        * exists JNull. eexists. unfold raise. rewrite !emit_log, log_log.
          split; [reflexivity |]. right. split; [reflexivity |]. right. now exists e.
        * exists uuid, []. rewrite log_nil. split; [reflexivity | now left].
      + exists JNull. eexists. rewrite emit_log. split; [reflexivity |].
        right. split; [reflexivity |]. now left.
    - unfold ret at 1. exists JNull. eexists. rewrite emit_log. split; [reflexivity |].
      right. split; [reflexivity |]. now left. }
  split; [exact H |].
  clear H. unfold database_id_at_load, bind.
  assert (Hret : exists id s1, get_d1_database_id wrangler_output DB_NAME st = (Ret id, s1)).
  { unfold get_d1_database_id, try_except, bind, lift, subscript, print, emit, ret, raise.
    destruct wrangler_output as [e | dbs]; [do 2 eexists; reflexivity |].
    destruct (search DB_NAME dbs) as [e | [db |]]; try (do 2 eexists; reflexivity).
    destruct (truthy db); [| do 2 eexists; reflexivity].
    destruct (getitem db "uuid"); do 2 eexists; reflexivity. }
  destruct Hret as (id & s1 & ->).
  destruct (truthy id) eqn:Ht.
  - exists (Some id). split; [reflexivity |]. intros id' H. now injection H as <-.
  - exists None. split; [reflexivity |]. discriminate.
Qed.

(** ** Uploading an image *)

(** [upload_image_to_cf_images] returns something other than [None] only
    from one place: the image exists and could be opened, the request was
    sent and answered with a status that is no error and a body that
    decodes, [success] in the body is true, and the value returned is the
    first of [result.variants] in that body. *)
Theorem image_url_comes_from_a_successful_upload
    (sc : script) (image : option (exn + unit)) (reply : string + response) (url : json) :
  returned (upload_image_to_cf_images sc image reply) = inr url ->
  url <> JNull ->
  exists response result success,
    image = Some (inr tt)
    /\ reply = inr response
    /\ posted (upload_image_to_cf_images sc image reply) = true
    /\ http_error response = false
    /\ json_body response = inr result
    /\ getitem result "success" = inr success
    /\ truthy success = true
    /\ first_variant result = inr url.
Proof.
  unfold upload_image_to_cf_images.
  destruct image as [[e | []] |]; cbn [returned]; try discriminate.
  2:{ intros H Hne. injection H as <-. contradiction. }
  destruct reply as [msg | response]; cbn [returned].
  { intros H Hne. injection H as <-. contradiction. }
  unfold upload_answered.
  destruct (http_error response) eqn:Herr; cbn [returned].
  { intros H Hne. injection H as <-. contradiction. }
  destruct (json_body response) as [e | result] eqn:Hbody.
  { destruct e; cbn [returned]; try discriminate;
      intros H Hne; injection H as <-; contradiction. }
  destruct (getitem result "success") as [e | success] eqn:Hs.
  { destruct e; cbn [returned]; try discriminate;
      intros H Hne; injection H as <-; contradiction. }
  destruct (truthy success) eqn:Ht.
  - assert (Hv : forall out, returned
                   (match (out, first_variant result) with
                    | (out, inl (RequestException msg)) =>
                        UploadRun true
                          (UploadingImage :: out ++ [ImageNetworkError (RequestException msg)])
                          (inr JNull)
                    | (out, inl (JSONDecodeError _)) =>
                        UploadRun true
                          (UploadingImage :: out ++ [ImageDecodeError (text response)])
                          (inr JNull)
                    | (out, r) => UploadRun true (UploadingImage :: out) r
                    end) = inr url ->
                 url <> JNull -> first_variant result = inr url).
    { intros out. destruct (first_variant result) as [e | u].
      - destruct e; cbn [returned]; try discriminate;
          intros H Hne; injection H as <-; contradiction.
      - cbn [returned]. auto. }
    intros H Hne.
    assert (Hfv : first_variant result = inr url).
    { destruct (is_digital_assets sc); [| exact (Hv [] H Hne)].
      destruct (first_variant result) as [e | u] eqn:Hf.
      - destruct e; cbn [returned] in H; try discriminate;
          injection H as <-; contradiction.
      - cbn [returned] in H. exact H. }
    exists response, result, success. repeat split; try assumption; try reflexivity.
    destruct (is_digital_assets sc); rewrite Hfv; reflexivity.
  - destruct (getitem result "errors") as [e | errors].
    + destruct e; cbn [returned]; try discriminate;
        intros H Hne; injection H as <-; contradiction.
    + cbn [returned]. intros H Hne. injection H as <-. contradiction.
Qed.

Lemma image_url_comes_from_a_successful_upload_witness :
  first_variant
    (JObj [("success", JBool true);
           ("result", JObj [("variants", JList [JStr "https://imagedelivery.example/P-010/public"])])])
  = inr (JStr "https://imagedelivery.example/P-010/public").
Proof.
  destruct (image_url_comes_from_a_successful_upload DigitalAssets (Some (inr tt))
              (inr (json_response
                      (JObj [("success", JBool true);
                             ("result",
                              JObj [("variants",
                                     JList [JStr "https://imagedelivery.example/P-010/public"])])])))
              (JStr "https://imagedelivery.example/P-010/public"))
    as (response & result & success & _ & Hr & _ & _ & Hb & _ & _ & Hv).
  - reflexivity.
  - discriminate.
  - injection Hr as <-. cbn [json_response json_body] in Hb. injection Hb as <-. exact Hv.
Defined.

(** The two [except] clauses of [upload_image_to_cf_images] catch the
    errors of the request and of the decoding only.  A body that decodes but
    lacks [success], or reports success without a first variant, raises out
    of the function, after the image has been sent: its caller, the loop of
    [ingest_digital_assets], has no [try] either. *)
Theorem malformed_answer_raises_out_of_the_upload
    (sc : script) (response : response) (result : json) (e : exn) :
  http_error response = false ->
  json_body response = inr result ->
  getitem result "success" = inl e
  \/ (exists success,
         getitem result "success" = inr success
         /\ truthy success = true
         /\ first_variant result = inl e) ->
  (exists msg, e = OtherException msg)
  /\ returned (upload_image_to_cf_images sc (Some (inr tt)) (inr response)) = inl e
  /\ posted (upload_image_to_cf_images sc (Some (inr tt)) (inr response)) = true.
Proof.
  intros Herr Hbody Hbad.
  assert (Hother : exists msg, e = OtherException msg).
  { assert (Hget : forall j key e', getitem j key = inl e' ->
                                    exists msg, e' = OtherException msg).
    { intros j key e'. unfold getitem.
      destruct j; try (intros H; injection H as <-; eauto).
      destruct (lookup key items); [discriminate |].
      intros H; injection H as <-; eauto. }
    destruct Hbad as [Hs | (success & Hs & Ht & Hv)]; [exact (Hget _ _ _ Hs) |].
    unfold first_variant in Hv.
    destruct (getitem result "result") as [e1 | inner] eqn:H1.
    { injection Hv as <-. exact (Hget _ _ _ H1). }
    destruct (getitem inner "variants") as [e2 | variants] eqn:H2.
    { injection Hv as <-. exact (Hget _ _ _ H2). }
    unfold getitem0 in Hv.
    destruct variants as [| | | [|c s] | [|x l] |]; try discriminate;
      injection Hv as <-; eauto. }
  split; [exact Hother |].
  destruct Hother as (msg & ->).
  unfold upload_image_to_cf_images, upload_answered. rewrite Herr, Hbody.
  destruct Hbad as [Hs | (success & Hs & Ht & Hv)].
  - rewrite Hs. split; reflexivity.
  - rewrite Hs, Ht. destruct (is_digital_assets sc); rewrite Hv; split; reflexivity.
Qed.

Lemma malformed_answer_raises_out_of_the_upload_witness :
  returned (upload_image_to_cf_images DigitalAssets (Some (inr tt))
              (inr (json_response
                      (JObj [("success", JBool true);
                             ("result", JObj [("variants", JList [])])]))))
  = inl (OtherException "IndexError: list index out of range").
Proof.
  apply (malformed_answer_raises_out_of_the_upload DigitalAssets
           (json_response
              (JObj [("success", JBool true); ("result", JObj [("variants", JList [])])]))
           (JObj [("success", JBool true); ("result", JObj [("variants", JList [])])])
           (OtherException "IndexError: list index out of range")).
  - reflexivity.
  - reflexivity.
  - right. exists (JBool true). repeat split.
Defined.


(** ** A poll that fails *)

Lemma poll_loop_refused (sc : script) (fuel : nat) (sv : server) (bookmark : json)
    (k : nat) (e : exn) (st : state) :
  poll_refused sv k bookmark e ->
  poll_loop sc (S fuel) sv bookmark k st
  = (Raise e, log [Request (ReqPoll bookmark)] st).
Proof.
  intros [(msg & Hr & ->) | (r & Hr & Herr & ->)]; cbn [poll_loop].
  - unfold http, bind, raise. rewrite emit_log, Hr. reflexivity.
  - unfold http, raise_for_status, bind, raise, ret. rewrite emit_log, Hr, Herr.
    reflexivity.
Qed.

(** The poll loop has a third way out besides success and the sentinel: a
    poll that is not answered, or is answered with an error status, raises.
    After [n] polls in progress and such a poll, the driver has sent the
    init request, the upload, the ingest request and [n + 1] polls, has
    slept [n] times, reports the network error as the one outcome of the
    batch, and returns [None]; it does not poll again. *)
Theorem failed_poll_ends_the_job
    (sc : script) (fuel : nat) (sv : server) (table_name : string)
    (sql_statements : list string) (st : state)
    (upload_url filename bookmark : json) (n : nat) (e : exn) :
  let data := payload sql_statements in
  let hash_str := MD5.hexdigest data in
  sql_statements <> [] ->
  database_found sc sv ->
  init_ok sv hash_str upload_url filename ->
  upload_tag sv upload_url data hash_str ->
  ingest_ok sv hash_str filename bookmark ->
  (forall i, i < n -> exists pr', poll_answer sv i bookmark pr' /\ pending pr') ->
  poll_refused sv n bookmark e ->
  n < fuel ->
  let run := d1_bulk_import sc fuel sv table_name sql_statements st in
  exists evs,
    fst run = Ret VNone
    /\ trace (snd run) = (trace st ++ evs)%list
    /\ requests evs = job_requests hash_str data upload_url filename bookmark (S n)
    /\ count_sleeps evs = n
    /\ outcomes evs = [FAILED (NetworkError table_name e)].
Proof.
  intros data hash_str Hne Hdb Hinit Htag Hingest Hpend Hfail Hfuel run.
  set (st0 := job_start sc table_name sql_statements st).
  destruct (init_upload_ok sv hash_str upload_url filename st0 Hinit) as (r0 & _ & Hrun1).
  set (s_init := State (trace st0 ++ [Request (ReqInit hash_str)]) (jobs st0) (Some r0)) in *.
  pose proof (upload_to_r2_tag sv upload_url data hash_str hash_str s_init Htag) as Hrun2.
  rewrite String.eqb_refl in Hrun2.
  destruct (start_ingestion_ok sc sv hash_str filename bookmark
              (log [Request (ReqUpload upload_url data)] s_init) Hingest)
    as (ingest_data & result & evs3 & Hrun3 & Hreq3 & Hout3 & Hsl3 & Hres & Hbm).
  rewrite log_log in Hrun3.
  set (s3 := log ([Request (ReqUpload upload_url data)] ++ evs3) s_init) in *.
  destruct (poll_loop_pending sc sv bookmark n (fuel - n) 0 s3)
    as (evs4 & Heq & Hreq4 & Hsl4 & _ & Hout4).
  { intros i Hi. apply Hpend, Hi. }
  replace (n + (fuel - n)) with fuel in Heq by lia.
  destruct (fuel - n) as [|fuel'] eqn:Hf; [lia |].
  cbn [Nat.add] in Heq.
  rewrite (poll_loop_refused sc fuel' sv bookmark n e _ Hfail), log_log in Heq.
  assert (Hisreq : exists msg, e = RequestException msg).
  { destruct Hfail as [(msg & _ & ->) | (r & _ & _ & ->)]; eauto. }
  destruct Hisreq as (msg & He).
  assert (Hp : protocol sc fuel sv table_name data hash_str st0
               = (Raise e, log (evs4 ++ [Request (ReqPoll bookmark)]) s3)).
  { unfold protocol. rewrite (bind_ret _ _ _ _ _ Hrun1). cbv beta iota.
    rewrite (bind_ret _ _ _ _ _ Hrun2). rewrite (bind_ret _ _ _ _ _ Hrun3).
    unfold polling, subscript, bind at 1. rewrite Hres. cbn [lift ret].
    unfold bind at 1. rewrite Hbm. cbn [lift ret].
    unfold bind at 1. rewrite Heq. reflexivity. }
  pose proof (d1_bulk_import_outcome sc fuel sv table_name sql_statements st _ _
                Hne Hdb Hp) as Hd.
  cbv beta iota in Hd. subst e. cbn [handlers] in Hd.
  unfold bind, print in Hd. rewrite emit_log in Hd.
  exists (opening sc table_name sql_statements
          ++ [Request (ReqInit hash_str)]
          ++ ([Request (ReqUpload upload_url data)] ++ evs3)
          ++ (evs4 ++ [Request (ReqPoll bookmark)])
          ++ [Print (NetworkError table_name (RequestException msg))])%list.
  unfold run. rewrite Hd. unfold log, s3, s_init, st0, job_start, log.
  cbn [fst snd trace jobs init_response_var].
  destruct (opening_shape sc table_name sql_statements) as (Hreq0 & Hout0 & Hsl0 & _).
  rewrite !requests_app, !count_sleeps_app, !outcomes_app,
    Hreq0, Hout0, Hsl0, Hreq3, Hreq4, Hsl3, Hsl4, Hout3, Hout4.
  cbn [requests count_sleeps outcomes outcome_of app Nat.add].
  unfold job_requests.
  replace (S n) with (n + 1) by lia. rewrite repeat_app.
  cbn [List.repeat app]. rewrite !app_nil_r, Nat.add_0_r.
  repeat split; try reflexivity; try lia.
  rewrite <- !app_assoc. reflexivity.
Qed.

Lemma failed_poll_ends_the_job_witness :
  outcomes
    (trace (snd (d1_bulk_import MontrealOpendata 5
                   (Server (fun _ => inr init_response_example)
                           (fun _ data => inr (echo_response data))
                           (fun _ _ => inr ingest_response_example)
                           (fun k _ =>
                              if (k <? 1)%nat
                              then inr (poll_error "Import in progress")
                              else inl "Read timed out")
                           (inr None))
                   "poles"
                   ["INSERT OR REPLACE INTO poles (pole_id) VALUES ('P1')"] initial)))
  = [FAILED (NetworkError "poles" (RequestException "Read timed out"))].
Proof.
  destruct (failed_poll_ends_the_job MontrealOpendata 5
              (Server (fun _ => inr init_response_example)
                      (fun _ data => inr (echo_response data))
                      (fun _ _ => inr ingest_response_example)
                      (fun k _ =>
                         if (k <? 1)%nat
                         then inr (poll_error "Import in progress")
                         else inl "Read timed out")
                      (inr None))
              "poles"
              ["INSERT OR REPLACE INTO poles (pole_id) VALUES ('P1')"] initial
              (JStr "https://r2.example/upload") (JStr "import.sql")
              (JStr "bookmark-0") 1 (RequestException "Read timed out"))
    as (evs & _ & Ht & _ & _ & Hout).
  - discriminate.
  - intros H. discriminate H.
  - apply example_init_ok. reflexivity.
  - replace (MD5.hexdigest
               (payload ["INSERT OR REPLACE INTO poles (pole_id) VALUES ('P1')"]))
      with (etag_of (echo_response
               (payload ["INSERT OR REPLACE INTO poles (pole_id) VALUES ('P1')"])))
      by (vm_compute; reflexivity).
    apply example_upload_tag. reflexivity.
  - apply example_ingest_ok. reflexivity.
  - intros i Hi.
    exists (JObj [("success", JBool false); ("error", JStr "Import in progress")]).
    split; [| apply example_pending; reflexivity].
    apply example_poll_error. cbn [post_poll].
    destruct (Nat.ltb_spec i 1) as [_ | Hge]; [reflexivity | lia].
  - left. exists "Read timed out". split; reflexivity.
  - lia.
  - rewrite Ht. exact Hout.
Defined.


(** ** The rows reported *)

Lemma row_errors_app (a b : list event) :
  row_errors (a ++ b) = (row_errors a ++ row_errors b)%list.
Proof.
  induction a as [|ev a IH]; [reflexivity |].
  destruct ev as [t s | | rq | z | m]; cbn [app row_errors]; try exact IH.
  destruct m; cbn [app]; try exact IH. now rewrite IH.
Qed.

Lemma no_row_error_nil : no_row_error [].
Proof. reflexivity. Qed.

Lemma no_row_error_app (a b : list event) :
  no_row_error a -> no_row_error b -> no_row_error (a ++ b).
Proof. unfold no_row_error. intros Ha Hb. now rewrite row_errors_app, Ha, Hb. Qed.

Ltac unnamed_chain := adds_chain no_row_error_nil no_row_error_app; try reflexivity.

Lemma poll_loop_no_row_error (sc : script) (fuel : nat) (sv : server) (b : json) :
  forall k, adds no_row_error (poll_loop sc fuel sv b k).
Proof.
  induction fuel as [|fuel IH]; intros k; cbn [poll_loop].
  - apply adds_out_of_fuel, no_row_error_nil.
  - unfold poll_done. unnamed_chain. apply IH.
Qed.

Lemma protocol_no_row_error (sc : script) (fuel : nat) (sv : server)
    (table_name data hash_str : string) :
  adds no_row_error (protocol sc fuel sv table_name data hash_str).
Proof.
  pose proof (poll_loop_no_row_error sc fuel sv) as Hl.
  unfold protocol, init_upload, upload_to_r2, start_ingestion, polling.
  unnamed_chain; auto.
Qed.

Lemma d1_bulk_import_no_row_error (sc : script) (fuel : nat) (sv : server)
    (table_name : string) (sql_statements : list string) :
  adds no_row_error (d1_bulk_import sc fuel sv table_name sql_statements).
Proof.
  pose proof (protocol_no_row_error sc fuel sv table_name) as Hp.
  unfold d1_bulk_import.
  apply adds_bind; [exact no_row_error_app | |].
  { intros st. exists [Invoke table_name sql_statements]. split; reflexivity. }
  intros _. unfold lookup_database, handlers. unnamed_chain; auto.
Qed.

Lemma names_rows_bind {A B : Type} (c : M A) (k : A -> M B) (st : state)
    (l1 l2 : list (nat * exn)) :
  names_rows c st l1 ->
  (forall a s1, names_rows (k a) s1 l2) ->
  names_rows (bind c k) st (l1 ++ l2).
Proof.
  unfold names_rows, bind. intros (a & Ha & Hi) Hk.
  destruct (c st) as [[a' | e |] s1]; cbn [fst snd] in *; try discriminate.
  destruct (Hk a' s1) as (b & Hb & Hi2).
  exists b. rewrite Hi2, Hi, <- app_assoc. auto.
Qed.

Lemma names_rows_ret {A : Type} (a : A) (st : state) : names_rows (ret a) st [].
Proof. exists a. cbn. now rewrite app_nil_r. Qed.

Lemma names_rows_banner (title : string) (st : state) :
  names_rows (print (Banner title)) st [].
Proof.
  exists tt. unfold print. rewrite emit_log. unfold log. cbn [fst snd trace].
  rewrite row_errors_app. auto.
Qed.

Lemma names_rows_rows {A : Type} (c : M A) (st : state) (l l' : list (nat * exn)) :
  l = l' -> names_rows c st l -> names_rows c st l'.
Proof. now intros ->. Qed.

(** A call of the open-data driver reports no row. *)
Lemma names_rows_driver (fuel : nat) (sv : server) (table_name : string)
    (batch : list string) (st : state) :
  settles fuel sv ->
  names_rows (d1_bulk_import MontrealOpendata fuel sv table_name batch) st [].
Proof.
  intros Hs.
  destruct (d1_bulk_import_no_row_error MontrealOpendata fuel sv table_name batch st)
    as (evs & Ht & Hn).
  exists VNone. split; [now apply d1_bulk_import_returns |].
  rewrite Ht, row_errors_app, Hn. reflexivity.
Qed.

Section SettledRows.

Variable fuel : nat.
Variable world : nat -> server.
Hypothesis settled : forall j, settles fuel (world j).

Lemma names_rows_call (table_name : string) (batch : list string) (st : state) :
  names_rows (sv <- next_server world ;;
              d1_bulk_import MontrealOpendata fuel sv table_name batch)%script st [].
Proof.
  destruct (names_rows_driver fuel (world (jobs st)) table_name batch
              (State (trace st) (S (jobs st)) (init_response_var st)) (settled _))
    as (a & Ha & Hi).
  exists a. unfold bind, next_server. auto.
Qed.

Lemma names_rows_flush (table_name : string) (batch : list string) (st : state) :
  names_rows (flush fuel world table_name batch) st [].
Proof.
  destruct batch as [|s batch]; [apply names_rows_ret |].
  destruct (names_rows_driver fuel (world (jobs st)) table_name (s :: batch)
              (State (trace st) (S (jobs st)) (init_response_var st)) (settled _))
    as (a & Ha & Hi).
  exists tt. unfold flush, bind, next_server, ret.
  destruct (d1_bulk_import _ _ _ _ _ _) as [[v | e |] sd]; cbn [fst snd] in *;
    try discriminate.
  auto.
Qed.

(** The loop of a table reports the rows that raised, each under its
    position in the file, and no other row: a failed import is reported by
    the driver, never as a row. *)
Lemma names_rows_poles_loop (table_name : string) (batch_size : Z)
    (rows : list (exn + string)) :
  forall (i : nat) (batch : list string) (st : state),
    names_rows (poles_loop fuel world table_name batch_size rows None i batch) st
      (raising_rows (S i) rows).
Proof.
  induction rows as [|[e | s] rest IH]; intros i batch st.
  - apply names_rows_ret.
  - unfold names_rows. rewrite poles_loop_raises. cbn [raising_rows].
    destruct (IH (S i) batch (log [Print (RowError (S i) e)] st)) as (a & Hr & Hi).
    exists a. split; [exact Hr |]. rewrite Hi. unfold log. cbn [trace].
    rewrite row_errors_app. cbn [row_errors]. rewrite <- app_assoc. reflexivity.
  - unfold names_rows. rewrite poles_loop_statement. cbn [raising_rows].
    destruct (Z.of_nat (List.length (batch ++ [s])) >=? batch_size)%Z; [| apply IH].
    destruct (names_rows_driver fuel (world (jobs st)) table_name (batch ++ [s])%list
                (State (trace st) (S (jobs st)) (init_response_var st)) (settled _))
      as (v & Hr & Hi).
    destruct (d1_bulk_import _ _ _ _ _ _) as [[v' | e |] sd];
      cbn [fst snd] in *; try discriminate.
    destruct (IH (S i) [] sd) as (a & Ha & Hi2).
    exists a. split; [exact Ha |]. rewrite Hi2, Hi. cbn [trace].
    now rewrite app_nil_r.
Qed.

Lemma names_rows_files_loop (table_name : string) (batch_size : Z)
    (files : list (string * csv_file)) :
  Forall (fun f => read_to_end (snd f)) files ->
  forall (batch : list string) (st : state),
    names_rows (files_loop fuel world table_name batch_size files batch) st
      (List.concat (List.map (fun f => raising_rows 1 (rows_in (snd f))) files)).
Proof.
  induction files as [|[name [[rows stop] |]] rest IH]; intros Hread batch st;
    cbn [files_loop List.map List.concat snd rows_in rows_of stops_with raising_rows].
  - apply names_rows_ret.
  - inversion Hread as [|f fs Hf Hfs]; subst. cbn in Hf. subst stop.
    apply (names_rows_bind _ _ st []); [apply names_rows_banner |].
    intros _ s1. apply names_rows_bind; [apply names_rows_poles_loop |].
    intros b s2. apply (IH Hfs).
  - inversion Hread as [|f fs Hf Hfs]; subst.
    apply (names_rows_bind _ _ st []); [apply names_rows_banner |].
    intros _ s1. apply (IH Hfs).
Qed.

Lemma names_rows_poles_data (batch_size : Z) (rows : list (exn + string)) (st : state) :
  names_rows (ingest_poles_data fuel world batch_size (Reader rows None)) st
    (raising_rows 1 rows).
Proof.
  unfold ingest_poles_data. cbn [rows_of stops_with].
  apply (names_rows_bind _ _ st []); [apply names_rows_banner |].
  intros _ s1.
  eapply names_rows_rows;
    [| apply names_rows_bind; [apply names_rows_poles_loop |]].
  2:{ intros b s2. apply (names_rows_bind _ _ s2 [] []).
      - destruct b as [|s b]; [apply names_rows_ret | apply names_rows_call].
      - intros _ s3. apply (names_rows_bind _ _ s3 [] []); [apply names_rows_banner |].
        intros _ s4. apply names_rows_ret. }
  now rewrite app_nil_r.
Qed.

Lemma names_rows_sign_instances (batch_size : Z) (parking other : csv_file) (st : state) :
  read_to_end parking ->
  read_to_end other ->
  names_rows
    (ingest_montreal_sign_instances_data fuel world batch_size parking other) st
    (raising_rows 1 (rows_in parking) ++ raising_rows 1 (rows_in other)).
Proof.
  intros Hp Ho. unfold ingest_montreal_sign_instances_data.
  apply (names_rows_bind _ _ st []); [apply names_rows_banner |].
  intros _ s1.
  eapply names_rows_rows;
    [| apply names_rows_bind;
       [apply names_rows_files_loop; repeat constructor; assumption |]].
  2:{ intros b s2. apply (names_rows_bind _ _ s2 [] []); [apply names_rows_flush |].
      intros _ s3. apply (names_rows_bind _ _ s3 [] []); [apply names_rows_banner |].
      intros _ s4. apply names_rows_ret. }
  cbn [List.map List.concat snd]. now rewrite !app_nil_r.
Qed.

End SettledRows.

(** [ingest_poles_data] reports a row that raises under its position in the
    file, counted from 1, and goes on with the next row.  When the polls of
    every job settle and the file is read to its end, the function returns
    [None] having reported these rows in their order and no other: what
    fails inside an import is reported by the driver and never put on a
    row. *)
Theorem raising_rows_are_reported_by_position
    (fuel : nat) (world : nat -> server) (batch_size : Z) (rows : list (exn + string))
    (st : state) :
  (forall j, settles fuel (world j)) ->
  let run := ingest_poles_data fuel world batch_size (Reader rows None) st in
  fst run = Ret VNone
  /\ row_errors (trace (snd run)) = (row_errors (trace st) ++ raising_rows 1 rows)%list.
Proof.
  intros Hs run. subst run.
  destruct (names_rows_poles_data fuel world Hs batch_size rows st) as (a & Ha & Hi).
  split; [| exact Hi].
  destruct (ingest_poles_data_invocations fuel world batch_size rows st)
    as [Hf | (Hr & _)]; [| exact Hr].
  rewrite Hf in Ha. discriminate.
Qed.

Lemma raising_rows_are_reported_by_position_witness :
  row_errors
    (trace
       (snd
          (ingest_poles_data 1 (fun j => if (j =? 0)%nat then refusing else healthy 0) 1
             (Reader [inr "P1"; inl (OtherException "KeyError: 'LATITUDE'"); inr "P2";
                      inl (OtherException "ValueError")] None)
             initial)))
  = [(2, OtherException "KeyError: 'LATITUDE'"); (4, OtherException "ValueError")].
Proof.
  destruct (raising_rows_are_reported_by_position 1
              (fun j => if (j =? 0)%nat then refusing else healthy 0) 1
              [inr "P1"; inl (OtherException "KeyError: 'LATITUDE'"); inr "P2";
               inl (OtherException "ValueError")]
              initial) as (_ & Hi).
  - intros j bookmark. exists 0. split; [lia |]. destruct j; reflexivity.
  - rewrite Hi. reflexivity.
Defined.

(** [ingest_montreal_sign_instances_data] numbers the rows of each of its
    two files from 1.  When the polls of every job settle and the files are
    read to their end, the function returns [None] having reported the rows
    of the first file that raised and then those of the second, each under
    its position in its own file, so that one number can stand for two
    rows. *)
Theorem sign_rows_are_numbered_file_by_file
    (fuel : nat) (world : nat -> server) (batch_size : Z) (parking other : csv_file)
    (st : state) :
  (forall j, settles fuel (world j)) ->
  read_to_end parking ->
  read_to_end other ->
  let run := ingest_montreal_sign_instances_data fuel world batch_size parking other st in
  fst run = Ret VNone
  /\ row_errors (trace (snd run))
     = (row_errors (trace st)
        ++ raising_rows 1 (rows_in parking) ++ raising_rows 1 (rows_in other))%list.
Proof.
  intros Hs Hp Ho run. subst run.
  destruct (names_rows_sign_instances fuel world Hs batch_size parking other st Hp Ho)
    as (a & Ha & Hi).
  split; [| exact Hi].
  destruct (hands_over_sign_instances fuel world Hs batch_size parking other st Hp Ho)
    as (v & Hv & <- & _).
  exact Hv.
Qed.

Lemma sign_rows_are_numbered_file_by_file_witness :
  row_errors
    (trace
       (snd
          (ingest_montreal_sign_instances_data 1 (fun _ => healthy 0) 2
             (Some (Reader [inl (OtherException "KeyError: 'PANNEAU_ID_RPA'"); inr "P2"]
                           None))
             (Some (Reader [inl (OtherException "ValueError"); inr "O2"] None))
             initial)))
  = [(1, OtherException "KeyError: 'PANNEAU_ID_RPA'"); (1, OtherException "ValueError")].
Proof.
  destruct (sign_rows_are_numbered_file_by_file 1 (fun _ => healthy 0) 2
              (Some (Reader [inl (OtherException "KeyError: 'PANNEAU_ID_RPA'"); inr "P2"]
                            None))
              (Some (Reader [inl (OtherException "ValueError"); inr "O2"] None))
              initial) as (_ & Hi).
  - intros j bookmark. exists 0. split; [lia | reflexivity].
  - reflexivity.
  - reflexivity.
  - rewrite Hi. reflexivity.
Defined.


(** ** The run of the open-data script *)

(** Events that are neither an entry into the driver nor a request. *)
Lemma prints_only_app (a b : list event) :
  invoked a = [] /\ requests a = [] ->
  invoked b = [] /\ requests b = [] ->
  invoked (a ++ b) = [] /\ requests (a ++ b) = [].
Proof.
  intros (Ha1 & Ha2) (Hb1 & Hb2).
  now rewrite invoked_app, requests_app, Ha1, Ha2, Hb1, Hb2.
Qed.

(** The lookup of the database returns, having only printed. *)
Lemma get_d1_database_id_prints (wrangler_output : exn + json) (db_name : string)
    (st : state) :
  exists id evs,
    get_d1_database_id wrangler_output db_name st = (Ret id, log evs st)
    /\ invoked evs = [] /\ requests evs = [].
Proof.
  unfold get_d1_database_id, try_except, bind, lift, subscript, print.
  destruct wrangler_output as [e | dbs].
  { exists JNull. eexists. unfold raise. rewrite !emit_log, log_log.
    split; [reflexivity | split; reflexivity]. }
  unfold ret at 1.
  destruct (search db_name dbs) as [e | [db |]].
  - exists JNull. eexists. unfold raise. rewrite !emit_log, log_log.
    split; [reflexivity | split; reflexivity].
  - unfold ret at 1. destruct (truthy db).
    + unfold lift. destruct (getitem db "uuid") as [e | uuid].
      * exists JNull. eexists. unfold raise. rewrite !emit_log, log_log.
        split; [reflexivity | split; reflexivity].
      * exists uuid, []. rewrite log_nil. split; [reflexivity | split; reflexivity].
    + exists JNull. eexists. rewrite emit_log. split; [reflexivity | split; reflexivity].
  - unfold ret at 1. exists JNull. eexists. rewrite emit_log.
    split; [reflexivity | split; reflexivity].
Qed.

Lemma database_id_at_load_prints (wrangler_output : exn + json) (st : state) :
  exists r evs,
    database_id_at_load wrangler_output st = (Ret r, log evs st)
    /\ invoked evs = [] /\ requests evs = [].
Proof.
  destruct (get_d1_database_id_prints wrangler_output DB_NAME st) as (id & evs & Hg & Hp).
  unfold database_id_at_load, bind. rewrite Hg.
  destruct (truthy id); [exists (Some id) | exists None]; exists evs; now split.
Qed.

(** One call of the driver on a batch that is not empty. *)
Lemma hands_over_call_settled (fuel : nat) (world : nat -> server) (table_name : string)
    (s : string) (batch : list string) (st : state) :
  (forall j, settles fuel (world j)) ->
  hands_over (sv <- next_server world ;;
              d1_bulk_import MontrealOpendata fuel sv table_name (s :: batch))%script
    st [(table_name, s :: batch)] (fun _ => True).
Proof.
  intros Hs.
  destruct (hands_over_flush fuel world Hs table_name (s :: batch) st) as (u & Hu & _ & Hi).
  unfold hands_over. unfold flush, bind, next_server, ret in *.
  destruct (d1_bulk_import _ _ _ _ _ _) as [[v | e |] sd]; cbn [fst snd] in *;
    try discriminate.
  exists v. auto.
Qed.

Lemma hands_over_poles
    (fuel : nat) (world : nat -> server) (batch_size : Z) (poles : csv_file)
    (st : state) :
  (forall j, settles fuel (world j)) ->
  read_to_end poles ->
  hands_over (ingest_poles_file fuel world batch_size poles) st
    (batches_of "poles" batch_size (statements_of poles))
    (fun _ => True).
Proof.
  intros Hs Hr. unfold ingest_poles_file.
  destruct poles as [[rows stop] |].
  - cbn in Hr. subst stop. unfold ingest_poles_data. cbn [rows_of stops_with].
    eapply hands_over_batches;
      [| eapply hands_over_bind; [apply hands_over_print |]].
    2:{ intros _ s1 _.
        eapply hands_over_bind; [apply (hands_over_poles_loop fuel world Hs) |].
        intros b s2 <-.
        eapply (hands_over_bind _ _ _
                  (match snd (batcher_loop batch_size (added rows) []) with
                   | [] => []
                   | _ :: _ => [("poles", snd (batcher_loop batch_size (added rows) []))]
                   end) _ (fun _ => True)).
        - destruct (snd (batcher_loop batch_size (added rows) [])) as [|s b].
          + eapply hands_over_result; [| apply hands_over_ret]. auto.
          + now apply hands_over_call_settled.
        - intros _ s3 _. eapply hands_over_bind; [apply hands_over_print |].
          intros _ s4 _. eapply hands_over_result; [| apply hands_over_ret]. auto. }
    cbn [app statements_of rows_of]. rewrite !app_nil_r.
    rewrite <- (batches_of_loop "poles" batch_size (added rows)).
    destruct (snd (batcher_loop batch_size (added rows) [])); reflexivity.
  - eapply hands_over_batches;
      [| eapply hands_over_bind; [apply hands_over_print |]].
    2:{ intros _ s1 _. eapply hands_over_bind; [apply hands_over_print |].
        intros _ s2 _. eapply hands_over_result; [| apply hands_over_ret]. auto. }
    reflexivity.
Qed.

Lemma hands_over_main
    (fuel : nat) (world : nat -> server) (batch_size : Z) (files : open_data)
    (st : state) :
  (forall j, settles fuel (world j)) ->
  all_read_to_end files ->
  hands_over (montreal_main fuel world batch_size files) st
    (open_data_batches batch_size files) (fun _ => True).
Proof.
  intros Hs (Hp & Hk & Ho & Hz & Hi & Ht).
  unfold montreal_main, open_data_batches.
  eapply hands_over_batches;
    [| eapply hands_over_bind; [apply hands_over_print |]].
  2:{ intros _ s1 _. eapply hands_over_bind; [apply hands_over_print |].
      intros _ s2 _. eapply hands_over_bind; [now apply hands_over_poles |].
      intros _ s3 _.
      eapply hands_over_bind; [now apply hands_over_sign_instances |].
      intros _ s4 _.
      eapply hands_over_bind; [now apply hands_over_construction |].
      intros _ s5 _.
      eapply hands_over_bind; [now apply hands_over_taxi_stands |].
      intros _ s6 _. apply hands_over_print. }
  cbn [app]. rewrite !app_nil_r. reflexivity.
Qed.

(** The script exits with status 1 before it sends anything when a
    credential is unset or empty, or when the lookup of the database gives
    no id: no request goes out and the driver is never entered, whatever
    files are there. *)
Theorem script_exits_before_any_request
    (fuel : nat) (world : nat -> server) (batch_size : Z)
    (account_id api_token : option string) (wrangler_output : exn + json)
    (files : open_data) (st : state) :
  env_set account_id = false
  \/ env_set api_token = false
  \/ fst (database_id_at_load wrangler_output st) = Ret None ->
  let run := montreal_script fuel world batch_size account_id api_token
                             wrangler_output files st in
  fst run = Ret false
  /\ requests (trace (snd run)) = requests (trace st)
  /\ invoked (trace (snd run)) = invoked (trace st).
Proof.
  intros H run. subst run. unfold montreal_script.
  destruct (env_set account_id) eqn:Ha; cbn [negb orb].
  2:{ unfold bind, print, ret. rewrite emit_log. unfold log. cbn [fst snd trace].
      rewrite requests_app, invoked_app. cbn. now rewrite !app_nil_r. }
  destruct (env_set api_token) eqn:Ht; cbn [negb].
  2:{ unfold bind, print, ret. rewrite emit_log. unfold log. cbn [fst snd trace].
      rewrite requests_app, invoked_app. cbn. now rewrite !app_nil_r. }
  destruct H as [H | [H | H]]; try discriminate.
  destruct (database_id_at_load_prints wrangler_output st) as (r & evs & Hl & Hi & Hr).
  unfold bind. rewrite Hl in *. cbn [fst] in H. injection H as ->.
  unfold ret, log. cbn [fst snd trace].
  now rewrite requests_app, invoked_app, Hi, Hr, !app_nil_r.
Qed.

Lemma script_exits_before_any_request_witness :
  fst (montreal_script 3 (fun _ => healthy 0) 1000 (Some "account") (Some EmptyString)
         (inr (JList [JObj [("name", JStr "quebec-road-signs"); ("uuid", JStr "2222")]]))
         (OpenData (Some (Reader [inr "INSERT OR REPLACE INTO poles (pole_id) VALUES ('P1')"]
                                 None))
                   None None None false None None)
         initial)
  = Ret false.
Proof.
  apply (script_exits_before_any_request 3 (fun _ => healthy 0) 1000
           (Some "account") (Some EmptyString)
           (inr (JList [JObj [("name", JStr "quebec-road-signs"); ("uuid", JStr "2222")]]))
           (OpenData (Some (Reader [inr "INSERT OR REPLACE INTO poles (pole_id) VALUES ('P1')"]
                                 None))
                     None None None false None None)
           initial).
  right. left. reflexivity.
Defined.




(** ** What a job raises *)

Section RaisesOnly.

Variable P : exn -> Prop.

Context {A B : Type}.

Lemma raises_only_ret (a : A) : raises_only P (ret a).
Proof. intros st e s1 H. discriminate. Qed.

Lemma raises_only_raise (e : exn) : P e -> raises_only P (@raise A e).
Proof. intros He st e' s1 H. injection H as <- _. exact He. Qed.

Lemma raises_only_out_of_fuel : raises_only P (@out_of_fuel A).
Proof. intros st e s1 H. discriminate. Qed.

Lemma raises_only_bind (c : M A) (k : A -> M B) :
  raises_only P c -> (forall a, raises_only P (k a)) -> raises_only P (bind c k).
Proof.
  intros Hc Hk st e s1. unfold bind.
  destruct (c st) as [[a | e' |] s'] eqn:Hrun.
  - apply Hk.
  - intros H. injection H as <- _. exact (Hc _ _ _ Hrun).
  - discriminate.
Qed.

Lemma raises_only_lift (r : exn + A) :
  (forall e, r = inl e -> P e) -> raises_only P (lift r).
Proof.
  intros H. destruct r as [e | a]; [apply raises_only_raise; auto | apply raises_only_ret].
Qed.

Lemma raises_only_if (b : bool) (c1 c2 : M A) :
  raises_only P c1 -> raises_only P c2 -> raises_only P (if b then c1 else c2).
Proof. destruct b; auto. Qed.

End RaisesOnly.

Lemma raises_only_emit (P : exn -> Prop) (ev : event) : raises_only P (emit ev).
Proof. intros st e s1 H. discriminate. Qed.

Lemma getitem_raises (j : json) (key : string) (e : exn) :
  getitem j key = inl e -> no_decode_error e.
Proof.
  unfold getitem. destruct j; try (intros H; injection H as <-; discriminate).
  destruct (lookup key items); [discriminate |].
  intros H. injection H as <-. discriminate.
Qed.

Lemma raises_only_subscript (j : json) (key : string) :
  raises_only no_decode_error (subscript j key).
Proof. apply raises_only_lift. apply getitem_raises. Qed.

Lemma raises_only_http (rq : request) (reply : string + response) :
  raises_only no_decode_error (http rq reply).
Proof.
  unfold http. apply raises_only_bind; [apply raises_only_emit |].
  intros _. destruct reply; [apply raises_only_raise; discriminate | apply raises_only_ret].
Qed.

Lemma raises_only_raise_for_status (r : response) :
  raises_only no_decode_error (raise_for_status r).
Proof.
  unfold raise_for_status.
  apply raises_only_if; [apply raises_only_raise; discriminate | apply raises_only_ret].
Qed.

(** A request that is answered, checked and decoded. *)
Lemma raises_only_decoded (rq : request) (reply : string + response) {A : Type}
    (k : response -> json -> M A) :
  decodable reply ->
  (forall r body, raises_only no_decode_error (k r body)) ->
  raises_only no_decode_error
    (r <- http rq reply ;; raise_for_status r ;; body <- lift (json_body r) ;; k r body).
Proof.
  intros Hd Hk st e s1. unfold http, bind at 1 2, emit.
  destruct reply as [msg | r].
  - unfold raise. intros H. injection H as <- _. discriminate.
  - unfold ret at 1. unfold bind at 1.
    destruct (raise_for_status r _) as [[[] | e' |] s'] eqn:Hst.
    + unfold bind at 1.
      destruct (json_body r) as [e' | body] eqn:Hbody.
      * unfold lift, raise. intros H. injection H as <- _.
        intros msg ->. exact (Hd r msg eq_refl Hbody).
      * unfold lift, ret at 1. apply Hk.
    + intros H. injection H as <- _.
      exact (raises_only_raise_for_status r _ _ _ Hst).
    + discriminate.
Qed.

Lemma raises_only_poll_done (poll_result : json) :
  raises_only no_decode_error (poll_done poll_result).
Proof.
  unfold poll_done.
  apply raises_only_bind; [apply raises_only_subscript |]. intros success.
  apply raises_only_if; [apply raises_only_ret |].
  apply raises_only_bind; [apply raises_only_subscript |]. intros success'.
  apply raises_only_if; [| apply raises_only_ret].
  apply raises_only_bind; [apply raises_only_subscript |]. intros error.
  apply raises_only_ret.
Qed.

Lemma raises_only_poll_loop (sc : script) (sv : server) (bookmark : json) :
  decodes sv ->
  forall fuel k, raises_only no_decode_error (poll_loop sc fuel sv bookmark k).
Proof.
  intros (_ & _ & Hpoll). induction fuel as [|fuel IH]; intros k; cbn [poll_loop].
  - apply raises_only_out_of_fuel.
  - apply (raises_only_decoded (ReqPoll bookmark) (post_poll sv k bookmark)
             (fun _ body =>
                poll_result <- subscript body "result" ;;
                (if is_digital_assets sc then print (PollingStatus poll_result)
                 else ret tt) ;;
                done <- poll_done poll_result ;;
                if done then ret poll_result
                else emit (Sleep 2) ;; poll_loop sc fuel sv bookmark (S k)));
      [apply Hpoll |].
    intros _ body.
    apply raises_only_bind; [apply raises_only_subscript |]. intros poll_result.
    apply raises_only_bind.
    { apply raises_only_if; [apply raises_only_emit | apply raises_only_ret]. }
    intros _. apply raises_only_bind; [apply raises_only_poll_done |]. intros done.
    apply raises_only_if; [apply raises_only_ret |].
    apply raises_only_bind; [apply raises_only_emit |]. intros _. apply IH.
Qed.

Lemma raises_only_protocol (sc : script) (fuel : nat) (sv : server)
    (table_name data hash_str : string) :
  decodes sv ->
  raises_only no_decode_error (protocol sc fuel sv table_name data hash_str).
Proof.
  intros Hd. pose proof Hd as (Hinit & Hingest & _).
  unfold protocol.
  apply raises_only_bind.
  { unfold init_upload.
    intros st e s1. unfold http, bind at 1 2, emit.
    destruct (post_init sv hash_str) as [msg | r] eqn:Hr.
    - unfold raise. intros H. injection H as <- _. discriminate.
    - unfold ret at 1. unfold bind at 1, set_init_response.
      revert st e s1.
      match goal with
      | |- forall st e s1, ?c ?s0 = _ -> _ =>
          assert (Hc : raises_only no_decode_error c); [| intros st e s1; apply Hc]
      end.
      apply raises_only_bind; [apply raises_only_raise_for_status |]. intros _.
      apply raises_only_bind.
      { apply raises_only_lift. intros e He msg ->. exact (Hinit hash_str r msg Hr He). }
      intros upload_data.
      repeat (apply raises_only_bind; [apply raises_only_subscript |]; intros ?).
      apply raises_only_ret. }
  intros [upload_url filename].
  apply raises_only_bind.
  { unfold upload_to_r2.
    apply raises_only_bind; [apply raises_only_http |]. intros r.
    apply raises_only_bind; [apply raises_only_raise_for_status |]. intros _.
    cbv zeta.
    apply raises_only_if; [apply raises_only_raise; discriminate | apply raises_only_ret]. }
  intros _.
  apply raises_only_bind.
  { unfold start_ingestion.
    apply (raises_only_decoded (ReqIngest hash_str filename)
             (post_ingest sv hash_str filename)
             (fun _ ingest_data =>
                (if is_digital_assets sc then print (IngestionInitiated ingest_data)
                 else ret tt) ;;
                ret ingest_data)); [apply Hingest |].
    intros _ ingest_data.
    apply raises_only_bind; [| intros _; apply raises_only_ret].
    apply raises_only_if; [apply raises_only_emit | apply raises_only_ret]. }
  intros ingest_data. unfold polling.
  apply raises_only_bind; [apply raises_only_subscript |]. intros result.
  apply raises_only_bind; [apply raises_only_subscript |]. intros bookmark.
  apply raises_only_bind; [now apply raises_only_poll_loop |]. intros poll_result.
  apply raises_only_bind; [apply raises_only_subscript |]. intros success.
  apply raises_only_if; [apply raises_only_emit |].
  apply raises_only_bind; [apply raises_only_subscript |]. intros error.
  apply raises_only_emit.
Qed.

(** The digital-assets driver returns when the polls of its server settle
    and no answer raises a bare decode error. *)
Lemma assets_driver_returns (fuel : nat) (sv : server) (table_name : string)
    (sql_statements : list string) (st : state) :
  settles fuel sv ->
  decodes sv ->
  exists v, fst (d1_bulk_import DigitalAssets fuel sv table_name sql_statements st) = Ret v.
Proof.
  intros Hs Hd.
  pose proof (ends_d1_bulk_import DigitalAssets fuel sv table_name sql_statements Hs st)
    as Hends.
  destruct (d1_bulk_import DigitalAssets fuel sv table_name sql_statements st)
    as [[v | e |] s1] eqn:Hrun; cbn [fst] in *; [now exists v | | contradiction].
  exfalso. revert Hrun.
  unfold d1_bulk_import, enter. unfold bind at 1.
  destruct sql_statements as [|s rest]; [discriminate |].
  cbn [is_digital_assets]. unfold lookup_database, bind at 1 2, emit.
  destruct (wrangler sv) as [e0 | [id |]]; try discriminate.
  unfold ret at 1. cbv zeta. unfold bind at 1, print, emit. unfold bind at 1, try_except.
  destruct (protocol _ _ _ _ _ _ _) as [[[] | e1 |] s2] eqn:Hp; try discriminate.
  apply raises_only_protocol in Hp; [| exact Hd].
  unfold handlers. destruct e1 as [m | m | m]; try discriminate.
  exfalso. exact (Hp m eq_refl).
Qed.

(** ** The runs of the callers *)

Section SettledRuns.

Variable fuel : nat.
Variable world : nat -> server.
Hypothesis settled : forall j, settles fuel (world j).

(** The open-data run over a file read to its end. *)
Lemma ingest_poles_data_returns (batch_size : Z) (rows : list (exn + string))
    (st : state) :
  fst (ingest_poles_data fuel world batch_size (Reader rows None) st) = Ret VNone
  /\ invocations (trace (snd (ingest_poles_data fuel world batch_size
                                                (Reader rows None) st)))
     = (invocations (trace st) ++ batcher batch_size (added rows))%list.
Proof.
  destruct (ingest_poles_data_invocations fuel world batch_size rows st) as [Hf | H];
    [| exact H].
  exfalso. revert Hf.
  assert (He : ends (ingest_poles_data fuel world batch_size (Reader rows None)));
    [| apply He].
  unfold ingest_poles_data.
  apply ends_bind; [apply ends_emit |]. intros _.
  apply ends_bind; [now apply ends_poles_loop |]. intros batch.
  apply ends_bind.
  { destruct batch as [|s batch]; [apply ends_ret |].
    apply ends_call. intros j. apply ends_d1_bulk_import, settled. }
  intros _. apply ends_bind; [apply ends_emit |]. intros _. apply ends_ret.
Qed.

(** The open-data run over a file whose reader stops with an exception. *)
Lemma ingest_poles_data_raises (batch_size : Z) (rows : list (exn + string)) (e : exn)
    (st : state) :
  fst (ingest_poles_data fuel world batch_size (Reader rows (Some e)) st) = Raise e
  /\ invocations (trace (snd (ingest_poles_data fuel world batch_size
                                                (Reader rows (Some e)) st)))
     = (invocations (trace st) ++ fst (batcher_loop batch_size (added rows) []))%list.
Proof.
  destruct (ingest_poles_data_stopped fuel world batch_size rows e st) as [Hf | H];
    [| exact H].
  exfalso. revert Hf.
  assert (He : ends (ingest_poles_data fuel world batch_size (Reader rows (Some e))));
    [| apply He].
  unfold ingest_poles_data.
  apply ends_bind; [apply ends_emit |]. intros _.
  apply ends_bind; [now apply ends_poles_loop |]. intros batch.
  apply ends_bind.
  { destruct batch as [|s batch]; [apply ends_ret |].
    apply ends_call. intros j. apply ends_d1_bulk_import, settled. }
  intros _. apply ends_bind; [apply ends_emit |]. intros _. apply ends_ret.
Qed.

Hypothesis decoding : forall j, decodes (world j).

(** The digital-assets loop over rows none of which raises. *)
Lemma assets_loop_total (table_name : string) (batch_size : Z)
    (rows : list (exn + option string)) :
  (forall e, ~ In (inl e) rows) ->
  forall (batch : list string) (st : state),
    exists final,
      fst (assets_loop fuel world table_name batch_size rows batch st) = Ret final.
Proof.
  induction rows as [|[e | [s |]] rows IH]; intros Hrows batch st.
  - exists batch. reflexivity.
  - exfalso. apply (Hrows e). now left.
  - assert (Hrest : forall e, ~ In (inl e) rows).
    { intros e Hin. apply (Hrows e). now right. }
    rewrite assets_loop_statement.
    destruct (Z.of_nat (List.length (batch ++ [s])) >=? batch_size)%Z;
      [| apply (IH Hrest)].
    destruct (assets_driver_returns fuel (world (jobs st)) table_name (batch ++ [s])%list
                (State (trace st) (S (jobs st)) (init_response_var st))
                (settled _) (decoding _)) as (v & Hv).
    destruct (d1_bulk_import _ _ _ _ _ _) as [[v' | e |] sd]; cbn [fst] in Hv;
      try discriminate.
    apply (IH Hrest).
  - assert (Hrest : forall e, ~ In (inl e) rows).
    { intros e Hin. apply (Hrows e). now right. }
    cbn [assets_loop]. apply (IH Hrest).
Qed.

Lemma ingest_digital_assets_returns (batch_size : Z)
    (rows : list (exn + option string)) (st : state) :
  (forall e, ~ In (inl e) rows) ->
  fst (ingest_digital_assets fuel world batch_size rows st) = Ret VNone
  /\ invocations (trace (snd (ingest_digital_assets fuel world batch_size rows st)))
     = (invocations (trace st) ++ batcher batch_size (added_assets rows))%list.
Proof.
  intros Hrows.
  assert (Hret : fst (ingest_digital_assets fuel world batch_size rows st) = Ret VNone).
  { rewrite ingest_digital_assets_loop.
    destruct (assets_loop_total "sign_definitions" batch_size rows Hrows []
                (log [Print (Banner "Starting Ingestion of Digital Assets")] st))
      as (final & Hfinal).
    destruct (assets_loop _ _ _ _ _ _ _) as [[batch | e |] s1]; cbn [fst] in Hfinal;
      try discriminate.
    unfold bind at 1.
    assert (Hflush : exists v s2,
               (match batch with
                | [] => ret VNone
                | _ :: _ =>
                    sv <- next_server world ;;
                    d1_bulk_import DigitalAssets fuel sv "sign_definitions" batch
                end) s1 = (Ret v, s2)).
    { destruct batch as [|s batch]; [now exists VNone, s1 |].
      unfold bind, next_server.
      destruct (assets_driver_returns fuel (world (jobs s1)) "sign_definitions"
                  (s :: batch)
                  (State (trace s1) (S (jobs s1)) (init_response_var s1))
                  (settled _) (decoding _)) as (v & Hv).
      destruct (d1_bulk_import _ _ _ _ _ _) as [[v' | e |] sd]; cbn [fst] in Hv;
        try discriminate.
      now exists v', sd. }
    destruct Hflush as (v & s2 & ->). reflexivity. }
  split; [exact Hret |].
  exact (ingest_digital_assets_invocations _ _ _ _ _ _ Hret).
Qed.

End SettledRuns.

Lemma Forall_removelast {A : Type} (P : A -> Prop) (l : list A) :
  Forall P l -> Forall P (removelast l).
Proof.
  induction l as [|a l IH]; intros H; [constructor |].
  inversion H as [|a' l' Ha Hl]; subst.
  destruct l as [|b l]; [constructor |].
  cbn [removelast]. constructor; [exact Ha | apply IH, Hl].
Qed.

(** The batches of the batcher are the statements cut into batches. *)
Lemma batcher_batched (batch_size : Z) (statements : list string) :
  (0 < batch_size)%Z ->
  batched batch_size statements (batcher batch_size statements).
Proof.
  intros HB.
  destruct (batcher_shape batch_size statements HB)
    as (Hn & Hsizes & Hcat & Hfull & _ & Heq).
  unfold batched. cbv zeta. repeat split; try assumption.
  rewrite Heq.
  destruct (snd (batcher_loop batch_size statements [])) as [|s final].
  - rewrite app_nil_r. now apply Forall_removelast.
  - now rewrite removelast_last.
Qed.




(** When the reader of the file stops with an exception, the exception
    leaves [ingest_poles_data]: the batches formed from the rows read so far
    have been handed to the driver, the statements gathered since the last
    of them have not, and the rows that raised before have been reported.
    The polls of every job are taken to settle. *)
Theorem reader_error_loses_the_pending_batch
    (fuel : nat) (world : nat -> server) (batch_size : Z) (rows : list (exn + string))
    (e : exn) (st : state) :
  (0 < batch_size)%Z ->
  (forall j, settles fuel (world j)) ->
  let run := ingest_poles_data fuel world batch_size (Reader rows (Some e)) st in
  let submitted := fst (batcher_loop batch_size (added rows) []) in
  let pending := snd (batcher_loop batch_size (added rows) []) in
  fst run = Raise e
  /\ invocations (trace (snd run)) = (invocations (trace st) ++ submitted)%list
  /\ (List.concat submitted ++ pending)%list = added rows
  /\ (Z.of_nat (List.length pending) < batch_size)%Z.
Proof.
  intros HB Hs run submitted pending.
  destruct (ingest_poles_data_raises fuel world Hs batch_size rows e st) as (Hr & Hi).
  pose proof (batcher_loop_invariant batch_size HB (added rows) []
                ltac:(cbn [List.length]; lia)) as Hinv.
  unfold submitted, pending.
  destruct (batcher_loop batch_size (added rows) []) as [sub fin].
  destruct Hinv as (Hcat & _ & Hlen & _). cbn [fst snd] in *.
  repeat split; assumption.
Qed.

Lemma reader_error_loses_the_pending_batch_witness :
  fst (ingest_poles_data 1 (fun _ => healthy 0) 2
         (Reader [inr "s1"; inr "s2"; inr "s3"] (Some (OtherException "UnicodeDecodeError")))
         initial)
  = Raise (OtherException "UnicodeDecodeError")
  /\ invocations
       (trace
          (snd (ingest_poles_data 1 (fun _ => healthy 0) 2
                  (Reader [inr "s1"; inr "s2"; inr "s3"]
                          (Some (OtherException "UnicodeDecodeError")))
                  initial)))
     = [["s1"; "s2"]].
Proof.
  destruct (reader_error_loses_the_pending_batch 1 (fun _ => healthy 0) 2
              [inr "s1"; inr "s2"; inr "s3"] (OtherException "UnicodeDecodeError") initial)
    as (Hr & Hi & _).
  - lia.
  - intros j bookmark. exists 0. split; [lia | reflexivity].
  - split; [exact Hr |]. rewrite Hi. reflexivity.
Defined.


(** ** The literals of a built statement *)

(** The values of a statement read back. *)
Lemma rendered_values_read_back (float_repr : float -> string) (data : record) :
  read_values (Py.join ", " (List.map (fun kv => sql_literal float_repr (snd kv)) data))
  = Some (List.map (fun kv => stored float_repr (snd kv)) data).
Proof.
  rewrite <- !(List.map_map snd).
  destruct (List.map snd data) as [|v vs]; [reflexivity |].
  pose proof (rendered_values_length float_repr (v :: vs)) as Hlen.
  pose proof (read_values_from_rendered float_repr (v :: vs)) as Hread.
  unfold read_values.
  destruct (Py.join ", " (List.map (sql_literal float_repr) (v :: vs))) as [|c s] eqn:Hj.
  - cbn [List.length String.length] in Hlen. lia.
  - apply Hread; [discriminate | exact Hlen].
Qed.

(** C7: in the statement built for a record, the value of a column that
    holds a string is a quote, the string with each of its quotes doubled,
    and a quote.  This literal is well formed: read back on its own
    (dropping the outer quotes, halving the doubled ones) it gives the
    string again, and so does the text of the values of the statement read
    back as a whole, at the position of the column. *)
Theorem string_literal_round_trip
    (float_repr : float -> string) (table_name : string) (data : record)
    (i : nat) (col : string) (s : string) :
  nth_error data i = Some (col, VStr s) ->
  let values := List.map (fun kv => sql_literal float_repr (snd kv)) data in
  make_sql_insert float_repr table_name data
  = "INSERT INTO " ++ table_name ++ " (" ++ Py.join ", " (List.map fst data)
    ++ ") VALUES (" ++ Py.join ", " values ++ ")"
  /\ nth_error values i = Some ("'" ++ Py.replace "'" "''" s ++ "'")
  /\ parse_literal ("'" ++ Py.replace "'" "''" s ++ "'") = Some s
  /\ exists read,
       read_values (Py.join ", " values) = Some read
       /\ nth_error read i = Some (Some s).
Proof.
  intros H values.
  split; [reflexivity |].
  split; [unfold values; now rewrite (nth_error_map_literal float_repr data i col _ H) |].
  split; [apply parse_literal_quoted |].
  exists (List.map (fun kv => stored float_repr (snd kv)) data).
  split; [apply rendered_values_read_back |].
  rewrite nth_error_map, H. reflexivity.
Qed.

Lemma string_literal_round_trip_witness :
  make_sql_insert (fun _ => "0.0") "poles"
    [("pole_id", VStr "P1"); ("street", VStr "rue de l'Eglise, (nord)")]
  = "INSERT INTO poles (pole_id, street) VALUES ('P1', 'rue de l''Eglise, (nord)')"
  /\ parse_literal ("'" ++ Py.replace "'" "''" "rue de l'Eglise, (nord)" ++ "'")
     = Some "rue de l'Eglise, (nord)".
Proof.
  destruct (string_literal_round_trip (fun _ => "0.0") "poles"
              [("pole_id", VStr "P1"); ("street", VStr "rue de l'Eglise, (nord)")]
              1 "street" "rue de l'Eglise, (nord)" eq_refl) as (Hs & _ & Hp & _).
  split; [rewrite Hs; reflexivity | exact Hp].
Defined.

(** C10: in the statement built for a record, the value of a column that
    holds anything but [None] is the quoted literal of its [str] form,
    quotes doubled, whatever its type: it reads back as [str(v)], on its own
    and in the values of the statement, and it is never the bare text of the
    value.  A record with the one column [c] holding [True], [False] or the
    integer 5 gives the values ['True'], ['False'] and ['5']. *)
Theorem non_null_renders_quoted
    (float_repr : float -> string) (table_name : string) (data : record)
    (i : nat) (col : string) (v : value) :
  nth_error data i = Some (col, v) ->
  v <> VNone ->
  let values := List.map (fun kv => sql_literal float_repr (snd kv)) data in
  let literal := "'" ++ Py.replace "'" "''" (py_str float_repr v) ++ "'" in
  make_sql_insert float_repr table_name data
  = "INSERT INTO " ++ table_name ++ " (" ++ Py.join ", " (List.map fst data)
    ++ ") VALUES (" ++ Py.join ", " values ++ ")"
  /\ nth_error values i = Some literal
  /\ parse_literal literal = Some (py_str float_repr v)
  /\ literal <> py_str float_repr v
  /\ (exists read,
         read_values (Py.join ", " values) = Some read
         /\ nth_error read i = Some (Some (py_str float_repr v)))
  /\ (forall c,
         make_sql_insert float_repr table_name [(c, VBool true)]
         = "INSERT INTO " ++ table_name ++ " (" ++ c ++ ") VALUES ('True')"
         /\ make_sql_insert float_repr table_name [(c, VBool false)]
            = "INSERT INTO " ++ table_name ++ " (" ++ c ++ ") VALUES ('False')"
         /\ make_sql_insert float_repr table_name [(c, VInt 5)]
            = "INSERT INTO " ++ table_name ++ " (" ++ c ++ ") VALUES ('5')").
Proof.
  intros H Hv values literal.
  pose proof (sql_literal_non_null float_repr v Hv) as Heq.
  split; [reflexivity |].
  split.
  { unfold values, literal.
    rewrite (nth_error_map_literal float_repr data i col _ H). now rewrite Heq. }
  split; [apply parse_literal_quoted |].
  split.
  { unfold literal. intros Habs.
    apply (f_equal String.length) in Habs.
    cbn [append String.length] in Habs.
    rewrite length_append in Habs. cbn [String.length] in Habs.
    pose proof (replace_quote_length (py_str float_repr v)). lia. }
  split.
  { exists (List.map (fun kv => stored float_repr (snd kv)) data).
    split; [apply rendered_values_read_back |].
    rewrite nth_error_map, H. cbn [option_map snd]. unfold stored.
    destruct v; [contradiction | reflexivity ..]. }
  intros c. repeat split; reflexivity.
Qed.

Lemma non_null_renders_quoted_witness :
  make_sql_insert (fun _ => "45.5") "poles"
    [("pole_id", VStr "P1"); ("version", VInt 1000); ("latitude", VFloat 45.5%float);
     ("is_on_street", VBool false)]
  = "INSERT INTO poles (pole_id, version, latitude, is_on_street) VALUES ('P1', '1000', '45.5', 'False')"
  /\ nth_error
       (List.map (fun kv => sql_literal (fun _ => "45.5") (snd kv))
          [("pole_id", VStr "P1"); ("version", VInt 1000); ("latitude", VFloat 45.5%float);
           ("is_on_street", VBool false)]) 1
     = Some "'1000'".
Proof.
  destruct (non_null_renders_quoted (fun _ => "45.5") "poles"
              [("pole_id", VStr "P1"); ("version", VInt 1000);
               ("latitude", VFloat 45.5%float); ("is_on_street", VBool false)]
              1 "version" (VInt 1000) eq_refl) as (Hs & Hn & _).
  - discriminate.
  - split; [rewrite Hs; reflexivity | exact Hn].
Defined.


(** ** A job that fails, and the run around it *)




